(** * hoerbuch: audio timeline synthesis and chapter-metadata reconciliation

    A shallow embedding of [hoerbuch.py].  The development follows the
    program's own structure:

    - [Py]       the Python built-ins the program relies on ([str.split],
                 [str.strip], [int()], truthiness, [isinstance]);
    - the marker codec of the primary container ([text_to_ogg]'s tagging
      block and [read_ogg_markers]);
    - the timeline recorder (the streaming loop of [text_to_ogg]);
    - marker estimation ([calculate_approximate_markers]);
    - the marker projector ([write_mp3_chapter_tags]);
    - file name derivation ([safe_filename]);
    - the extractors for text files and documents and the search for
      the voice model ([extract_segments_from_txt],
      [extract_segments_from_document], [find_model_path]);
    - the command driver ([main], [run_chapter_logic],
      [synthesize_separate_chapter], [convert_ogg_to_mp3]) over an explicit
      file system, with the external collaborators (speech engine, ffmpeg,
      document extractors, console input) supplied by a [world] record.

    Modelling conventions.  A Python [str] is a Rocq [string]; a [dict]
    with string keys is a [gmap string _].  Seconds are written in two
    ways.  In the codec, in the driver and in the statements about the
    order of the markers and the layout of the file, a [float] holding
    seconds is a rational ([Q]): what is said there does not hang on the
    last bit of a sum.  Where a statement gives the very number the
    program computes (the end-to-end scenario, the estimation, the
    milliseconds of the projector) the arithmetic is binary64, in the
    module [Float64] at the end of the definitions. *)

From Stdlib Require Import ZArith QArith Qround Qminmax Lqa Lia.
From Stdlib Require Import Ascii String DecimalString DecimalZ DecimalPos.
From Stdlib Require Import SpecFloat.
From stdpp Require Import gmap strings list pretty.

(** ** Python built-ins *)

Module Py.

(** [s.startswith(p)] *)
Definition startswith (p s : string) : bool := String.prefix p s.

(** [s.split("\n\n")]: cut at every non-overlapping occurrence of two
    line feeds, scanning from the left; [cur] is the piece being read. *)
Definition LF : ascii := "010"%char.

Fixpoint split_blank_go (cur s : string) : list string :=
  match s with
  | EmptyString => [cur]
  | String c1 s1 =>
      match s1 with
      | String c2 s2 =>
          if Ascii.eqb c1 LF && Ascii.eqb c2 LF
          then cur :: split_blank_go "" s2
          else split_blank_go (cur +:+ String c1 "") s1
      | EmptyString => [cur +:+ String c1 ""]
      end
  end.

Definition split_blank (s : string) : list string := split_blank_go "" s.

(** [s.strip()] for a given whitespace class. *)
Section Strip.
Variable isspace : ascii → bool.

Fixpoint lstrip (s : string) : string :=
  match s with
  | String c s' => if isspace c then lstrip s' else s
  | EmptyString => EmptyString
  end.

Fixpoint rstrip (s : string) : string :=
  match s with
  | String c s' =>
      match rstrip s' with
      | EmptyString => if isspace c then EmptyString else String c EmptyString
      | r => String c r
      end
  | EmptyString => EmptyString
  end.

Definition strip (s : string) : string := rstrip (lstrip s).
End Strip.

(** Truthiness of a [str]. *)
Definition truthy (s : string) : bool :=
  match s with EmptyString => false | _ => true end.

(** [d.get(k, default)] *)
Definition get (d : gmap string string) (k default : string) : string :=
  match d !! k with Some v => v | None => default end.

(** [f"{counter:02d}"] for a non-negative counter. *)
Definition fmt_02d (n : nat) : string :=
  if (n <? 10)%nat then "0" +:+ pretty n else pretty n.

(** The values [args.chapters] takes after normalisation.  In Python
    [bool] is a subclass of [int]: [isinstance(True, int)] holds,
    [True == 1] and [False == 0]. *)
Inductive pyval :=
| PyBool (b : bool)
| PyInt (n : Z).

(** [isinstance(v, int)] *)
Definition isinstance_int (v : pyval) : bool :=
  match v with
  | PyBool _ => true
  | PyInt _ => true
  end.

(** The integer a value compares and formats as. *)
Definition int_value (v : pyval) : Z :=
  match v with
  | PyBool true => 1
  | PyBool false => 0
  | PyInt n => n
  end.

(** [if v:] *)
Definition truthy_val (v : pyval) : bool := negb (int_value v =? 0)%Z.

(** [v is True] *)
Definition is_True (v : pyval) : bool :=
  match v with
  | PyBool true => true
  | _ => false
  end.

(** Decimal digits, as [int()] reads them. *)
Definition is_decimal (c : ascii) : bool :=
  let n := nat_of_ascii c in (48 <=? n)%nat && (n <=? 57)%nat.

Definition decimal_value (c : ascii) : Z := Z.of_nat (nat_of_ascii c) - 48.

(** The digits of an [int()] literal: single underscores may separate
    digits. *)
Fixpoint digits_value (acc : Z) (after_digit : bool) (s : string) : option Z :=
  match s with
  | EmptyString => if after_digit then Some acc else None
  | String c s' =>
      if is_decimal c then digits_value (acc * 10 + decimal_value c) true s'
      else if Ascii.eqb c "_" && after_digit then digits_value acc false s'
      else None
  end.

(** [int(s)]; [None] stands for [ValueError]. *)
Definition int_of_str (isspace : ascii → bool) (s : string) : option Z :=
  match strip isspace s with
  | String "+" r => digits_value 0 false r
  | String "-" r => Z.opp <$> digits_value 0 false r
  | r => digits_value 0 false r
  end.

(** [s.isdigit()]: non-empty and made of digits; besides the decimal
    digits the superscripts one, two and three are digits. *)
Definition is_digit_char (c : ascii) : bool :=
  let n := nat_of_ascii c in
  is_decimal c || (n =? 178)%nat || (n =? 179)%nat || (n =? 185)%nat.

Fixpoint all_chars (p : ascii → bool) (s : string) : bool :=
  match s with
  | EmptyString => true
  | String c s' => p c && all_chars p s'
  end.

Definition isdigit (s : string) : bool := truthy s && all_chars is_digit_char s.

(** [s.lower()] on the letters A to Z. *)
Definition lower_char (c : ascii) : ascii :=
  let n := nat_of_ascii c in
  if (65 <=? n)%nat && (n <=? 90)%nat then ascii_of_nat (n + 32) else c.

Fixpoint lower (s : string) : string :=
  match s with
  | EmptyString => EmptyString
  | String c s' => String (lower_char c) (lower s')
  end.

End Py.

(** ** Data model *)

(** A segment is the tuple [(title, text)]. *)
Definition Segment : Type := string * string.

(** A marker is the dict [{'time_seconds': t, 'title': s}]. *)
Record Marker := mkMarker { time_seconds : Q; title : string }.

(** Vorbis comments of an OGG file: every key carries a list of values. *)
Abbreviation comments := (gmap string (list string)).

Definition SILENCE_PRE_SECONDS : Q := 1 # 2.
Definition SILENCE_POST_SECONDS : Q := 5.

Definition time_key (i : nat) : string := "chapter_start_time_" +:+ pretty i.
Definition title_key (i : nat) : string := "chapter_title_" +:+ pretty i.

(** ** Marker codec of the primary container *)

Section Codec.
(** [str(x)] and [float(s)] on the seconds values; [float] raises
    [ValueError] ([None]) on text that is not a number. *)
Variable float_repr : Q → string.
Variable float_parse : string → option Q.

(** The loop [for i, marker in enumerate(markers)] of [text_to_ogg],
    entered with index [i]. *)
Fixpoint write_marker_fields (i : nat) (markers : list Marker)
    (audio : comments) : comments :=
  match markers with
  | [] => audio
  | marker :: rest =>
      let audio := <[time_key i := [float_repr (time_seconds marker)]]> audio in
      let audio := <[title_key i := [title marker]]> audio in
      write_marker_fields (S i) rest audio
  end.

(** [keys_to_delete] and the deletion loop. *)
Definition keys_to_delete (audio : comments) : list string :=
  filter (λ k, Py.startswith "chapter_" k = true) (map_to_list audio).*1.

Definition clear_marker_fields (audio : comments) : comments :=
  foldr delete audio (keys_to_delete audio).

(** The tagging block of [text_to_ogg] (the body of its [try]). *)
Definition write_ogg_tags (metadata : gmap string string)
    (markers : list Marker) (audio : comments) : comments :=
  let audio := <["title" := [Py.get metadata "title" "Unknown Title"]]> audio in
  let audio := <["artist" := [Py.get metadata "artist" "Piper TTS"]]> audio in
  let audio := clear_marker_fields audio in
  write_marker_fields 0 markers audio.

(** One pass through the body of [while True] in [read_ogg_markers]. *)
Inductive step_result :=
| Stop                   (* the [else: break] branch *)
| Raised                 (* [float()] or [[0]] raised *)
| Next (m : Marker).     (* a marker was appended *)

Definition read_step (audio : comments) (i : nat) : step_result :=
  match audio !! time_key i, audio !! title_key i with
  | Some tv, Some sv =>
      match tv with
      | [] => Raised
      | t0 :: _ =>
          match float_parse t0 with
          | None => Raised
          | Some time_s =>
              match sv with
              | [] => Raised
              | title0 :: _ => Next (mkMarker time_s title0)
              end
          end
      end
  | _, _ => Stop
  end.

(** The [while True] loop from index [i]; [None] when the fuel is used
    up, otherwise whether the loop raised or left with its markers. *)
Fixpoint read_loop (fuel : nat) (audio : comments) (i : nat)
    : option (option (list Marker)) :=
  match fuel with
  | O => None
  | S fuel =>
      match read_step audio i with
      | Stop => Some (Some [])
      | Raised => Some None
      | Next m =>
          match read_loop fuel audio (S i) with
          | Some (Some ms) => Some (Some (m :: ms))
          | r => r
          end
      end
  end.

(** [read_ogg_markers] on the comments of an opened file: the loop
    passes at most [size audio] indices, so [S (size audio)] rounds
    always suffice (see [read_loop_total]). *)
Definition read_ogg_markers (audio : comments) : option (list Marker) :=
  match read_loop (S (size audio)) audio 0 with
  | Some (Some (m :: ms)) => Some (m :: ms)
  | _ => None
  end.

End Codec.

(** ** Numbers *)

(** [int(x)] on a float: truncation towards zero. *)
Definition py_int_of_float (x : Q) : Z := Z.quot (Qnum x) (Z.pos (Qden x)).

(** [max(0, x)]: [x] replaces the first candidate only when [x > 0]. *)
Definition py_max0 (x : Q) : Q := if Qle_bool x 0 then 0%Q else x.

(** [n / d] on two integers (true division). *)
Definition py_truediv (n d : Z) : Q := (inject_Z n / inject_Z d)%Q.

(** ** Timeline recorder: the streaming loop of [text_to_ogg] *)

(** What the open [sf.SoundFile] and the local variables hold: the length
    of every buffer passed to [f.write], [current_time_seconds] and
    [markers]. *)
Record timeline := mkTimeline {
  tl_frames : list nat;
  tl_time : Q;
  tl_markers : list Marker
}.

(** [generate_silence_array]: only the length of the array matters. *)
Definition generate_silence_array (duration_seconds : Q) (sample_rate : Z) : nat :=
  Z.to_nat (py_int_of_float (duration_seconds * inject_Z sample_rate)).

Section Recorder.
Variable isspace : ascii → bool.
(** [voice.synthesize(para)]: the lengths [len(chunk.audio_int16_array)]
    of the chunks the engine yields for [para], in order. *)
Variable synthesize : string → list nat.
Variable sample_rate : Z.

(** [paragraphs = [p for p in text.split("\n\n") if p.strip()]], with
    the fallback to the whole text. *)
Definition paragraphs_of (text_content : string) : list string :=
  match filter (λ p, Py.truthy (Py.strip isspace p) = true)
               (Py.split_blank text_content) with
  | [] => [text_content]
  | paragraphs => paragraphs
  end.

(** [f.write(buf)] *)
Definition f_write (len : nat) (tl : timeline) : timeline :=
  mkTimeline (tl_frames tl ++ [len]) (tl_time tl) (tl_markers tl).

(** [current_time_seconds += d] *)
Definition advance (d : Q) (tl : timeline) : timeline :=
  mkTimeline (tl_frames tl) (tl_time tl + d) (tl_markers tl).

(** Body of [for chunk in voice.synthesize(para)]. *)
Definition write_chunk (tl : timeline) (len : nat) : timeline :=
  let tl := f_write len tl in
  let chunk_duration_seconds := py_truediv (Z.of_nat len) sample_rate in
  advance chunk_duration_seconds tl.

(** Body of [for para in paragraphs]. *)
Definition write_paragraph (tl : timeline) (para : string) : timeline :=
  fold_left write_chunk (synthesize para) tl.

(** Body of [for title, text_content in segments]. *)
Definition record_segment (tl : timeline) (seg : Segment) : timeline :=
  let '(seg_title, text_content) := seg in
  let tl := mkTimeline (tl_frames tl) (tl_time tl)
              (tl_markers tl ++ [mkMarker (tl_time tl) seg_title]) in
  fold_left write_paragraph (paragraphs_of text_content) tl.

(** The [with sf.SoundFile(...) as f] block. *)
Definition record_timeline (segments : list Segment) : timeline :=
  let pre_silence_array := generate_silence_array SILENCE_PRE_SECONDS sample_rate in
  let post_silence_array := generate_silence_array SILENCE_POST_SECONDS sample_rate in
  let tl := mkTimeline [] 0 [] in
  let tl := advance SILENCE_PRE_SECONDS (f_write pre_silence_array tl) in
  let tl := fold_left record_segment segments tl in
  advance SILENCE_POST_SECONDS (f_write post_silence_array tl).

End Recorder.

(** ** Marker estimation: [calculate_approximate_markers] *)

Definition total_chars (segments : list Segment) : nat :=
  sum_list (map (λ seg : Segment, String.length seg.2) segments).

(** The loop [for title, text_content in segments], entered with
    [current_time_seconds]. *)
Fixpoint approximate_loop (tts_duration : Q) (total : nat)
    (current_time_seconds : Q) (segments : list Segment) : list Marker :=
  match segments with
  | [] => []
  | (seg_title, text_content) :: rest =>
      let char_ratio :=
        py_truediv (Z.of_nat (String.length text_content)) (Z.of_nat total) in
      let segment_duration := (tts_duration * char_ratio)%Q in
      mkMarker current_time_seconds seg_title
        :: approximate_loop tts_duration total
             (current_time_seconds + segment_duration) rest
  end.

(** The function after its [try] block, from the duration it read. *)
Definition approximate_markers (segments : list Segment)
    (total_ogg_duration : Q) : list Marker :=
  let fixed_silence_duration := (SILENCE_PRE_SECONDS + SILENCE_POST_SECONDS)%Q in
  let tts_duration := py_max0 (total_ogg_duration - fixed_silence_duration) in
  if (total_chars segments =? 0)%nat || Qeq_bool tts_duration 0 then []
  else approximate_loop tts_duration (total_chars segments)
         SILENCE_PRE_SECONDS segments.

(** [sound] is [(f.frames, f.samplerate)] of the opened file, [None] when
    opening it raised. *)
Definition calculate_approximate_markers (segments : list Segment)
    (sound : option (Z * Z)) : list Marker :=
  match sound with
  | None => []
  | Some (frames, samplerate) =>
      approximate_markers segments (py_truediv frames samplerate)
  end.

(** ** Marker projector: [write_mp3_chapter_tags] *)

Record chap := mkChap {
  element_id : string;
  start_time : Z;
  end_time : Z;
  start_offset : Z;
  end_offset : Z;
  sub_title : string       (* the nested TIT2 frame *)
}.

Inductive frame :=
| TIT2 (text : string)
| TPE1 (text : string)
| CHAP (c : chap).

(** An ID3 tag is a dict from hash keys to frames, in insertion order. *)
Definition id3 : Type := list (string * frame).

Definition hash_key (f : frame) : string :=
  match f with
  | TIT2 _ => "TIT2"
  | TPE1 _ => "TPE1"
  | CHAP c => "CHAP:" +:+ element_id c
  end.

(** [tags[key] = f]: an existing key keeps its place. *)
Fixpoint id3_set (key : string) (f : frame) (tags : id3) : id3 :=
  match tags with
  | [] => [(key, f)]
  | (k, g) :: rest =>
      if String.eqb k key then (k, f) :: rest else (k, g) :: id3_set key f rest
  end.

(** [tags.add(f)] *)
Definition id3_add (f : frame) (tags : id3) : id3 := id3_set (hash_key f) f tags.

(** The loop [for marker in markers]; [all_markers] is the list the loop
    indexes with [markers[chapter_frame_id]]. *)
Fixpoint chapter_loop (all_markers : list Marker) (chapter_frame_id : nat)
    (todo : list Marker) (tags : id3) : id3 :=
  match todo with
  | [] => tags
  | marker :: rest =>
      let chapter_frame_id := S chapter_frame_id in
      let start_ms := py_int_of_float (time_seconds marker * 1000) in
      let end_ms :=
        if (chapter_frame_id <? length all_markers)%nat then
          match all_markers !! chapter_frame_id with
          | Some next => py_int_of_float (time_seconds next * 1000)
          | None => 0%Z      (* not reached: the index is in range *)
          end
        else 0%Z in
      let c := mkChap ("chp_" +:+ pretty chapter_frame_id)
                 start_ms end_ms 0 0 (title marker) in
      chapter_loop all_markers chapter_frame_id rest (id3_add (CHAP c) tags)
  end.

(** The tag [write_mp3_chapter_tags] builds before [audio.save]. *)
Definition mp3_chapter_tags (markers : list Marker)
    (metadata : gmap string string) : id3 :=
  let book_title := Py.get metadata "title" "Unknown Title" in
  let book_artist := Py.get metadata "artist" "Piper TTS" in
  let tags := id3_add (TIT2 book_title) [] in
  let tags := id3_add (TPE1 book_artist) tags in
  chapter_loop markers 0 markers tags.

(** The chapter frames of a tag, in order. *)
Definition chapters_of (tags : id3) : list chap :=
  omap (λ kf : string * frame,
          match kf.2 with CHAP c => Some c | _ => None end) tags.

(** ** File name derivation: [safe_filename] *)

Section SafeFilename.
(** [str.isalnum] and [str.isspace] on one character: the classes behind
    the patterns [\w] and [\s]. *)
Variable isalnum : ascii → bool.
Variable isspace : ascii → bool.

Definition is_word (c : ascii) : bool := isalnum c || Ascii.eqb c "_".

(** A character the pattern [[^\w\s\-]] does not match. *)
Definition kept (c : ascii) : bool :=
  is_word c || isspace c || Ascii.eqb c "-".

Fixpoint str_filter (p : ascii → bool) (s : string) : string :=
  match s with
  | EmptyString => EmptyString
  | String c s' => if p c then String c (str_filter p s') else str_filter p s'
  end.

(** [re.sub(r'\s+', '_', s)]; [in_run] tells that the previous character
    was whitespace already replaced. *)
Fixpoint sub_spaces (in_run : bool) (s : string) : string :=
  match s with
  | EmptyString => EmptyString
  | String c s' =>
      if isspace c
      then (if in_run then sub_spaces true s' else String "_" (sub_spaces true s'))
      else String c (sub_spaces false s')
  end.

(** [s[:n]] *)
Fixpoint str_take (n : nat) (s : string) : string :=
  match n, s with
  | S n', String c s' => String c (str_take n' s')
  | _, _ => EmptyString
  end.

(** The three assignments to [safe_name]. *)
Definition safe_name (title : string) : string :=
  let safe_name := Py.strip isspace (str_filter kept title) in
  let safe_name := sub_spaces false safe_name in
  str_take 50 safe_name.

Definition safe_filename (title : string) (counter : nat) : string :=
  Py.fmt_02d counter +:+ "_" +:+ safe_name title.

End SafeFilename.

(** ** The command driver *)

(** *** Paths and files *)

(** A [pathlib.Path] by its directory, stem and suffix. *)
Record path := mkPath { parent : string; stem : string; suffix : string }.

#[global] Instance path_eq_dec : EqDecision path.
Proof. solve_decision. Defined.

#[global] Instance path_countable : Countable path.
Proof.
  refine (inj_countable' (λ p, (parent p, stem p, suffix p))
            (λ t, mkPath t.1.1 t.1.2 t.2) _).
  by intros [].
Defined.

(** [p.with_suffix(sfx)] *)
Definition with_suffix (p : path) (sfx : string) : path :=
  mkPath (parent p) (stem p) sfx.

(** [p.name] *)
Definition name (p : path) : string := stem p +:+ suffix p.

(** [p.parent / f"{p.stem}_{safe_file_name}.ogg"]; [safe_file_name]
    holds no dot, so the suffix of the new path is [".ogg"]. *)
Definition chapter_path (p : path) (safe_file_name : string) : path :=
  mkPath (parent p) (stem p +:+ "_" +:+ safe_file_name) ".ogg".

(** What a file holds, as far as the program looks into it. *)
Inductive content :=
| OggFile (frames : list nat) (samplerate : Z) (tags : comments)
| Mp3File (frames : list nat) (tags : id3)
| OtherFile (data : string).

Abbreviation filesystem := (gmap path content).

Inductive exn :=
| CalledProcessError
| FileNotFoundError
| Exception.

(** What the program prints, on either stream. *)
Inductive message :=
| MsgInputNotFound (file : path)
| MsgUnsupportedExtension (ext : string)
| MsgParsingError
| MsgNoSegments
| MsgUsingTitle (book_title artist : string)
| MsgDirectChapter (n : Z) (chapter_title : string)
| MsgOutputExists (file : string)
| MsgChapterNotFound (n : Z) (m : nat)
| MsgInteractiveStarted (n : nat)
| MsgCombining
| MsgCombinedFinished
| MsgSplitting
| MsgSkippingChapter (chapter_title file : string)
| MsgChapterError (n : nat) (chapter_title : string)
| MsgSplitFinished
| MsgSingleFinished
| MsgInvalidSelection
| MsgContinuingStandard
| MsgStopOutputExists (file : path)
| MsgReusingOgg
| MsgPreciseMarkers
| MsgEstimatingMarkers
| MsgOggTagWarning
| MsgOggWritten (file : path) (total_duration : Q)
| MsgMp3Converted (file : path)
| MsgOggDeleted (file : path)
| MsgConversionError (e : exn)
| MsgMp3Tagged
| MsgMp3TagError
| MsgCriticalError
| MsgOggDeletedAfterError
| MsgMp3DeletedAfterError.

(** *** External collaborators *)

Inductive ffmpeg_outcome :=
| FfOk (mp3 : content)                (* exit status 0, the target written *)
| FfFailed (partial : option content) (* non-zero exit status *)
| FfNotFound                          (* no ffmpeg executable *)
| FfOSError.                          (* the process could not be started *)

(** [args] after [parse_args]: [-k] absent ([False]), bare ([True]) or
    with a value (a [str]). *)
Inductive chapters_arg :=
| KAbsent
| KBare
| KValue (s : string).

Record arguments := mkArgs {
  a_input_file : string;
  a_mp3 : bool;
  a_chapters : chapters_arg
}.

Record world := mkWorld {
  w_isalnum : ascii → bool;
  w_isspace : ascii → bool;
  w_float_repr : Q → string;
  w_float_parse : string → option Q;
  (** [pathlib.Path(s)] *)
  w_Path : string → path;
  (** [find_model_path]: [None] when it exits *)
  w_find_model_path : option string;
  w_check_ffmpeg_installed : bool;
  (** the document extractors; [None] when they raise *)
  w_extract_txt : path → option (list Segment * gmap string string);
  w_extract_document : path → option (list Segment * gmap string string);
  w_extract_epub : path → option (list Segment * gmap string string);
  w_get_title_from_path : path → string;
  (** the speech engine: whether [PiperVoice.load] returns, its sample
      rate, the chunk lengths per paragraph, and for a target file what
      it leaves there when synthesis raises midway *)
  w_voice_loads : bool;
  w_sample_rate : Z;
  w_synthesize : string → list nat;
  w_engine_fault : path → option content;
  (** whether mutagen opens and saves the file *)
  w_mutagen_ok : path → bool;
  w_ffmpeg : path → path → ffmpeg_outcome;
  (** what the user types at the prompt *)
  w_input : string
}.

(** *** The monad of the driver: a file system, the printed messages,
    exceptions and [sys.exit] *)

Record state := mkState { fs : filesystem; out : list message }.

Inductive result (A : Type) :=
| Ret (a : A)
| Raise (e : exn)
| SysExit (code : Z).
Arguments Ret {A} a.
Arguments Raise {A} e.
Arguments SysExit {A} code.

Definition M (A : Type) : Type := state → result A * state.

#[global] Instance M_ret : MRet M := λ A a st, (Ret a, st).

#[global] Instance M_bind : MBind M := λ A B f m st,
  match m st with
  | (Ret a, st') => f a st'
  | (Raise e, st') => (Raise e, st')
  | (SysExit c, st') => (SysExit c, st')
  end.

Definition raise {A} (e : exn) : M A := λ st, (Raise e, st).

(** [sys.exit(code)] raises [SystemExit], which [except Exception] does
    not catch. *)
Definition sys_exit {A} (code : Z) : M A := λ st, (SysExit code, st).

(** [try: body / except Exception as e: handler e] *)
Definition try_except {A} (body : M A) (handler : exn → M A) : M A := λ st,
  match body st with
  | (Raise e, st') => handler e st'
  | r => r
  end.

Definition print (m : message) : M unit := λ st,
  (Ret tt, mkState (fs st) (out st ++ [m])).

Definition get_fs : M filesystem := λ st, (Ret (fs st), st).

Definition path_exists (files : filesystem) (p : path) : bool :=
  bool_decide (is_Some (files !! p)).

(** [p.exists()] *)
Definition exists_ (p : path) : M bool := λ st, (Ret (path_exists (fs st) p), st).

(** Creating or replacing the file at [p]. *)
Definition write_file (p : path) (c : content) : M unit := λ st,
  (Ret tt, mkState (<[p := c]> (fs st)) (out st)).

(** [os.remove(p)] *)
Definition os_remove (p : path) : M unit := λ st,
  if path_exists (fs st) p
  then (Ret tt, mkState (delete p (fs st)) (out st))
  else (Raise FileNotFoundError, st).

(** How the process ends: the exit status and the final state. *)
Definition exit_status {A} (r : result A) : Z :=
  match r with
  | Ret _ => 0
  | Raise _ => 1
  | SysExit code => code
  end.

(** *** The program *)

Section Driver.
Variable w : world.

Definition record_timeline_w : list Segment → timeline :=
  record_timeline (w_isspace w) (w_synthesize w) (w_sample_rate w).

Definition safe_filename_w : string → nat → string :=
  safe_filename (w_isalnum w) (w_isspace w).

(** Opening the file at [p] with mutagen and saving it with the
    comments changed by [f]. *)
Definition save_ogg_tags (p : path) (f : comments → comments) : M unit :=
  files ← get_fs;
  match files !! p with
  | Some (OggFile frames samplerate tags) =>
      if w_mutagen_ok w p then write_file p (OggFile frames samplerate (f tags))
      else raise Exception
  | _ => raise Exception
  end.

Definition save_mp3_tags (p : path) (tags : id3) : M unit :=
  files ← get_fs;
  match files !! p with
  | Some (Mp3File frames _) =>
      if w_mutagen_ok w p then write_file p (Mp3File frames tags)
      else raise Exception
  | _ => raise Exception
  end.

(** [text_to_ogg]: load the voice, stream into the file, tag it. *)
Definition text_to_ogg (segments : list Segment) (output_file : path)
    (metadata : gmap string string) : M (list Marker) :=
  if negb (w_voice_loads w) then raise Exception else
  match w_engine_fault w output_file with
  | Some partial => write_file output_file partial;; raise Exception
  | None =>
      let tl := record_timeline_w segments in
      write_file output_file (OggFile (tl_frames tl) (w_sample_rate w) ∅);;
      try_except
        (save_ogg_tags output_file
           (write_ogg_tags (w_float_repr w) metadata (tl_markers tl)))
        (λ _, print MsgOggTagWarning);;
      print (MsgOggWritten output_file (tl_time tl));;
      mret (tl_markers tl)
  end.

(** [read_ogg_markers] on a path: anything that raises gives [None]. *)
Definition read_ogg_markers_at (ogg_path : path) : M (option (list Marker)) :=
  files ← get_fs;
  match files !! ogg_path with
  | Some (OggFile _ _ tags) => mret (read_ogg_markers (w_float_parse w) tags)
  | _ => mret None
  end.

Definition calculate_approximate_markers_at (segments : list Segment)
    (ogg_path : path) : M (list Marker) :=
  files ← get_fs;
  mret (calculate_approximate_markers segments
          match files !! ogg_path with
          | Some (OggFile frames samplerate _) =>
              Some (Z.of_nat (sum_list frames), samplerate)
          | _ => None
          end).

(** The [subprocess.run] call of [convert_ogg_to_mp3]. *)
Definition run_ffmpeg (ogg_path mp3_path : path) : M unit :=
  files ← get_fs;
  match w_ffmpeg w ogg_path mp3_path with
  | FfOk mp3 =>
      if path_exists files ogg_path then write_file mp3_path mp3
      else raise CalledProcessError
  | FfFailed (Some partial) => write_file mp3_path partial;; raise CalledProcessError
  | FfFailed None => raise CalledProcessError
  | FfNotFound => raise FileNotFoundError
  | FfOSError => raise Exception
  end.

Definition convert_ogg_to_mp3 (ogg_path mp3_path : path) (delete_ogg : bool)
    : M bool :=
  try_except
    (run_ffmpeg ogg_path mp3_path;;
     print (MsgMp3Converted mp3_path);;
     (if delete_ogg
      then os_remove ogg_path;; print (MsgOggDeleted ogg_path)
      else mret tt);;
     mret true)
    (λ e, match e with
          | CalledProcessError => print (MsgConversionError e);; mret false
          | FileNotFoundError => print (MsgConversionError e);; mret false
          | Exception => raise e
          end).

Definition write_mp3_chapter_tags (mp3_path : path) (markers : list Marker)
    (metadata : gmap string string) : M bool :=
  try_except
    (save_mp3_tags mp3_path (mp3_chapter_tags markers metadata);;
     print MsgMp3Tagged;;
     mret true)
    (λ _, print MsgMp3TagError;; mret false).

(** [synthesize_separate_chapter]; its streaming loop writes the
    buffers [text_to_ogg] writes for the one segment. *)
Definition synthesize_separate_chapter (chapter_title text_content : string)
    (output_path : path) (metadata : gmap string string)
    (convert_to_mp3 : bool) : M unit :=
  if negb (w_voice_loads w) then raise Exception else
  match w_engine_fault w output_path with
  | Some partial => write_file output_path partial;; raise Exception
  | None =>
      let tl := record_timeline_w [(chapter_title, text_content)] in
      write_file output_path (OggFile (tl_frames tl) (w_sample_rate w) ∅);;
      try_except
        (save_ogg_tags output_path (λ audio,
           <["artist" := [Py.get metadata "artist" "Piper TTS"]]>
             (<["title" := [chapter_title]]> audio)))
        (λ _, print MsgOggTagWarning);;
      if convert_to_mp3 then
        let mp3_path := with_suffix output_path ".mp3" in
        converted ← convert_ogg_to_mp3 output_path mp3_path true;
        if converted : bool then
          try_except
            (save_mp3_tags mp3_path
               (id3_add (TPE1 (Py.get metadata "artist" "Piper TTS"))
                  (id3_add (TIT2 chapter_title) []));;
             print MsgMp3Tagged)
            (λ _, print MsgMp3TagError)
        else mret tt
      else mret tt
  end.

(** Target of chapter [idx] next to the input file. *)
Definition chapter_ogg (input_path : path) (chapter_title : string)
    (idx : nat) : path :=
  chapter_path input_path (safe_filename_w chapter_title idx).

(** The body shared by the direct branch and the numeric selection:
    refuse an existing target, otherwise synthesize the chapter.  The
    result tells whether synthesis ran. *)
Definition single_chapter (input_path : path) (metadata : gmap string string)
    (mp3 : bool) (idx : Z) (seg : Segment) : M bool :=
  let '(chapter_title, text_content) := seg in
  let out_ogg := chapter_ogg input_path chapter_title (Z.to_nat idx) in
  let final_out := if mp3 then with_suffix out_ogg ".mp3" else out_ogg in
  final_exists ← exists_ final_out;
  if final_exists : bool then
    print (MsgOutputExists (name final_out));; mret false
  else
    synthesize_separate_chapter chapter_title text_content out_ogg metadata mp3;;
    mret true.

(** [segments[idx - 1]] *)
Definition segment_at (segments : list Segment) (idx : Z) : option Segment :=
  segments !! Z.to_nat (idx - 1).

Definition in_range (idx : Z) (num_chapters : nat) : bool :=
  (1 <=? idx)%Z && (idx <=? Z.of_nat num_chapters)%Z.

(** The [if isinstance(cli_chapters_value, int)] statement.  [None]:
    the function returned; [Some v]: control goes on with
    [cli_chapters_value = v]. *)
Definition direct_mode (segments : list Segment) (cli_chapters_value : Py.pyval)
    (input_path : path) (metadata : gmap string string) (mp3 : bool)
    : M (option Py.pyval) :=
  let num_chapters := length segments in
  if Py.isinstance_int cli_chapters_value then
    let idx := Py.int_value cli_chapters_value in
    if in_range idx num_chapters then
      match segment_at segments idx with
      | Some seg =>
          print (MsgDirectChapter idx seg.1);;
          single_chapter input_path metadata mp3 idx seg;;
          mret None
      | None => raise Exception     (* not reached: the index is in range *)
      end
    else
      print (MsgChapterNotFound idx num_chapters);;
      mret (Some (Py.PyBool true))
  else mret (Some cli_chapters_value).

(** One round of [for i, (title, text) in enumerate(segments, 1)] in
    the split branch. *)
Definition split_one (input_path : path) (metadata : gmap string string)
    (mp3 : bool) (i : nat) (seg : Segment) : M unit :=
  let '(chapter_title, text_content) := seg in
  let ogg_chapter_path := chapter_ogg input_path chapter_title i in
  let mp3_chapter_path := with_suffix ogg_chapter_path ".mp3" in
  let final_output := if mp3 then mp3_chapter_path else ogg_chapter_path in
  final_exists ← exists_ final_output;
  if final_exists : bool then
    print (MsgSkippingChapter chapter_title (name final_output))
  else
    try_except
      (synthesize_separate_chapter chapter_title text_content
         ogg_chapter_path metadata mp3)
      (λ _,
         print (MsgChapterError i chapter_title);;
         ogg_left ← exists_ ogg_chapter_path;
         (if ogg_left : bool then os_remove ogg_chapter_path else mret tt);;
         mp3_left ← exists_ mp3_chapter_path;
         (if mp3_left : bool then os_remove mp3_chapter_path else mret tt)).

Fixpoint split_all (input_path : path) (metadata : gmap string string)
    (mp3 : bool) (i : nat) (segments : list Segment) : M unit :=
  match segments with
  | [] => mret tt
  | seg :: rest =>
      split_one input_path metadata mp3 i seg;;
      split_all input_path metadata mp3 (S i) rest
  end.

(** The [if cli_chapters_value is True] block. *)
Definition interactive_mode (segments : list Segment) (input_path : path)
    (metadata : gmap string string) (mp3 : bool) : M unit :=
  let num_chapters := length segments in
  print (MsgInteractiveStarted num_chapters);;
  let selection := Py.lower (Py.strip (w_isspace w) (w_input w)) in
  if String.eqb selection "a" then
    print MsgCombining;;
    text_to_ogg segments (with_suffix input_path ".ogg") metadata;;
    (if mp3 then
       convert_ogg_to_mp3 (with_suffix input_path ".ogg")
         (with_suffix input_path ".mp3") true;; mret tt
     else mret tt);;
    print MsgCombinedFinished
  else if String.eqb selection "s" then
    print MsgSplitting;;
    split_all input_path metadata mp3 1 segments;;
    print MsgSplitFinished
  else if Py.isdigit selection then
    match Py.int_of_str (w_isspace w) selection with
    | None => raise Exception          (* [int(selection)] raised *)
    | Some idx =>
        if in_range idx num_chapters then
          match segment_at segments idx with
          | Some seg =>
              ran ← single_chapter input_path metadata mp3 idx seg;
              if ran : bool then print MsgSingleFinished else mret tt
          | None => raise Exception    (* not reached *)
          end
        else print (MsgChapterNotFound idx num_chapters)
    end
  else print MsgInvalidSelection.

Definition run_chapter_logic (segments : list Segment)
    (cli_chapters_value : Py.pyval) (input_path : path)
    (metadata : gmap string string) (mp3 : bool) : M unit :=
  after_direct ← direct_mode segments cli_chapters_value input_path metadata mp3;
  match after_direct with
  | None => mret tt
  | Some cli_chapters_value =>
      if Py.is_True cli_chapters_value
      then interactive_mode segments input_path metadata mp3
      else print MsgContinuingStandard
  end.

(** [os.path.exists(s)] *)
Definition os_path_exists (files : filesystem) (s : string) : bool :=
  Py.truthy s && path_exists files (w_Path w s).

(** "Normalize chapter argument robustly": the new [chapter_value] and
    [args.input_file]. *)
Definition normalize_chapters (files : filesystem) (chapters_raw : chapters_arg)
    (input_file : string) : Py.pyval * string :=
  match chapters_raw with
  | KValue raw =>
      match Py.int_of_str (w_isspace w) raw with
      | Some n => (Py.PyInt n, input_file)
      | None =>
          if os_path_exists files raw then
            if negb (os_path_exists files input_file)
            then (Py.PyBool true, raw)
            else (Py.PyBool true, input_file)
          else (Py.PyBool true, input_file)
      end
  | KBare => (Py.PyBool true, input_file)
  | KAbsent => (Py.PyBool false, input_file)
  end.

(** The dispatch on the extension; [None] for an unsupported one. *)
Definition extractor (ext : string)
    : option (path → option (list Segment * gmap string string)) :=
  if String.eqb ext ".txt" then Some (w_extract_txt w)
  else if String.eqb ext ".docx" || String.eqb ext ".odt"
  then Some (w_extract_document w)
  else if String.eqb ext ".epub" then Some (w_extract_epub w)
  else None.

(** [d.get(k) or fallback] *)
Definition get_or (d : gmap string string) (k fallback : string) : string :=
  match d !! k with
  | Some v => if Py.truthy v then v else fallback
  | None => fallback
  end.

(** The [try] block of [main], after the reuse test has fixed
    [markers] and [synthesize_needed]. *)
Definition synthesize_and_convert (segments : list Segment)
    (metadata : gmap string string) (mp3 : bool) (ogg_path mp3_path : path)
    (markers : list Marker) (synthesize_needed : bool) : M unit :=
  markers ← (if synthesize_needed
             then text_to_ogg segments ogg_path metadata
             else mret markers);
  if mp3 then
    converted ← convert_ogg_to_mp3 ogg_path mp3_path synthesize_needed;
    if converted : bool
    then write_mp3_chapter_tags mp3_path markers metadata;; mret tt
    else mret tt
  else mret tt.

(** The [except Exception] block of [main]. *)
Definition cleanup_after_error (mp3 : bool) (ogg_path mp3_path : path)
    (synthesize_needed : bool) : M unit :=
  print MsgCriticalError;;
  ogg_left ← exists_ ogg_path;
  (if ogg_left && synthesize_needed
   then os_remove ogg_path;; print MsgOggDeletedAfterError
   else mret tt);;
  mp3_left ← exists_ mp3_path;
  (if mp3_left && mp3
   then os_remove mp3_path;; print MsgMp3DeletedAfterError
   else mret tt);;
  sys_exit 1.

(** The reuse test at the head of the [try] block; nothing in it
    raises, so it is evaluated before the handler is installed. *)
Definition reuse_existing_ogg (segments : list Segment) (mp3 : bool)
    (ogg_path : path) : M (list Marker * bool) :=
  ogg_there ← exists_ ogg_path;
  if mp3 && ogg_there then
    print MsgReusingOgg;;
    read ← read_ogg_markers_at ogg_path;
    match read with
    | Some (m :: ms) => print MsgPreciseMarkers;; mret (m :: ms, false)
    | _ =>
        print MsgEstimatingMarkers;;
        markers ← calculate_approximate_markers_at segments ogg_path;
        mret (markers, false)
    end
  else mret ([], true).

(** Single-file synthesis: [main] from [final_output_path] on. *)
Definition standard_mode (segments : list Segment)
    (metadata : gmap string string) (mp3 : bool) (ogg_path mp3_path : path)
    : M unit :=
  let final_output_path := if mp3 then mp3_path else ogg_path in
  final_exists ← exists_ final_output_path;
  if final_exists : bool then
    print (MsgStopOutputExists final_output_path);;
    sys_exit 1
  else
    '(markers, synthesize_needed) ← reuse_existing_ogg segments mp3 ogg_path;
    try_except
      (synthesize_and_convert segments metadata mp3 ogg_path mp3_path
         markers synthesize_needed)
      (λ _, cleanup_after_error mp3 ogg_path mp3_path synthesize_needed).

(** The end of [main]: chapter mode when [args.chapters] is truthy,
    single-file synthesis otherwise. *)
Definition dispatch (segments : list Segment) (chapter_value : Py.pyval)
    (input_path : path) (metadata : gmap string string) (mp3 : bool)
    : M unit :=
  if Py.truthy_val chapter_value then
    run_chapter_logic segments chapter_value input_path metadata mp3
  else
    standard_mode segments metadata mp3
      (with_suffix input_path ".ogg") (with_suffix input_path ".mp3").

(** The dict [metadata] that [main] builds. *)
Definition book_metadata (extracted_metadata : gmap string string)
    (input_path : path) : gmap string string :=
  <["artist" := get_or extracted_metadata "artist" "Piper TTS"]>
    (<["title" := get_or extracted_metadata "title"
                    (w_get_title_from_path w input_path)]> ∅).

(** [main] after [parse_args]. *)
Definition main (args : arguments) : M unit :=
  files ← get_fs;
  let '(chapter_value, input_file) :=
    normalize_chapters files (a_chapters args) (a_input_file args) in
  let input_path := w_Path w input_file in
  input_exists ← exists_ input_path;
  if negb input_exists then
    print (MsgInputNotFound input_path);; sys_exit 1
  else
  match w_find_model_path w with
  | None => sys_exit 1
  | Some model_path =>
  if a_mp3 args && negb (w_check_ffmpeg_installed w) then sys_exit 1 else
  let ext := Py.lower (suffix input_path) in
  match extractor ext with
  | None => print (MsgUnsupportedExtension ext);; sys_exit 1
  | Some extract =>
  match extract input_path with
  | None => print MsgParsingError;; sys_exit 1
  | Some (segments, extracted_metadata) =>
  match segments with
  | [] => print MsgNoSegments;; sys_exit 0
  | _ =>
  let metadata := book_metadata extracted_metadata input_path in
  print (MsgUsingTitle (Py.get metadata "title" "") (Py.get metadata "artist" ""));;
  dispatch segments chapter_value input_path metadata (a_mp3 args)
  end end end end.

(** Running the program: exit status and final state. *)
Definition run_main (args : arguments) (st : state) : Z * state :=
  let '(r, st') := main args st in (exit_status r, st').

End Driver.

(** ** Test doubles

    Stand-ins for the collaborators, used to run the model on concrete
    inputs. *)

Module Doubles.

(** Whitespace among the first 256 code points. *)
Definition isspace (c : ascii) : bool :=
  let n := nat_of_ascii c in
  ((9 <=? n) && (n <=? 13) || (28 <=? n) && (n <=? 32)
   || (n =? 133) || (n =? 160))%nat.

(** Letters and digits of ASCII. *)
Definition isalnum (c : ascii) : bool :=
  let n := nat_of_ascii c in
  ((48 <=? n) && (n <=? 57) || (65 <=? n) && (n <=? 90)
   || (97 <=? n) && (n <=? 122))%nat.

(** A number printed as numerator, slash, denominator. *)
Definition ratio_repr (x : Q) : string :=
  NilZero.string_of_int (Z.to_int (Qnum x)) +:+ "/"
    +:+ NilZero.string_of_uint (Pos.to_uint (Qden x)).

Fixpoint split_slash (s : string) : option (string * string) :=
  match s with
  | EmptyString => None
  | String c s' =>
      if Ascii.eqb c "/" then Some (EmptyString, s')
      else (λ ab : string * string, (String c ab.1, ab.2)) <$> split_slash s'
  end.

Definition ratio_parse (s : string) : option Q :=
  match split_slash s with
  | Some (a, b) =>
      match NilZero.int_of_string a, NilZero.uint_of_string b with
      | Some n, Some d =>
          match Pos.of_uint d with
          | Npos p => Some (Z.of_int n # p)
          | N0 => None
          end
      | _, _ => None
      end
  | None => None
  end.

(** An engine that yields one buffer holding one second of audio per
    ten characters. *)
Definition engine (sample_rate : Z) (para : string) : list nat :=
  [Z.to_nat (Z.of_nat (String.length para) * sample_rate / 10)].

(** A text of [n] characters without a blank line. *)
Fixpoint filler (n : nat) : string :=
  match n with
  | O => EmptyString
  | S n => String "a" (filler n)
  end.

(** The segments of the end-to-end scenario. *)
Definition scenario : list Segment :=
  [("Intro", filler 50); ("Body", filler 200); ("Outro", filler 20)].

(** A file name cut at its last dot. *)
Fixpoint split_ext (s : string) : string * string :=
  match s with
  | EmptyString => (EmptyString, EmptyString)
  | String c r =>
      let '(st, sf) := split_ext r in
      match sf with
      | EmptyString =>
          if Ascii.eqb c "." then (EmptyString, s) else (String c st, EmptyString)
      | _ => (String c st, sf)
      end
  end.

Definition to_path (s : string) : path :=
  let '(st, sf) := split_ext s in mkPath "" st sf.

(** A world in which every collaborator works: the text extractor
    returns the scenario, the engine is the test engine, ffmpeg and
    mutagen succeed, and the user types [answer] at the prompt. *)
Definition demo_world (answer : string) : world := {|
  w_isalnum := isalnum;
  w_isspace := isspace;
  w_float_repr := ratio_repr;
  w_float_parse := ratio_parse;
  w_Path := to_path;
  w_find_model_path := Some "de_DE-thorsten-high.onnx";
  w_check_ffmpeg_installed := true;
  w_extract_txt := λ _, Some (scenario, ∅);
  w_extract_document := λ _, None;
  w_extract_epub := λ _, None;
  w_get_title_from_path := stem;
  w_voice_loads := true;
  w_sample_rate := 22050;
  w_synthesize := engine 22050;
  w_engine_fault := λ _, None;
  w_mutagen_ok := λ _, true;
  w_ffmpeg := λ _ _, FfOk (Mp3File [] []);
  w_input := answer
|}.

(** The same world with an engine that breaks down midway, leaving a
    partial file. *)
Definition broken_world : world :=
  let w := demo_world "" in
  mkWorld (w_isalnum w) (w_isspace w) (w_float_repr w) (w_float_parse w)
    (w_Path w) (w_find_model_path w) (w_check_ffmpeg_installed w)
    (w_extract_txt w) (w_extract_document w) (w_extract_epub w)
    (w_get_title_from_path w) (w_voice_loads w) (w_sample_rate w)
    (w_synthesize w) (λ _, Some (OggFile [100] 22050 ∅))
    (w_mutagen_ok w) (w_ffmpeg w) (w_input w).

(** The working world at a sample rate of 10 Hz, which keeps the sample
    counts small. *)
Definition small_world (answer : string) : world :=
  let w := demo_world answer in
  mkWorld (w_isalnum w) (w_isspace w) (w_float_repr w) (w_float_parse w)
    (w_Path w) (w_find_model_path w) (w_check_ffmpeg_installed w)
    (w_extract_txt w) (w_extract_document w) (w_extract_epub w)
    (w_get_title_from_path w) (w_voice_loads w) 10 (engine 10)
    (w_engine_fault w) (w_mutagen_ok w) (w_ffmpeg w) (w_input w).

(** File systems: the input alone; with the first chapter already
    synthesized; with the combined OGG of an earlier run. *)
Definition book : path := mkPath "" "book" ".txt".

Definition fs_input : filesystem := {[ book := OtherFile "text" ]}.

Definition fs_chapter_1 : filesystem :=
  <[mkPath "" "book_01_Intro" ".ogg" := OggFile [1] 22050 ∅]> fs_input.

Definition fs_ogg : filesystem :=
  <[mkPath "" "book" ".ogg" := OggFile [1] 22050 ∅]> fs_input.

Definition start (files : filesystem) : state := mkState files [].

End Doubles.

(** ** Vocabulary of the specification *)

(** Index [i] is in the store: both of its fields are. *)
Definition has_index (audio : comments) (i : nat) : Prop :=
  is_Some (audio !! time_key i) ∧ is_Some (audio !! title_key i).

(** The indices [0 .. n-1] are the maximal contiguous run from 0. *)
Definition contiguous_run (audio : comments) (n : nat) : Prop :=
  (∀ i, i < n → has_index audio i) ∧ ¬ has_index audio n.

(** The fields of index [i] decode to the marker [m]. *)
Definition marker_at (float_parse : string → option Q) (audio : comments)
    (i : nat) (m : Marker) : Prop :=
  ∃ t ts ss,
    audio !! time_key i = Some (t :: ts)
    ∧ float_parse t = Some (time_seconds m)
    ∧ audio !! title_key i = Some (title m :: ss).

(** What a finished loop of [read_ogg_markers] has seen from index [i]:
    markers up to a missing index, or markers up to a field that raised. *)
Definition loop_spec (float_parse : string → option Q) (audio : comments)
    (i : nat) (r : option (list Marker)) : Prop :=
  match r with
  | Some ms =>
      (∀ k m, ms !! k = Some m → read_step float_parse audio (i + k) = Next m)
      ∧ read_step float_parse audio (i + length ms) = Stop
  | None =>
      ∃ n, (∀ k, k < n → ∃ m, read_step float_parse audio (i + k) = Next m)
           ∧ read_step float_parse audio (i + n) = Raised
  end.

(** Offsets that never decrease, and offsets that increase, along a
    marker list. *)
Definition nondecreasing (ms : list Marker) : Prop :=
  ∀ i j mi mj, i < j → ms !! i = Some mi → ms !! j = Some mj →
    (time_seconds mi <= time_seconds mj)%Q.

Definition increasing (ms : list Marker) : Prop :=
  ∀ i j mi mj, i < j → ms !! i = Some mi → ms !! j = Some mj →
    (time_seconds mi < time_seconds mj)%Q.


(** The chapter entry of the marker at position [i] (from 0) of
    [markers]. *)
Definition projected (markers : list Marker) (i : nat) (m : Marker) : chap :=
  mkChap ("chp_" +:+ pretty (S i))
    (py_int_of_float (time_seconds m * 1000))
    match markers !! S i with
    | Some next => py_int_of_float (time_seconds next * 1000)
    | None => 0%Z
    end
    0 0 (title m).

(** The audio, in samples, the engine yields for a list of paragraphs,
    for a segment, and for a list of segments. *)
Definition samples_of (synthesize : string → list nat)
    (paragraphs : list string) : nat :=
  sum_list (map (λ para, sum_list (synthesize para)) paragraphs).

Definition segment_samples (isspace : ascii → bool)
    (synthesize : string → list nat) (seg : Segment) : nat :=
  samples_of synthesize (paragraphs_of isspace seg.2).

Definition audio_samples (isspace : ascii → bool)
    (synthesize : string → list nat) (segments : list Segment) : nat :=
  sum_list (map (segment_samples isspace synthesize) segments).

(** The hash key of the chapter frame with counter [j]. *)
Definition chapter_key (j : nat) : string := "CHAP:" +:+ "chp_" +:+ pretty j.

(** A character of a finished file name: kept by the pattern
    [[^\w\s\-]] and no whitespace. *)
Definition clean (isalnum isspace : ascii → bool) (c : ascii) : bool :=
  kept isalnum isspace c && negb (isspace c).

(** [main] passes its set-up (the input exists, a voice model is found,
    ffmpeg is there when needed, the extractor returns segments) and
    arrives at its final dispatch with these values. *)
Record reaches_dispatch (w : world) (args : arguments) (st : state)
    (segments : list Segment) (chapter_value : Py.pyval) (input_path : path)
    (metadata : gmap string string) : Prop := mkReaches {
  rd_normalize :
    ∃ input_file,
      normalize_chapters w (fs st) (a_chapters args) (a_input_file args)
        = (chapter_value, input_file)
      ∧ input_path = w_Path w input_file;
  rd_input_exists : path_exists (fs st) input_path = true;
  rd_model : is_Some (w_find_model_path w);
  rd_ffmpeg : a_mp3 args && negb (w_check_ffmpeg_installed w) = false;
  rd_extract :
    ∃ extract extracted_metadata,
      extractor w (Py.lower (suffix input_path)) = Some extract
      ∧ extract input_path = Some (segments, extracted_metadata)
      ∧ metadata = book_metadata w extracted_metadata input_path;
  rd_segments : segments ≠ []
}.

(** The final output of chapter [idx] with title [chapter_title]. *)
Definition chapter_final (w : world) (input_path : path) (mp3 : bool)
    (chapter_title : string) (idx : nat) : path :=
  let out_ogg := chapter_ogg w input_path chapter_title idx in
  if mp3 then with_suffix out_ogg ".mp3" else out_ogg.

(** ** The extractors *)

(** [re.split(r'\n{2,}', s)]: cut at every maximal run of two or more
    line feeds.  The result of the scan starts with the piece being
    read; [in_run] tells that the scan is inside a run that has already
    closed the piece before it. *)
Definition cons_head (c : ascii) (pieces : list string) : list string :=
  match pieces with
  | p :: ps => String c p :: ps
  | [] => [String c ""]
  end.

Fixpoint re_split_go (in_run : bool) (s : string) : list string :=
  match s with
  | EmptyString => [""]
  | String c s' =>
      if Ascii.eqb c Py.LF then
        if in_run then re_split_go true s'
        else
          match s' with
          | String c' _ =>
              if Ascii.eqb c' Py.LF then "" :: re_split_go true s'
              else cons_head c (re_split_go false s')
          | EmptyString => cons_head c (re_split_go false s')
          end
      else cons_head c (re_split_go false s')
  end.

Definition re_split_blank_lines (s : string) : list string :=
  re_split_go false s.

(** ["\n".join(l)] *)
Fixpoint join_lines (l : list string) : string :=
  match l with
  | [] => ""
  | [x] => x
  | x :: l' => x +:+ String Py.LF (join_lines l')
  end.

(** A paragraph of a document as the loops of
    [extract_segments_from_document] look at it: the name of its style
    ([""] without one) and its text. *)
Record paragraph := mkParagraph { style_name : string; p_text : string }.

(** The variables of those loops. *)
Record grouping := mkGrouping {
  g_segments : list Segment;
  current_title : option string;
  current_text : list string
}.

Section Extractors.
Variable isspace : ascii → bool.
(** The test on the style name that makes a paragraph a heading; the
    branches for .docx and .odt differ in nothing else. *)
Variable is_heading : string → bool.

(** [extract_segments_from_txt], on the text read from the file. *)
Definition extract_segments_from_txt (text : string)
    : list Segment * gmap string string :=
  let paragraphs :=
    Py.strip isspace
      <$> filter (λ p, Py.truthy (Py.strip isspace p) = true)
            (re_split_blank_lines text) in
  (imap (λ i p, ("Segment " +:+ pretty (S i), p)) paragraphs, ∅).

(** [current_title] and [current_text] as conditions. *)
Definition title_set (g : grouping) : bool :=
  match current_title g with Some t => Py.truthy t | None => false end.

Definition text_set (g : grouping) : bool :=
  match current_text g with [] => false | _ => true end.

(** [if current_title and current_text:
       segments.append((current_title, "\n".join(current_text).strip()))] *)
Definition flush (g : grouping) : list Segment :=
  if title_set g && text_set g
  then g_segments g
         ++ [(default "" (current_title g),
              Py.strip isspace (join_lines (current_text g)))]
  else g_segments g.

(** The body of [for p in doc.paragraphs]. *)
Definition group_step (g : grouping) (p : paragraph) : grouping :=
  let text := Py.strip isspace (p_text p) in
  if negb (Py.truthy text) then g
  else if is_heading (style_name p)
  then mkGrouping (flush g) (Some text) []
  else mkGrouping (g_segments g) (current_title g) (current_text g ++ [text]).

(** The two tests behind the loop. *)
Definition finish (file_stem : string) (g : grouping) : list Segment :=
  if title_set g && text_set g then flush g
  else
    match g_segments g with
    | [] =>
        if text_set g
        then [(file_stem, Py.strip isspace (join_lines (current_text g)))]
        else []
    | segments => segments
    end.

Definition group_paragraphs (file_stem : string)
    (paragraphs : list paragraph) : list Segment :=
  finish file_stem
    (fold_left group_step paragraphs (mkGrouping [] None [])).

(** [x or fallback] for a property that is [None] or a [str]. *)
Definition or_else (x : option string) (fallback : string) : string :=
  match x with
  | Some v => if Py.truthy v then v else fallback
  | None => fallback
  end.

(** The dict [metadata] at the [return]; [doc_title] and [doc_author]
    are what the document reports. *)
Definition document_metadata (file_stem : string)
    (doc_title doc_author : option string) : gmap string string :=
  <["author" := or_else doc_author "Unknown"]>
    (<["title" := or_else doc_title file_stem]> ∅).

(** [extract_segments_from_document] on an opened document; [None] is
    the [ValueError] for another extension. *)
Definition extract_segments_from_document (file_path : path)
    (paragraphs : list paragraph) (doc_title doc_author : option string)
    : option (list Segment * gmap string string) :=
  let ext := Py.lower (suffix file_path) in
  if String.eqb ext ".docx" || String.eqb ext ".odt"
  then Some (group_paragraphs (stem file_path) paragraphs,
             document_metadata (stem file_path) doc_title doc_author)
  else None.

End Extractors.

(** What the loops see of a list of paragraphs: the stripped texts that
    are not empty. *)
Definition texts_of (isspace : ascii → bool) (l : list paragraph)
    : list string :=
  filter (λ t, Py.truthy t = true) (Py.strip isspace ∘ p_text <$> l).

(** How a paragraph of a document counts in the loops: as text (no
    heading, or nothing left after [strip], which the loop skips) or as
    a heading. *)
Definition body_paragraph (isspace : ascii → bool)
    (is_heading : string → bool) (p : paragraph) : Prop :=
  is_heading (style_name p) = false
  ∨ Py.truthy (Py.strip isspace (p_text p)) = false.

Definition heading_paragraph (isspace : ascii → bool)
    (is_heading : string → bool) (p : paragraph) : Prop :=
  is_heading (style_name p) = true
  ∧ Py.truthy (Py.strip isspace (p_text p)) = true.

(** The segment a heading and the paragraphs under it give. *)
Definition closed (isspace : ascii → bool)
    (s : paragraph * list paragraph) : option Segment :=
  match texts_of isspace s.2 with
  | [] => None
  | ts => Some (Py.strip isspace (p_text s.1),
                Py.strip isspace (join_lines ts))
  end.

(** Two line feeds in a row somewhere in [s]. *)
Fixpoint has_blank_line (s : string) : bool :=
  match s with
  | String c1 s1 =>
      match s1 with
      | String c2 _ =>
          (Ascii.eqb c1 Py.LF && Ascii.eqb c2 Py.LF) || has_blank_line s1
      | EmptyString => false
      end
  | EmptyString => false
  end.

(** [find_model_path]: [voice_arg] is the value of the voice option,
    [candidates] the paths [model_dir / DEFAULT_MODEL_NAME] in the order
    of [SYSTEM_MODEL_DIRS]; [None] is [sys.exit(1)]. *)
Definition find_model_path (Path : string → path) (files : filesystem)
    (candidates : list path) (voice_arg : option string) : option path :=
  let defaults := list_find (λ p, path_exists files p = true) candidates in
  let from_defaults := snd <$> defaults in
  match voice_arg with
  | Some v =>
      if Py.truthy v then
        if path_exists files (Path v) then Some (Path v) else from_defaults
      else from_defaults
  | None => from_defaults
  end.

(** The heading test of the .docx branch:
    [style.startswith("Heading") or style.startswith("Ãœberschrift")].
    The second literal begins, in the file, with the two letters U+00C3
    and U+0153 before [berschrift]; it stands here in UTF-8, where a
    prefix test gives what it gives on the code points. *)
Definition docx_is_heading (style : string) : bool :=
  Py.startswith "Heading" style || Py.startswith "Ãœberschrift" style.

(** Inputs for the extractors and the codec. *)
Module Samples.

Definition NL : string := String Py.LF "".

(** Three paragraphs, the second of two lines, separated by three and by
    two line feeds. *)
Definition text : string :=
  "one" +:+ NL +:+ NL +:+ NL +:+ "  two " +:+ NL +:+ "lines"
    +:+ NL +:+ NL +:+ "three" +:+ NL.

(** A preface, a chapter of two paragraphs, and a heading followed by a
    paragraph whose style is the German heading style, which the test
    above does not take for a heading, and a last paragraph. *)
Definition preface : list paragraph := [mkParagraph "Normal" "Preface"].

Definition chapters : list (paragraph * list paragraph) :=
  [(mkParagraph "Heading 1" "First",
    [mkParagraph "Normal" " a "; mkParagraph "Normal" "   ";
     mkParagraph "Normal" "b"]);
   (mkParagraph "Heading 2" "Empty",
    [mkParagraph "Überschrift 1" "Last"; mkParagraph "" "z"])].

Definition document : list paragraph :=
  preface ++ flat_map (λ s, s.1 :: s.2) chapters.

(** [float(s)] on digits, a dot and digits, for a value a float holds
    exactly. *)
Fixpoint number (acc : Z) (s : string) : option Z :=
  match s with
  | EmptyString => Some acc
  | String c s' =>
      if Py.is_decimal c then number (10 * acc + Py.decimal_value c) s'
      else None
  end.

Fixpoint split_dot (s : string) : option (string * string) :=
  match s with
  | EmptyString => None
  | String c s' =>
      if Ascii.eqb c "." then Some (EmptyString, s')
      else (λ ab : string * string, (String c ab.1, ab.2)) <$> split_dot s'
  end.

Definition decimal_parse (s : string) : option Q :=
  match split_dot s with
  | Some (a, b) =>
      if Py.truthy a && Py.truthy b then
        match number 0 a, number 0 b with
        | Some n, Some f =>
            let scale := (10 ^ Z.of_nat (String.length b))%Z in
            Some (Qred (Qmake (n * scale + f) (Z.to_pos scale)))
        | _, _ => None
        end
      else None
  | None => None
  end.

(** A store of Vorbis comments with the indices 0, 1 and 3. *)
Definition store_0_1_3 : comments :=
  list_to_map
    [(time_key 0, ["0.5"]); (title_key 0, ["Intro"]);
     (time_key 1, ["5.5"]); (title_key 1, ["Body"]);
     (time_key 3, ["25.5"]); (title_key 3, ["Outro"])].

End Samples.

(** ** The program's arithmetic: binary64

    A Python [float] is an IEEE 754 binary64 number: 53 bits of
    precision, the exponent of the infinities 1024, every operation
    rounded to the nearest representable number, a tie to the one with
    an even last bit.  The definitions below repeat the recorder, the
    estimation and the projector with this arithmetic: where the clock
    of the program is a sum of rounded quotients, theirs is too. *)
Module Float64.

Definition float : Type := spec_float.

Definition prec : Z := 53.
Definition emax : Z := 1024.

(** [float(n)] of an [int]. *)
Definition of_int (n : Z) : float := binary_normalize prec emax n 0 false.

(** [x + y], [x - y], [x * y] and [x / y] on floats. *)
Definition add : float → float → float := SFadd prec emax.
Definition sub : float → float → float := SFsub prec emax.
Definition mul : float → float → float := SFmul prec emax.
Definition div : float → float → float := SFdiv prec emax.

(** [a / b] on two [int]s, [b] other than 0: the quotient, rounded once.
    For operands below 2^53, which [float] converts without rounding,
    that is the quotient of the conversions. *)
Definition truediv (a b : Z) : float := div (of_int a) (of_int b).

(** [x < y] and [x == y]. *)
Definition ltb : float → float → bool := SFltb.
Definition eqb : float → float → bool := SFeqb.

(** [0.0] *)
Definition zero : float := S754_zero false.

(** [int(x)]: truncation towards zero; [None] when it raises, on an
    infinity ([OverflowError]) and on a NaN ([ValueError]). *)
Definition to_int (x : float) : option Z :=
  match x with
  | S754_zero _ => Some 0%Z
  | S754_finite s m e =>
      Some (cond_Zopp s
              (if (0 <=? e)%Z then Z.pos m * 2 ^ e
               else Z.pos m / 2 ^ (- e)))%Z
  | S754_infinity _ | S754_nan => None
  end.

(** The number a finite float stands for. *)
Definition exact (x : float) : option Q :=
  match x with
  | S754_zero _ => Some 0%Q
  | S754_finite s m e =>
      Some (inject_Z (cond_Zopp s (Z.pos m)) * Qpower 2 e)%Q
  | S754_infinity _ | S754_nan => None
  end.

(** [max(0, x)]: [x] replaces the first candidate only when [x > 0]. *)
Definition max0 (x : float) : float := if ltb zero x then x else zero.

(** [SILENCE_PRE_SECONDS = 0.5] and [SILENCE_POST_SECONDS = 5.0]. *)
Definition SILENCE_PRE_SECONDS : float := truediv 1 2.
Definition SILENCE_POST_SECONDS : float := of_int 5.

(** *** The recorder *)

Record Marker := mkMarker { time_seconds : float; title : string }.

Record timeline := mkTimeline {
  tl_frames : list nat;
  tl_time : float;
  tl_markers : list Marker
}.

(** [generate_silence_array]: [int(duration_seconds * sample_rate)]
    samples. *)
Definition generate_silence_array (duration_seconds : float)
    (sample_rate : Z) : nat :=
  match to_int (mul duration_seconds (of_int sample_rate)) with
  | Some num_samples => Z.to_nat num_samples
  | None => 0%nat        (* not reached: the product is finite *)
  end.

Section Recorder.
Variable isspace : ascii → bool.
Variable synthesize : string → list nat.
(** [voice.config.sample_rate], an [int] other than 0. *)
Variable sample_rate : Z.

(** [f.write(buf)] *)
Definition f_write (len : nat) (tl : timeline) : timeline :=
  mkTimeline (tl_frames tl ++ [len]) (tl_time tl) (tl_markers tl).

(** [current_time_seconds += d] *)
Definition advance (d : float) (tl : timeline) : timeline :=
  mkTimeline (tl_frames tl) (add (tl_time tl) d) (tl_markers tl).

(** Body of [for chunk in voice.synthesize(para)]. *)
Definition write_chunk (tl : timeline) (len : nat) : timeline :=
  let tl := f_write len tl in
  let chunk_duration_seconds := truediv (Z.of_nat len) sample_rate in
  advance chunk_duration_seconds tl.

(** Body of [for para in paragraphs]. *)
Definition write_paragraph (tl : timeline) (para : string) : timeline :=
  fold_left write_chunk (synthesize para) tl.

(** Body of [for title, text_content in segments]. *)
Definition record_segment (tl : timeline) (seg : Segment) : timeline :=
  let '(seg_title, text_content) := seg in
  let tl := mkTimeline (tl_frames tl) (tl_time tl)
              (tl_markers tl ++ [mkMarker (tl_time tl) seg_title]) in
  fold_left write_paragraph (paragraphs_of isspace text_content) tl.

(** The [with sf.SoundFile(...) as f] block, entered with
    [current_time_seconds = 0.0]. *)
Definition record_timeline (segments : list Segment) : timeline :=
  let pre_silence_array :=
    generate_silence_array SILENCE_PRE_SECONDS sample_rate in
  let post_silence_array :=
    generate_silence_array SILENCE_POST_SECONDS sample_rate in
  let tl := mkTimeline [] zero [] in
  let tl := advance SILENCE_PRE_SECONDS (f_write pre_silence_array tl) in
  let tl := fold_left record_segment segments tl in
  advance SILENCE_POST_SECONDS (f_write post_silence_array tl).

End Recorder.

(** *** The estimation *)

(** The loop [for title, text_content in segments], entered with
    [current_time_seconds]. *)
Fixpoint approximate_loop (tts_duration : float) (total : nat)
    (current_time_seconds : float) (segments : list Segment) : list Marker :=
  match segments with
  | [] => []
  | (seg_title, text_content) :: rest =>
      let char_ratio :=
        truediv (Z.of_nat (String.length text_content)) (Z.of_nat total) in
      let segment_duration := mul tts_duration char_ratio in
      mkMarker current_time_seconds seg_title
        :: approximate_loop tts_duration total
             (add current_time_seconds segment_duration) rest
  end.

(** The function after its [try] block, from the duration it read. *)
Definition approximate_markers (segments : list Segment)
    (total_ogg_duration : float) : list Marker :=
  let fixed_silence_duration :=
    add SILENCE_PRE_SECONDS SILENCE_POST_SECONDS in
  let tts_duration := max0 (sub total_ogg_duration fixed_silence_duration) in
  if (total_chars segments =? 0)%nat || eqb tts_duration zero then []
  else approximate_loop tts_duration (total_chars segments)
         SILENCE_PRE_SECONDS segments.

(** [sound] is [(f.frames, f.samplerate)] of the opened file, [None] when
    opening it raised. *)
Definition calculate_approximate_markers (segments : list Segment)
    (sound : option (Z * Z)) : list Marker :=
  match sound with
  | None => []
  | Some (frames, samplerate) =>
      if (samplerate =? 0)%Z then []    (* [ZeroDivisionError], caught *)
      else approximate_markers segments (truediv frames samplerate)
  end.

(** *** The projector *)

(** A chapter frame as mutagen holds it.  [element_id] is a Latin-1
    text field: of the bytes the program passes it keeps [str()], the
    text [b'chp_1'] for the bytes [chp_1].  [sub_frames] are the frames
    nested in the chapter, none when the frame is made.  [subframes] is
    the attribute the program assigns the title to; it is no field of
    the frame, and nothing of it is saved. *)
Record chap := mkChap {
  element_id : string;
  start_time : Z;
  end_time : Z;
  start_offset : Z;
  end_offset : Z;
  sub_frames : list (string * string);
  subframes : list (string * string)
}.

Inductive frame :=
| TIT2 (text : string)
| TPE1 (text : string)
| CHAP (c : chap).

(** An ID3 tag is a dict from hash keys to frames, in insertion order. *)
Definition id3 : Type := list (string * frame).

Definition hash_key (f : frame) : string :=
  match f with
  | TIT2 _ => "TIT2"
  | TPE1 _ => "TPE1"
  | CHAP c => "CHAP:" +:+ element_id c
  end.

(** [tags[key] = f]: an existing key keeps its place. *)
Fixpoint id3_set (key : string) (f : frame) (tags : id3) : id3 :=
  match tags with
  | [] => [(key, f)]
  | (k, g) :: rest =>
      if String.eqb k key then (k, f) :: rest else (k, g) :: id3_set key f rest
  end.

(** [tags.add(f)] *)
Definition id3_add (f : frame) (tags : id3) : id3 := id3_set (hash_key f) f tags.

(** [str(f"chp_{n}".encode('latin-1'))] *)
Definition chapter_id (n : nat) : string := "b'chp_" +:+ pretty n +:+ "'".

(** [int(t * 1000)] *)
Definition milliseconds (t : float) : option Z := to_int (mul t (of_int 1000)).

(** The loop [for marker in markers]; [all_markers] is the list the loop
    indexes with [markers[chapter_frame_id]].  [None]: [int] raised. *)
Fixpoint chapter_loop (all_markers : list Marker) (chapter_frame_id : nat)
    (todo : list Marker) (tags : id3) : option id3 :=
  match todo with
  | [] => Some tags
  | marker :: rest =>
      let chapter_frame_id := S chapter_frame_id in
      start_ms ← milliseconds (time_seconds marker);
      end_ms ← (if (chapter_frame_id <? length all_markers)%nat then
                  match all_markers !! chapter_frame_id with
                  | Some next => milliseconds (time_seconds next)
                  | None => Some 0%Z   (* not reached: the index is in range *)
                  end
                else Some 0%Z);
      let c := mkChap (chapter_id chapter_frame_id) start_ms end_ms 0 0 []
                 [("TIT2", title marker)] in
      chapter_loop all_markers chapter_frame_id rest (id3_add (CHAP c) tags)
  end.

(** The tag [write_mp3_chapter_tags] builds before [audio.save];
    [None] when the loop raised, and nothing is saved. *)
Definition mp3_chapter_tags (markers : list Marker)
    (metadata : gmap string string) : option id3 :=
  let book_title := Py.get metadata "title" "Unknown Title" in
  let book_artist := Py.get metadata "artist" "Piper TTS" in
  let tags := id3_add (TIT2 book_title) [] in
  let tags := id3_add (TPE1 book_artist) tags in
  chapter_loop markers 0 markers tags.

(** The chapter frames of a tag, in order. *)
Definition chapters_of (tags : id3) : list chap :=
  omap (λ kf : string * frame,
          match kf.2 with CHAP c => Some c | _ => None end) tags.

(** *** Vocabulary *)

(** The chapter frame of the marker at position [i] (from 0), given the
    two offsets in milliseconds. *)
Definition projected (i : nat) (m : Marker) (start_ms end_ms : Z) : chap :=
  mkChap (chapter_id (S i)) start_ms end_ms 0 0 [] [("TIT2", title m)].


(** The engine yields the audio of [text] in one buffer, and in the
    program's arithmetic that buffer lasts a tenth of a second for every
    character. *)
Definition one_second_per_ten_chars (synthesize : string → list nat)
    (sample_rate : Z) (text : string) : Prop :=
  ∃ n, synthesize text = [n]
       ∧ truediv (Z.of_nat n) sample_rate
         = truediv (Z.of_nat (String.length text)) 10.

(** The share of the speech duration that goes to a text. *)
Definition share (tts_duration : float) (total : nat) (seg : Segment)
    : float :=
  mul tts_duration
    (truediv (Z.of_nat (String.length seg.2)) (Z.of_nat total)).

(** The running sum, from the left, of the shares of [segments] on top
    of [start]. *)
Definition running_sum (tts_duration : float) (total : nat) (start : float)
    (segments : list Segment) : float :=
  fold_left (λ t seg, add t (share tts_duration total seg)) segments start.

End Float64.
(** * Properties *)

(** ** Marker codec *)

Lemma time_key_inj i j : time_key i = time_key j → i = j.
Proof.
  unfold time_key. intros H. apply (inj (String.app _)) in H.
  by apply (inj pretty) in H.
Qed.

Lemma title_key_inj i j : title_key i = title_key j → i = j.
Proof.
  unfold title_key. intros H. apply (inj (String.app _)) in H.
  by apply (inj pretty) in H.
Qed.

Lemma time_key_title_key i j : time_key i ≠ title_key j.
Proof. unfold time_key, title_key. simpl. discriminate. Qed.

Lemma time_key_chapter i : Py.startswith "chapter_" (time_key i) = true.
Proof. reflexivity. Qed.

Lemma title_key_chapter i : Py.startswith "chapter_" (title_key i) = true.
Proof. reflexivity. Qed.

Lemma lookup_clear_marker_fields (audio : comments) k :
  clear_marker_fields audio !! k =
    if Py.startswith "chapter_" k then None else audio !! k.
Proof.
  unfold clear_marker_fields, keys_to_delete.
  destruct (Py.startswith "chapter_" k) eqn:Hk.
  - destruct (audio !! k) as [v|] eqn:Hv.
    + apply lookup_foldr_delete. apply list_elem_of_filter. split; [done|].
      apply list_elem_of_fmap. exists (k, v). split; [done|].
      by apply elem_of_map_to_list.
    + destruct (foldr delete audio _ !! k) eqn:Hf; [|done].
      apply lookup_foldr_delete_Some in Hf as [_ Hf]. congruence.
  - apply lookup_foldr_delete_not_elem_of.
    rewrite list_elem_of_filter. intros [Hp _]. congruence.
Qed.

(** Two keys built from indices differ. *)
Ltac key_ne :=
  let H := fresh in
  intros H;
  first [ apply time_key_inj in H; lia
        | apply title_key_inj in H; lia
        | by apply time_key_title_key in H
        | symmetry in H; by apply time_key_title_key in H ].

Section CodecFacts.
Variable float_repr : Q → string.
Variable float_parse : string → option Q.

(** *** The write loop, key by key *)

Lemma write_marker_fields_other markers : ∀ i (audio : comments) k,
  (∀ j, i ≤ j → k ≠ time_key j ∧ k ≠ title_key j) →
  write_marker_fields float_repr i markers audio !! k = audio !! k.
Proof.
  induction markers as [|m markers IH]; intros i audio k Hk; [done|].
  simpl. rewrite IH by (intros j Hj; apply Hk; lia).
  destruct (Hk i (le_n _)) as [H1 H2].
  by rewrite !lookup_insert_ne.
Qed.

Lemma write_marker_fields_before markers i (audio : comments) j :
  j < i →
  write_marker_fields float_repr i markers audio !! time_key j = audio !! time_key j
  ∧ write_marker_fields float_repr i markers audio !! title_key j = audio !! title_key j.
Proof.
  intros Hj. split; apply write_marker_fields_other; intros j' Hj';
    split; key_ne.
Qed.

Lemma write_marker_fields_at markers : ∀ i (audio : comments) k m,
  markers !! k = Some m →
  write_marker_fields float_repr i markers audio !! time_key (i + k)
    = Some [float_repr (time_seconds m)]
  ∧ write_marker_fields float_repr i markers audio !! title_key (i + k)
    = Some [title m].
Proof.
  induction markers as [|m0 markers IH]; intros i audio k m Hk; [done|].
  destruct k as [|k]; simpl in *.
  - injection Hk as ->. rewrite Nat.add_0_r.
    destruct (write_marker_fields_before markers (S i)
      (<[title_key i:=[title m]]>
         (<[time_key i:=[float_repr (time_seconds m)]]> audio)) i) as [-> ->];
      [lia|].
    rewrite lookup_insert_ne by key_ne.
    by rewrite !lookup_insert_eq.
  - replace (i + S k) with (S i + k) by lia. by apply IH.
Qed.

Lemma write_marker_fields_after markers : ∀ i (audio : comments) k,
  length markers ≤ k →
  write_marker_fields float_repr i markers audio !! time_key (i + k)
    = audio !! time_key (i + k).
Proof.
  induction markers as [|m0 markers IH]; intros i audio k Hk; [done|].
  simpl in *. destruct k as [|k]; [lia|].
  replace (i + S k) with (S i + k) by lia. rewrite IH by lia.
  by rewrite !lookup_insert_ne by key_ne.
Qed.

(** *** The read loop *)

(** More fuel never changes a result. *)
Lemma read_loop_mono fuel : ∀ fuel' (audio : comments) i r,
  fuel ≤ fuel' →
  read_loop float_parse fuel audio i = Some r → read_loop float_parse fuel' audio i = Some r.
Proof.
  induction fuel as [|fuel IH]; intros fuel' audio i r Hle H; [done|].
  destruct fuel' as [|fuel']; [lia|]. simpl in *.
  destruct (read_step float_parse audio i); try done.
  destruct (read_loop float_parse fuel audio (S i)) as [r'|] eqn:Hr;
    [|done].
  rewrite (IH fuel' audio (S i) r') by (done || lia). done.
Qed.

(** A marker is appended only for an index whose start-time key is in
    the store. *)
Lemma read_step_Next_dom (audio : comments) i m :
  read_step float_parse audio i = Next m → time_key i ∈ dom audio.
Proof.
  unfold read_step. intros H. apply elem_of_dom.
  destruct (audio !! time_key i); [eauto|done].
Qed.

Lemma read_loop_out_of_fuel fuel : ∀ (audio : comments) i,
  read_loop float_parse fuel audio i = None →
  ∀ k, k < fuel → time_key (i + k) ∈ dom audio.
Proof.
  induction fuel as [|fuel IH]; intros audio i H k Hk; [lia|].
  simpl in H. destruct (read_step float_parse audio i) as [| |m] eqn:Hs; try done.
  destruct k as [|k].
  - rewrite Nat.add_0_r. by eapply read_step_Next_dom.
  - replace (i + S k) with (S i + k) by lia. apply IH; [|lia].
    destruct (read_loop float_parse fuel audio (S i)) as [[?|]|];
      done.
Qed.

(** The loop of [read_ogg_markers float_parse] ends within the fuel it is given. *)
Lemma read_loop_total (audio : comments) :
  is_Some (read_loop float_parse (S (size audio)) audio 0).
Proof.
  destruct (read_loop float_parse (S (size audio)) audio 0) eqn:H; [eauto|exfalso].
  pose proof (read_loop_out_of_fuel _ _ _ H) as Hdom. simpl in Hdom.
  assert (list_to_set (time_key <$> seq 0 (S (size audio))) ⊆ dom audio)
    as Hsub.
  { intros k Hk. apply elem_of_list_to_set, list_elem_of_fmap in Hk
      as (j & -> & Hj). apply elem_of_seq in Hj. apply Hdom. lia. }
  apply subseteq_size in Hsub. rewrite size_dom in Hsub.
  rewrite size_list_to_set in Hsub.
  - rewrite length_fmap, length_seq in Hsub. lia.
  - apply NoDup_fmap_2_strong; [|apply NoDup_seq].
    intros ?? _ _. apply time_key_inj.
Qed.

Lemma read_loop_sound fuel : ∀ (audio : comments) i r,
  read_loop float_parse fuel audio i = Some r → loop_spec float_parse audio i r.
Proof.
  induction fuel as [|fuel IH]; intros audio i r H; [done|].
  simpl in H. destruct (read_step float_parse audio i) as [| |m] eqn:Hs.
  - injection H as <-. simpl. rewrite Nat.add_0_r. split; [|done].
    intros k m Hk. by rewrite lookup_nil in Hk.
  - injection H as <-. exists 0. rewrite Nat.add_0_r. split; [|done].
    intros k Hk. lia.
  - destruct (read_loop float_parse fuel audio (S i))
      as [r'|] eqn:Hr; [|done].
    apply IH in Hr. destruct r' as [ms|]; injection H as <-; simpl in *.
    + destruct Hr as [Hnext Hstop]. split.
      * intros [|k] m' Hk; simpl in Hk.
        -- injection Hk as <-. by rewrite Nat.add_0_r.
        -- replace (i + S k) with (S i + k) by lia. by apply Hnext.
      * by replace (i + S (length ms)) with (S i + length ms) by lia.
    + destruct Hr as (n & Hnext & Hraise). exists (S n). split.
      * intros [|k] Hk; [rewrite Nat.add_0_r; eauto|].
        replace (i + S k) with (S i + k) by lia. apply Hnext. lia.
      * by replace (i + S n) with (S i + n) by lia.
Qed.

Lemma read_loop_complete_Some ms : ∀ fuel (audio : comments) i,
  loop_spec float_parse audio i (Some ms) → length ms < fuel →
  read_loop float_parse fuel audio i = Some (Some ms).
Proof.
  induction ms as [|m ms IH]; intros fuel audio i [Hnext Hstop] Hfuel;
    (destruct fuel as [|fuel]; [lia|]); simpl in *.
  - rewrite Nat.add_0_r in Hstop. by rewrite Hstop.
  - rewrite <-(Nat.add_0_r i), (Hnext 0 m eq_refl), IH; [done| |lia].
    split.
    + intros k m' Hk. replace (S (i + 0) + k) with (i + S k) by lia.
      by apply Hnext.
    + by replace (S (i + 0) + length ms) with (i + S (length ms)) by lia.
Qed.

Lemma read_loop_complete_None n : ∀ fuel (audio : comments) i,
  (∀ k, k < n → ∃ m, read_step float_parse audio (i + k) = Next m) →
  read_step float_parse audio (i + n) = Raised → n < fuel →
  read_loop float_parse fuel audio i = Some None.
Proof.
  induction n as [|n IH]; intros fuel audio i Hnext Hraise Hfuel;
    (destruct fuel as [|fuel]; [lia|]); simpl.
  - rewrite Nat.add_0_r in Hraise. by rewrite Hraise.
  - destruct (Hnext 0) as [m Hm]; [lia|]. rewrite Nat.add_0_r in Hm.
    rewrite Hm, IH; [done| | |lia].
    + intros k Hk. replace (S i + k) with (i + S k) by lia.
      apply Hnext. lia.
    + by replace (S i + n) with (i + S n) by lia.
Qed.

(** What the loop of [read_ogg_markers float_parse] saw decides its result. *)
Lemma read_loop_decided (audio : comments) r :
  loop_spec float_parse audio 0 r → read_loop float_parse (S (size audio)) audio 0 = Some r.
Proof.
  intros Hr. destruct (read_loop_total audio) as [r' Hr'].
  rewrite Hr'. f_equal.
  assert (∃ fuel, read_loop float_parse fuel audio 0 = Some r) as [fuel Hfuel].
  { destruct r as [ms|].
    - exists (S (length ms)). apply read_loop_complete_Some; [done|lia].
    - destruct Hr as (n & Hnext & Hraise). exists (S n).
      by apply (read_loop_complete_None n); [..|lia]. }
  apply (read_loop_mono _ (fuel `max` S (size audio))) in Hfuel; [|lia].
  apply (read_loop_mono _ (fuel `max` S (size audio))) in Hr'; [|lia].
  congruence.
Qed.

Lemma read_ogg_markers_spec (audio : comments) :
  ∃ r, loop_spec float_parse audio 0 r
       ∧ read_ogg_markers float_parse audio
         = match r with Some (m :: ms) => Some (m :: ms) | _ => None end.
Proof.
  destruct (read_loop_total audio) as [r Hr]. exists r. split.
  - by eapply read_loop_sound.
  - unfold read_ogg_markers. by rewrite Hr.
Qed.

(** *** The loop body in the words of the specification *)

Lemma read_step_Stop (audio : comments) i :
  read_step float_parse audio i = Stop ↔ ¬ has_index audio i.
Proof.
  unfold read_step, has_index.
  destruct (audio !! time_key i) as [[|t ts]|], (audio !! title_key i) as [[|s ss]|];
    try destruct (float_parse t); split; try done;
    try (by intros H; exfalso; apply H; split; eauto);
    try (by intros _ [[? ?] [? ?]]).
Qed.

Lemma read_step_Next (audio : comments) i m :
  read_step float_parse audio i = Next m ↔ marker_at float_parse audio i m.
Proof.
  unfold read_step, marker_at. split.
  - destruct (audio !! time_key i) as [[|t ts]|]; try done;
      destruct (audio !! title_key i) as [[|s ss]|]; try done;
      destruct (float_parse t) as [x|] eqn:Hx; try done.
    intros [= <-]. exists t, ts, ss. done.
  - intros (t & ts & ss & -> & Ht & ->). rewrite Ht. by destruct m.
Qed.

Lemma marker_at_has_index (audio : comments) i m :
  marker_at float_parse audio i m → has_index audio i.
Proof. intros (t & ts & ss & Ht & _ & Hs). split; eauto. Qed.

Lemma read_step_Raised (audio : comments) i :
  read_step float_parse audio i = Raised
  ↔ has_index audio i ∧ ¬ ∃ m, marker_at float_parse audio i m.
Proof.
  destruct (read_step float_parse audio i) as [| |m] eqn:Hs.
  - apply read_step_Stop in Hs. split; [done|]. by intros [? _].
  - split; [intros _|done]. split.
    + apply dec_stable. intros Hn. apply read_step_Stop in Hn. congruence.
    + intros [m Hm]. apply read_step_Next in Hm. congruence.
  - apply read_step_Next in Hs. split; [done|]. intros [_ H]. destruct H; eauto.
Qed.

(** The first index that does not decode, below a bound. *)
Lemma first_failure (audio : comments) b :
  (∀ k, k < b → ∃ m, read_step float_parse audio k = Next m)
  ∨ ∃ j, j < b
         ∧ (∀ k, k < j → ∃ m, read_step float_parse audio k = Next m)
         ∧ ¬ ∃ m, read_step float_parse audio j = Next m.
Proof.
  induction b as [|b [IH|(j & Hj & Hbelow & Hfail)]].
  - left. intros k Hk. lia.
  - destruct (read_step float_parse audio b) as [| |m] eqn:Hs.
    + right. exists b. split_and!; [lia|done|]. intros [m Hm]. congruence.
    + right. exists b. split_and!; [lia|done|]. intros [m Hm]. congruence.
    + left. intros k Hk. destruct (decide (k = b)) as [->|]; [eauto|].
      apply IH. lia.
  - right. exists j. split_and!; [lia|done..].
Qed.

(** Every store has a maximal contiguous run. *)
Lemma contiguous_run_exists (audio : comments) : ∃ n, contiguous_run audio n.
Proof.
  destruct (read_ogg_markers_spec audio) as (r & Hr & _).
  assert (∃ n, (∀ k, k < n → has_index audio k)
               ∧ (¬ has_index audio n
                  ∨ read_step float_parse audio n = Raised))
    as (n & Hbelow & Hn).
  { destruct r as [ms|]; simpl in Hr.
    - destruct Hr as [Hnext Hstop]. exists (length ms). split.
      + intros k Hk. destruct (lookup_lt_is_Some_2 ms k Hk) as [m Hm].
        apply Hnext, read_step_Next in Hm. by eapply marker_at_has_index.
      + left. by apply read_step_Stop.
    - destruct Hr as (n & Hnext & Hraise). exists n. split; [|by right].
      intros k Hk. destruct (Hnext k Hk) as [m Hm].
      apply read_step_Next in Hm. by eapply marker_at_has_index. }
  clear r Hr.
  (* past a field that raised the run goes on, for at most as many
     indices as the store has keys *)
  assert (∀ fuel n, (∀ k, k < n → has_index audio k) →
            size audio < n + fuel → ∃ n', contiguous_run audio n') as Hgo.
  { clear. induction fuel as [|fuel IH]; intros n Hbelow Hsize.
    - exfalso.
      assert (list_to_set (time_key <$> seq 0 n) ⊆ dom audio) as Hsub.
      { intros k Hk. apply elem_of_list_to_set, list_elem_of_fmap in Hk
          as (j & -> & Hj). apply elem_of_seq in Hj. apply elem_of_dom.
        destruct (Hbelow j) as [Hj' _]; [lia|exact Hj']. }
      apply subseteq_size in Hsub. rewrite size_dom in Hsub.
      rewrite size_list_to_set in Hsub.
      + rewrite length_fmap, length_seq in Hsub. lia.
      + apply NoDup_fmap_2_strong; [|apply NoDup_seq].
        intros ?? _ _. apply time_key_inj.
    - destruct (decide (has_index audio n)) as [Hn|Hn].
      + apply (IH (S n)); [|lia]. intros k Hk.
        destruct (decide (k = n)) as [->|]; [done|]. apply Hbelow. lia.
      + exists n. by split. }
  apply (Hgo (S (size audio)) n Hbelow). lia.
Qed.

Lemma contiguous_run_unique (audio : comments) n n' :
  contiguous_run audio n → contiguous_run audio n' → n = n'.
Proof.
  intros [H1 E1] [H2 E2].
  destruct (decide (n < n')); [by destruct E1; apply H2|].
  destruct (decide (n' < n)); [by destruct E2; apply H1|]. lia.
Qed.

Lemma loop_spec_Some_iff (audio : comments) ms :
  loop_spec float_parse audio 0 (Some ms)
  ↔ contiguous_run audio (length ms)
    ∧ ∀ i m, ms !! i = Some m → marker_at float_parse audio i m.
Proof.
  simpl. split.
  - intros [Hnext Hstop]. split; [split|].
    + intros i Hi. destruct (lookup_lt_is_Some_2 ms i Hi) as [m Hm].
      apply Hnext, read_step_Next in Hm. by eapply marker_at_has_index.
    + by apply read_step_Stop.
    + intros i m Hm. by apply read_step_Next, Hnext.
  - intros [[_ Hstop] Hat]. split.
    + intros k m Hm. by apply read_step_Next, Hat.
    + by apply read_step_Stop.
Qed.

Lemma read_ogg_markers_of_run (audio : comments) ms :
  contiguous_run audio (length ms) →
  (∀ i m, ms !! i = Some m → marker_at float_parse audio i m) →
  read_ogg_markers float_parse audio
    = match ms with [] => None | _ => Some ms end.
Proof.
  intros Hrun Hat. unfold read_ogg_markers.
  rewrite (read_loop_decided audio (Some ms)); [by destruct ms|].
  by apply loop_spec_Some_iff.
Qed.

(** C4.  [read_ogg_markers] returns a marker list exactly
    when that list is non-empty and holds, index by index, the decoded
    fields of the maximal contiguous run of indices from 0; it returns
    [None] exactly when index 0 is incomplete or some index inside that
    run does not decode (its start time is not a number, or a value list
    is empty).  Whatever lies behind the first missing index is never
    looked at: with indices 0 and 1 decoding and index 2 missing, the
    result is the two markers of 0 and 1. *)
Theorem read_ogg_markers_prefix_run (audio : comments) :
  (∀ ms, read_ogg_markers float_parse audio = Some ms
         ↔ ms ≠ []
           ∧ contiguous_run audio (length ms)
           ∧ ∀ i m, ms !! i = Some m → marker_at float_parse audio i m)
  ∧ (read_ogg_markers float_parse audio = None
     ↔ contiguous_run audio 0
       ∨ ∃ n i, contiguous_run audio n ∧ i < n
                ∧ ¬ ∃ m, marker_at float_parse audio i m)
  ∧ (∀ m0 m1, marker_at float_parse audio 0 m0 →
              marker_at float_parse audio 1 m1 →
              ¬ has_index audio 2 →
              read_ogg_markers float_parse audio = Some [m0; m1]).
Proof.
  destruct (read_ogg_markers_spec audio) as (r & Hr & Hread).
  split_and!.
  - intros ms. split.
    + intros Hms. rewrite Hread in Hms.
      destruct r as [[|m r]|]; try done. injection Hms as <-.
      apply loop_spec_Some_iff in Hr as [Hrun Hat]. done.
    + intros (Hne & Hrun & Hat).
      rewrite (read_ogg_markers_of_run audio ms Hrun Hat). by destruct ms.
  - split.
    + intros Hnone. rewrite Hread in Hnone. destruct r as [[|m r]|]; try done.
      * left. apply loop_spec_Some_iff in Hr as [Hrun _]. done.
      * right. destruct Hr as (j & Hnext & Hraise). simpl in *.
        destruct (contiguous_run_exists audio) as [n Hn].
        apply read_step_Raised in Hraise as [Hj Hbad].
        exists n, j. split_and!; [done| |done].
        destruct Hn as [_ Hn]. destruct (decide (j < n)); [done|].
        assert (∀ k, k ≤ j → has_index audio k) as Hall.
        { intros k Hk. destruct (decide (k = j)) as [->|]; [done|].
          destruct (Hnext k) as [m Hm]; [lia|].
          apply read_step_Next in Hm. by eapply marker_at_has_index. }
        destruct Hn. apply Hall. lia.
    + intros [Hrun|(n & i & Hrun & Hi & Hbad)].
      * by rewrite (read_ogg_markers_of_run audio [] Hrun).
      * destruct (first_failure audio (S i)) as [Hok|(j & Hj & Hbelow & Hfail)].
        { destruct (Hok i) as [m Hm]; [lia|].
          destruct Hbad. exists m. by apply read_step_Next. }
        unfold read_ogg_markers.
        rewrite (read_loop_decided audio None); [done|].
        exists j. split; [done|]. apply read_step_Raised. split.
        -- apply Hrun. lia.
        -- intros [m Hm]. apply Hfail. exists m. by apply read_step_Next.
  - intros m0 m1 H0 H1 H2.
    apply (read_ogg_markers_of_run audio [m0; m1]).
    + split; [|done]. intros [|[|i]] Hi; [by eapply marker_at_has_index..|].
      simpl in Hi. lia.
    + intros [|[|i]] m Hm; simpl in Hm; by simplify_eq.
Qed.

Lemma write_ogg_tags_at (metadata : gmap string string)
    (markers : list Marker) (audio : comments) i m :
  markers !! i = Some m →
  write_ogg_tags float_repr metadata markers audio !! time_key i
    = Some [float_repr (time_seconds m)]
  ∧ write_ogg_tags float_repr metadata markers audio !! title_key i
    = Some [title m].
Proof.
  intros Hm. unfold write_ogg_tags.
  exact (write_marker_fields_at markers 0 _ i m Hm).
Qed.

Lemma write_ogg_tags_end (metadata : gmap string string)
    (markers : list Marker) (audio : comments) :
  write_ogg_tags float_repr metadata markers audio
    !! time_key (length markers) = None.
Proof.
  unfold write_ogg_tags.
  pose proof (write_marker_fields_after markers 0
    (clear_marker_fields
       (<["artist":=[Py.get metadata "artist" "Piper TTS"]]>
          (<["title":=[Py.get metadata "title" "Unknown Title"]]> audio)))
    (length markers) (le_n _)) as H.
  simpl in H. rewrite H.
  by rewrite lookup_clear_marker_fields, time_key_chapter.
Qed.

(** C1 (as amended).  Whatever the file held before, once the tagging
    block of [text_to_ogg] has written a non-empty marker list whose
    start times survive [str] and [float], [read_ogg_markers] returns
    that very list; after writing the empty list it returns [None]. *)
Theorem ogg_markers_roundtrip (metadata : gmap string string)
    (markers : list Marker) (audio : comments) :
  Forall (λ m, float_parse (float_repr (time_seconds m))
               = Some (time_seconds m)) markers →
  read_ogg_markers float_parse
    (write_ogg_tags float_repr metadata markers audio)
    = match markers with [] => None | _ => Some markers end.
Proof.
  intros Hparse. apply read_ogg_markers_of_run.
  - split.
    + intros i Hi. destruct (lookup_lt_is_Some_2 markers i Hi) as [m Hm].
      destruct (write_ogg_tags_at metadata markers audio i m Hm) as [Ht Hs].
      split; eauto.
    + intros [Ht _]. rewrite write_ogg_tags_end in Ht. by destruct Ht.
  - intros i m Hm.
    destruct (write_ogg_tags_at metadata markers audio i m Hm) as [Ht Hs].
    exists (float_repr (time_seconds m)), [], []. split_and!; [done| |done].
    rewrite Forall_lookup in Hparse. by apply (Hparse i).
Qed.
End CodecFacts.

(** ** Timeline recorder *)

Lemma strip_empty isspace : Py.strip isspace "" = "".
Proof. reflexivity. Qed.

Section RecorderFacts.
Variable isspace : ascii → bool.
Variable synthesize : string → list nat.
Variable sample_rate : Z.
Hypothesis sample_rate_pos : (0 < sample_rate)%Z.

Local Open Scope Q_scope.

Lemma chunk_duration_nonneg (len : nat) :
  0 <= py_truediv (Z.of_nat len) sample_rate.
Proof.
  unfold py_truediv. apply Qle_shift_div_l.
  - change 0 with (inject_Z 0). rewrite <-Zlt_Qlt. lia.
  - rewrite Qmult_0_l. change 0 with (inject_Z 0). rewrite <-Zle_Qle. lia.
Qed.

Lemma chunk_duration_pos (len : nat) :
  (0 < len)%nat → 0 < py_truediv (Z.of_nat len) sample_rate.
Proof.
  intros Hlen. unfold py_truediv. apply Qlt_shift_div_l.
  - change 0 with (inject_Z 0). rewrite <-Zlt_Qlt. lia.
  - rewrite Qmult_0_l. change 0 with (inject_Z 0). rewrite <-Zlt_Qlt. lia.
Qed.

Lemma sample_rate_nonzero : ¬ inject_Z sample_rate == 0.
Proof. unfold Qeq. simpl. lia. Qed.

(** Writing chunks leaves the markers alone and moves the clock
    forward by their durations. *)
Lemma write_chunks_spec chunks : ∀ tl,
  let tl' := fold_left (write_chunk sample_rate) chunks tl in
  tl_markers tl' = tl_markers tl
  ∧ tl_time tl' == tl_time tl
                   + py_truediv (Z.of_nat (sum_list chunks)) sample_rate.
Proof.
  induction chunks as [|len chunks IH]; intros tl; simpl.
  - split; [done|]. unfold py_truediv. simpl. field.
    apply sample_rate_nonzero.
  - destruct (IH (write_chunk sample_rate tl len)) as [-> ->].
    split; [done|]. simpl. unfold py_truediv.
    rewrite Nat2Z.inj_add, inject_Z_plus. field.
    apply sample_rate_nonzero.
Qed.

Lemma write_paragraph_spec tl para :
  let tl' := write_paragraph synthesize sample_rate tl para in
  tl_markers tl' = tl_markers tl
  ∧ tl_time tl' == tl_time tl
       + py_truediv (Z.of_nat (sum_list (synthesize para))) sample_rate.
Proof. apply write_chunks_spec. Qed.

Lemma write_paragraphs_spec paragraphs : ∀ tl,
  let tl' := fold_left (write_paragraph synthesize sample_rate) paragraphs tl in
  tl_markers tl' = tl_markers tl
  ∧ tl_time tl' == tl_time tl
       + py_truediv (Z.of_nat (samples_of synthesize paragraphs)) sample_rate.
Proof.
  induction paragraphs as [|para paragraphs IH]; intros tl; simpl.
  - split; [done|]. unfold samples_of, py_truediv. simpl. field.
    apply sample_rate_nonzero.
  - destruct (IH (write_paragraph synthesize sample_rate tl para)) as [-> ->].
    destruct (write_paragraph_spec tl para) as [-> ->].
    split; [done|]. unfold samples_of, py_truediv. simpl.
    rewrite Nat2Z.inj_add, inject_Z_plus. field.
    apply sample_rate_nonzero.
Qed.

(** One segment: its marker carries the clock at its start, and the
    clock moves on by the audio of its paragraphs. *)
Lemma record_segment_spec tl seg :
  let tl' := record_segment isspace synthesize sample_rate tl seg in
  tl_markers tl' = tl_markers tl ++ [mkMarker (tl_time tl) seg.1]
  ∧ tl_time tl' == tl_time tl
       + py_truediv (Z.of_nat (segment_samples isspace synthesize seg))
           sample_rate.
Proof.
  destruct seg as [seg_title text_content]. unfold record_segment.
  pose proof (write_paragraphs_spec (paragraphs_of isspace text_content)) as H.
  simpl in *. by destruct (H (mkTimeline (tl_frames tl) (tl_time tl)
    (tl_markers tl ++ [mkMarker (tl_time tl) seg_title]))) as [-> ->].
Qed.

Abbreviation seconds n := (py_truediv (Z.of_nat n) sample_rate).

Lemma seconds_add (a b : nat) : seconds (a + b) == seconds a + seconds b.
Proof.
  unfold py_truediv. rewrite Nat2Z.inj_add, inject_Z_plus. field.
  apply sample_rate_nonzero.
Qed.

Lemma seconds_le (a b : nat) : (a ≤ b)%nat → seconds a <= seconds b.
Proof.
  intros Hab. replace b with (a + (b - a))%nat by lia.
  rewrite seconds_add. pose proof (chunk_duration_nonneg (b - a)). lra.
Qed.

Lemma seconds_lt (a b : nat) : (a < b)%nat → seconds a < seconds b.
Proof.
  intros Hab. replace b with (a + (b - a))%nat by lia.
  rewrite seconds_add.
  pose proof (chunk_duration_pos (b - a) ltac:(lia)). lra.
Qed.

Lemma seconds_0 : seconds 0 == 0.
Proof. unfold py_truediv. simpl. field. apply sample_rate_nonzero. Qed.

Lemma audio_samples_cons seg segments :
  audio_samples isspace synthesize (seg :: segments)
  = (segment_samples isspace synthesize seg
     + audio_samples isspace synthesize segments)%nat.
Proof. reflexivity. Qed.

(** The loop over the segments: one marker per segment, each at the
    clock value reached by the audio of the segments before it. *)
Lemma record_segments_spec segments : ∀ tl,
  let tl' := fold_left (record_segment isspace synthesize sample_rate)
               segments tl in
  ∃ new,
    tl_markers tl' = tl_markers tl ++ new
    ∧ length new = length segments
    ∧ (∀ i m, new !! i = Some m →
         ∃ seg, segments !! i = Some seg ∧ title m = seg.1
           ∧ time_seconds m
             == tl_time tl
                + seconds (audio_samples isspace synthesize (take i segments)))
    ∧ tl_time tl'
      == tl_time tl + seconds (audio_samples isspace synthesize segments).
Proof.
  induction segments as [|seg segments IH]; intros tl; simpl.
  - exists []. rewrite app_nil_r. split_and!; [done..| |].
    + intros i m Hm. by rewrite lookup_nil in Hm.
    + change (audio_samples isspace synthesize []) with 0%nat.
      rewrite seconds_0. ring.
  - destruct (IH (record_segment isspace synthesize sample_rate tl seg))
      as (new & Hm & Hlen & Hat & Htime).
    destruct (record_segment_spec tl seg) as [Hm1 Ht1].
    exists (mkMarker (tl_time tl) seg.1 :: new). split_and!.
    + by rewrite Hm, Hm1, <-app_assoc.
    + simpl. by rewrite Hlen.
    + intros [|i] m Hi; simpl in Hi.
      * injection Hi as <-. exists seg. split_and!; [done..|]. simpl.
        change (audio_samples isspace synthesize []) with 0%nat.
        rewrite seconds_0. ring.
      * destruct (Hat i m Hi) as (seg' & Hseg & Htitle & Hsec).
        exists seg'. split_and!; [done..|]. simpl.
        rewrite audio_samples_cons, Hsec, Ht1, seconds_add. ring.
    + rewrite Htime, Ht1, audio_samples_cons, seconds_add. ring.
Qed.

(** The markers of a whole run and its total duration. *)
Lemma record_timeline_spec segments :
  let tl := record_timeline isspace synthesize sample_rate segments in
  length (tl_markers tl) = length segments
  ∧ (∀ i m, tl_markers tl !! i = Some m →
       ∃ seg, segments !! i = Some seg ∧ title m = seg.1
         ∧ time_seconds m
           == SILENCE_PRE_SECONDS
              + seconds (audio_samples isspace synthesize (take i segments)))
  ∧ tl_time tl
    == SILENCE_PRE_SECONDS
       + seconds (audio_samples isspace synthesize segments)
       + SILENCE_POST_SECONDS.
Proof.
  unfold record_timeline.
  destruct (record_segments_spec segments
    (advance SILENCE_PRE_SECONDS
       (f_write (generate_silence_array SILENCE_PRE_SECONDS sample_rate)
          (mkTimeline [] 0 []))))
    as (new & Hm & Hlen & Hat & Htime).
  simpl in *. rewrite Hm. split_and!; [done| |].
  - intros i m Hi. destruct (Hat i m Hi) as (seg & ? & ? & Hsec).
    exists seg. split_and!; [done..|]. rewrite Hsec. ring.
  - rewrite Htime. ring.
Qed.

(** *** Prefix sums of the audio *)

Lemma audio_samples_take_le segments : ∀ i j,
  (i ≤ j)%nat →
  (audio_samples isspace synthesize (take i segments)
   ≤ audio_samples isspace synthesize (take j segments))%nat.
Proof.
  unfold audio_samples.
  induction segments as [|seg segments IH]; intros i j Hij.
  - by rewrite !take_nil.
  - destruct i as [|i]; simpl; [lia|]. destruct j as [|j]; [lia|]. simpl.
    specialize (IH i j ltac:(lia)). lia.
Qed.

Lemma audio_samples_take_lt segments : ∀ i j seg,
  (i < j)%nat → segments !! i = Some seg →
  (0 < segment_samples isspace synthesize seg)%nat →
  (audio_samples isspace synthesize (take i segments)
   < audio_samples isspace synthesize (take j segments))%nat.
Proof.
  unfold audio_samples.
  induction segments as [|seg0 segments IH]; intros i j seg Hij Hseg Hpos;
    [done|].
  destruct j as [|j]; [lia|]. destruct i as [|i]; simpl in *.
  - injection Hseg as ->. lia.
  - specialize (IH i j seg ltac:(lia) Hseg Hpos). lia.
Qed.

(** *** What the engine is given *)

Lemma truthy_strip_nonempty p :
  Py.truthy (Py.strip isspace p) = true → p ≠ "".
Proof. by intros H ->. Qed.

(** The paragraphs of a non-empty text are non-empty, and there is at
    least one. *)
Lemma paragraphs_of_nonempty text_content :
  text_content ≠ "" →
  paragraphs_of isspace text_content ≠ []
  ∧ Forall (λ p, p ≠ "") (paragraphs_of isspace text_content).
Proof.
  intros Htext. unfold paragraphs_of.
  destruct (filter _ (Py.split_blank text_content)) as [|p ps] eqn:Hf.
  - split; [done|]. by constructor.
  - split; [done|]. rewrite <-Hf. apply Forall_forall. intros q Hq.
    apply list_elem_of_filter in Hq as [Hq _].
    by apply truthy_strip_nonempty.
Qed.

Lemma sum_list_pos (l : list nat) :
  Exists (λ len, 0 < len)%nat l → (0 < sum_list l)%nat.
Proof. induction 1; simpl; lia. Qed.

Lemma segment_samples_pos seg :
  (∀ s, s ≠ "" → Exists (λ len, 0 < len)%nat (synthesize s)) →
  seg.2 ≠ "" →
  (0 < segment_samples isspace synthesize seg)%nat.
Proof.
  intros Hengine Htext. unfold segment_samples, samples_of.
  destruct (paragraphs_of_nonempty seg.2 Htext) as [Hne Hall].
  destruct (paragraphs_of isspace seg.2) as [|p ps]; [done|].
  apply Forall_cons in Hall as [Hp _]. simpl.
  pose proof (sum_list_pos _ (Hengine p Hp)). lia.
Qed.

(** C2.  The recorder emits one marker per segment, in segment order
    and under the segment's title, with offsets that never decrease;
    when the engine yields a buffer of positive length for every
    non-empty text and no segment text is empty, the offsets increase
    strictly. *)
Theorem timeline_markers_monotone (segments : list Segment) :
  let ms := tl_markers (record_timeline isspace synthesize sample_rate segments) in
  title <$> ms = fst <$> segments
  ∧ length ms = length segments
  ∧ nondecreasing ms
  ∧ ((∀ s, s ≠ "" → Exists (λ len, 0 < len)%nat (synthesize s)) →
     Forall (λ seg : Segment, seg.2 ≠ "") segments →
     increasing ms).
Proof.
  destruct (record_timeline_spec segments) as (Hlen & Hat & _).
  cbv zeta. split_and!.
  - apply list_eq. intros i. rewrite !list_lookup_fmap.
    destruct (tl_markers _ !! i) as [m|] eqn:Hm; simpl.
    + destruct (Hat i m Hm) as (seg & Hseg & Htitle & _).
      unfold Segment in *. rewrite Hseg. simpl. by rewrite Htitle.
    + apply lookup_ge_None in Hm. rewrite Hlen in Hm.
      apply lookup_ge_None in Hm. unfold Segment in *. by rewrite Hm.
  - done.
  - intros i j mi mj Hij Hi Hj.
    destruct (Hat i mi Hi) as (segi & _ & _ & Hti).
    destruct (Hat j mj Hj) as (segj & _ & _ & Htj).
    pose proof (seconds_le _ _ (audio_samples_take_le segments i j ltac:(lia))).
    lra.
  - intros Hengine Htexts i j mi mj Hij Hi Hj.
    destruct (Hat i mi Hi) as (seg & Hseg & _ & Hti).
    destruct (Hat j mj Hj) as (segj & _ & _ & Htj).
    rewrite Forall_lookup in Htexts.
    pose proof (segment_samples_pos seg Hengine (Htexts i seg Hseg)) as Hpos.
    pose proof (seconds_lt _ _
      (audio_samples_take_lt segments i j seg Hij Hseg Hpos)).
    lra.
Qed.

(** A text without a blank-line boundary goes to the engine whole. *)
Lemma paragraphs_of_whole text_content :
  Py.split_blank text_content = [text_content] →
  paragraphs_of isspace text_content = [text_content].
Proof.
  intros H. unfold paragraphs_of. rewrite H. simpl.
  unfold filter, list_filter. by case_decide.
Qed.

End RecorderFacts.

Lemma engine_positive (s : string) :
  s ≠ "" → Exists (λ len, 0 < len) (Doubles.engine 22050 s).
Proof.
  intros Hs. constructor. destruct s as [|c s]; [done|].
  replace (Z.of_nat (String.length (String c s)) * 22050)%Z
    with (Z.of_nat (String.length (String c s)) * 2205 * 10)%Z by lia.
  rewrite Z.div_mul by lia. simpl. lia.
Qed.

Lemma timeline_markers_monotone_witness :
  increasing
    (tl_markers (record_timeline Doubles.isspace (Doubles.engine 22050) 22050
                   Doubles.scenario)).
Proof.
  apply (timeline_markers_monotone Doubles.isspace (Doubles.engine 22050) 22050).
  - lia.
  - apply engine_positive.
  - repeat constructor; discriminate.
Defined.

(** *** The codec on concrete stores *)

Lemma ogg_markers_roundtrip_witness :
  read_ogg_markers Doubles.ratio_parse
    (write_ogg_tags Doubles.ratio_repr ∅
       [mkMarker (1 # 2) "Intro"; mkMarker (11 # 2) "Body"]
       {[ "chapter_title_7" := ["stale"] ]})
  = Some [mkMarker (1 # 2) "Intro"; mkMarker (11 # 2) "Body"].
Proof.
  apply (ogg_markers_roundtrip Doubles.ratio_repr Doubles.ratio_parse ∅
           [mkMarker (1 # 2) "Intro"; mkMarker (11 # 2) "Body"]).
  repeat constructor.
Defined.

(** After writing no marker, reading gives [None], not the empty list. *)
Lemma roundtrip_of_no_marker :
  read_ogg_markers Doubles.ratio_parse
    (write_ogg_tags Doubles.ratio_repr ∅ [] ∅) ≠ Some [].
Proof. vm_compute. discriminate. Qed.

Lemma read_ogg_markers_prefix_run_witness :
  read_ogg_markers Samples.decimal_parse Samples.store_0_1_3
  = Some [mkMarker (1 # 2) "Intro"; mkMarker (11 # 2) "Body"].
Proof.
  apply (proj2 (proj2 (read_ogg_markers_prefix_run Samples.decimal_parse
                         Samples.store_0_1_3))).
  - by exists "0.5", [], [].
  - by exists "5.5", [], [].
  - intros [[v Hv] _]. vm_compute in Hv. discriminate Hv.
Defined.

(** ** Marker projector *)

Lemma id3_set_fresh key f (tags : id3) :
  key ∉ tags.*1 → id3_set key f tags = tags ++ [(key, f)].
Proof.
  induction tags as [|[k g] tags IH]; intros Hfresh; [done|].
  simpl in *. apply not_elem_of_cons in Hfresh as [Hne Hfresh].
  destruct (String.eqb k key) eqn:Hk.
  - apply String.eqb_eq in Hk. congruence.
  - by rewrite IH.
Qed.

Lemma chapter_key_inj i j : chapter_key i = chapter_key j → i = j.
Proof.
  unfold chapter_key. intros H.
  apply (inj (String.app _)), (inj (String.app _)) in H.
  by apply (inj pretty) in H.
Qed.

(** The entry the loop builds in the round whose counter becomes
    [S i]. *)
Lemma chapter_loop_spec all_markers : ∀ todo i (tags : id3),
  (∀ j, i < j → chapter_key j ∉ tags.*1) →
  chapter_loop all_markers i todo tags
  = tags ++ imap (λ k m, let c := projected all_markers (i + k) m in
                         (hash_key (CHAP c), CHAP c)) todo.
Proof.
  induction todo as [|m todo IH]; intros i tags Hfresh.
  - by rewrite app_nil_r.
  - cbn [chapter_loop imap].
    assert (mkChap ("chp_" +:+ pretty (S i))
              (py_int_of_float (time_seconds m * 1000))
              (if (S i <? length all_markers)%nat
               then match all_markers !! S i with
                    | Some next => py_int_of_float (time_seconds next * 1000)
                    | None => 0%Z
                    end
               else 0%Z) 0 0 (title m)
            = projected all_markers (i + 0) m) as ->.
    { unfold projected. rewrite Nat.add_0_r. f_equal.
      destruct (S i <? length all_markers)%nat eqn:Hlt; [done|].
      apply Nat.ltb_ge in Hlt. by rewrite (lookup_ge_None_2 _ _ Hlt). }
    unfold id3_add at 1. rewrite id3_set_fresh.
    + rewrite IH.
      * rewrite <-app_assoc. f_equal. simpl. f_equal.
        apply imap_ext. intros k m' _. unfold compose.
        by rewrite Nat.add_succ_r.
      * intros j Hj. rewrite fmap_app. apply not_elem_of_app. split.
        -- apply Hfresh. lia.
        -- simpl. rewrite Nat.add_0_r. intros Hin.
           apply list_elem_of_singleton, chapter_key_inj in Hin. lia.
    + simpl. rewrite Nat.add_0_r. apply (Hfresh (S i)). lia.
Qed.

Lemma chapters_of_app (a b : id3) :
  chapters_of (a ++ b) = chapters_of a ++ chapters_of b.
Proof. unfold chapters_of. apply omap_app. Qed.

Lemma chapters_of_imap (f : nat → Marker → chap) (ms : list Marker) :
  chapters_of (imap (λ k m, (hash_key (CHAP (f k m)), CHAP (f k m))) ms)
  = imap f ms.
Proof.
  revert f. induction ms as [|m ms IH]; intros f; [done|].
  simpl. unfold chapters_of in *. simpl. f_equal. apply (IH (f ∘ S)).
Qed.

(** The chapter frames of the tag are the projections of the markers,
    in marker order. *)
Lemma mp3_chapter_tags_chapters (markers : list Marker)
    (metadata : gmap string string) :
  chapters_of (mp3_chapter_tags markers metadata)
  = imap (projected markers) markers.
Proof.
  unfold mp3_chapter_tags. rewrite chapter_loop_spec.
  - rewrite chapters_of_app. simpl.
    exact (chapters_of_imap (projected markers) markers).
  - intros j _. simpl. unfold chapter_key.
    intros Hin. repeat (apply elem_of_cons in Hin as [Hin|Hin]; [done|]).
    by apply elem_of_nil in Hin.
Qed.

(** ** File name derivation *)

Section SafeFilenameFacts.
Variable isalnum : ascii → bool.
Variable isspace : ascii → bool.
(** The underscore is no whitespace. *)
Hypothesis underscore_not_space : isspace "_" = false.

Lemma all_chars_impl (p q : ascii → bool) s :
  (∀ c, p c = true → q c = true) →
  Py.all_chars p s = true → Py.all_chars q s = true.
Proof.
  intros Hpq. induction s as [|c s IH]; simpl; [done|].
  intros [Hc Hs]%andb_prop. by rewrite (Hpq c Hc), IH.
Qed.

Lemma str_filter_all p s : Py.all_chars p (str_filter p s) = true.
Proof.
  induction s as [|c s IH]; simpl; [done|].
  destruct (p c) eqn:Hc; simpl; [by rewrite Hc|done].
Qed.

Lemma lstrip_all p s :
  Py.all_chars p s = true → Py.all_chars p (Py.lstrip isspace s) = true.
Proof.
  induction s as [|c s IH]; simpl; [done|].
  intros [Hc Hs]%andb_prop. destruct (isspace c); [by apply IH|].
  simpl. by rewrite Hc, Hs.
Qed.

Lemma rstrip_all p s :
  Py.all_chars p s = true → Py.all_chars p (Py.rstrip isspace s) = true.
Proof.
  induction s as [|c s IH]; simpl; [done|].
  intros [Hc Hs]%andb_prop. specialize (IH Hs).
  destruct (Py.rstrip isspace s) as [|d r].
  - destruct (isspace c); simpl; [done|]. by rewrite Hc.
  - simpl in *. by rewrite Hc, IH.
Qed.

Lemma sub_spaces_clean s : ∀ in_run,
  Py.all_chars (kept isalnum isspace) s = true →
  Py.all_chars (clean isalnum isspace) (sub_spaces isspace in_run s) = true.
Proof.
  induction s as [|c s IH]; intros in_run; simpl; [done|].
  intros [Hc Hs]%andb_prop. destruct (isspace c) eqn:Hsp.
  - destruct in_run; [by apply IH|]. simpl. rewrite IH by done.
    unfold clean, kept, is_word. simpl.
    rewrite underscore_not_space. by rewrite orb_true_r.
  - simpl. rewrite IH by done. unfold clean. by rewrite Hc, Hsp.
Qed.

Lemma str_take_all p n : ∀ s,
  Py.all_chars p s = true → Py.all_chars p (str_take n s) = true.
Proof.
  induction n as [|n IH]; intros [|c s]; simpl; try done.
  intros [Hc Hs]%andb_prop. by rewrite Hc, IH.
Qed.

Lemma str_take_length n : ∀ s, String.length (str_take n s) ≤ n.
Proof.
  induction n as [|n IH]; intros [|c s]; simpl; try lia.
  specialize (IH s). lia.
Qed.

(** Every character of a derived name is a word character or a
    hyphen, none is whitespace, and there are at most 50. *)
Lemma safe_name_clean title :
  Py.all_chars (clean isalnum isspace) (safe_name isalnum isspace title) = true
  ∧ String.length (safe_name isalnum isspace title) ≤ 50.
Proof.
  unfold safe_name. split; [|apply str_take_length].
  apply str_take_all, sub_spaces_clean. unfold Py.strip.
  apply rstrip_all, lstrip_all, str_filter_all.
Qed.

(** *** A clean string passes every step unchanged *)

Lemma str_filter_id p s : Py.all_chars p s = true → str_filter p s = s.
Proof.
  induction s as [|c s IH]; simpl; [done|].
  intros [Hc Hs]%andb_prop. by rewrite Hc, IH.
Qed.

Lemma clean_kept c :
  clean isalnum isspace c = true → kept isalnum isspace c = true.
Proof. unfold clean. by intros [? _]%andb_prop. Qed.

Lemma clean_not_space c : clean isalnum isspace c = true → isspace c = false.
Proof. unfold clean. intros [_ H]%andb_prop. by apply negb_true_iff. Qed.

Lemma lstrip_id s :
  Py.all_chars (clean isalnum isspace) s = true → Py.lstrip isspace s = s.
Proof.
  destruct s as [|c s]; simpl; [done|].
  intros [Hc _]%andb_prop. by rewrite (clean_not_space c Hc).
Qed.

Lemma rstrip_id s :
  Py.all_chars (clean isalnum isspace) s = true → Py.rstrip isspace s = s.
Proof.
  induction s as [|c s IH]; simpl; [done|].
  intros [Hc Hs]%andb_prop. rewrite (IH Hs).
  destruct s; [by rewrite (clean_not_space c Hc)|done].
Qed.

Lemma sub_spaces_id s : ∀ in_run,
  Py.all_chars (clean isalnum isspace) s = true → sub_spaces isspace in_run s = s.
Proof.
  induction s as [|c s IH]; intros in_run; simpl; [done|].
  intros [Hc Hs]%andb_prop. by rewrite (clean_not_space c Hc), IH.
Qed.

Lemma str_take_id n : ∀ s, String.length s ≤ n → str_take n s = s.
Proof.
  induction n as [|n IH]; intros [|c s]; simpl; try done; try lia.
  intros Hlen. rewrite IH; [done|lia].
Qed.

Lemma safe_name_id s :
  Py.all_chars (clean isalnum isspace) s = true → String.length s ≤ 50 →
  safe_name isalnum isspace s = s.
Proof.
  intros Hclean Hlen. unfold safe_name, Py.strip.
  rewrite str_filter_id by (by eapply all_chars_impl; [apply clean_kept|]).
  by rewrite lstrip_id, rstrip_id, sub_spaces_id, str_take_id.
Qed.

(** C9 (as amended).  The sanitisation of the title (strip the
    characters outside the class, collapse whitespace, truncate to 50)
    is idempotent, so a title that is already a derived name gets the
    file name of the original title. *)
Theorem safe_name_idempotent (title : string) (counter : nat) :
  safe_name isalnum isspace (safe_name isalnum isspace title)
    = safe_name isalnum isspace title
  ∧ safe_filename isalnum isspace (safe_name isalnum isspace title) counter
    = safe_filename isalnum isspace title counter.
Proof.
  destruct (safe_name_clean title) as [Hclean Hlen].
  pose proof (safe_name_id _ Hclean Hlen) as Hid.
  split; [done|]. unfold safe_filename. by rewrite Hid.
Qed.
End SafeFilenameFacts.

Lemma safe_name_idempotent_witness :
  safe_name Doubles.isalnum Doubles.isspace
    (safe_name Doubles.isalnum Doubles.isspace "  Hello,  World! - x ")
  = safe_name Doubles.isalnum Doubles.isspace "  Hello,  World! - x ".
Proof.
  exact (proj1 (safe_name_idempotent Doubles.isalnum Doubles.isspace
                  eq_refl "  Hello,  World! - x " 1)).
Defined.

(** The whole derivation is not idempotent: the prefix is added again. *)
Lemma safe_filename_twice :
  safe_filename Doubles.isalnum Doubles.isspace
    (safe_filename Doubles.isalnum Doubles.isspace "a" 1) 1
  ≠ safe_filename Doubles.isalnum Doubles.isspace "a" 1.
Proof. vm_compute. discriminate. Qed.

(** ** The command driver *)

(** Unfolding the monad. *)
Ltac mrun :=
  unfold mbind, M_bind, mret, M_ret, print, exists_, get_fs, write_file,
    raise, sys_exit, try_except in *;
  cbn [fst snd fs out Py.is_True] in *.


Lemma isdigit_not_a_or_s s :
  Py.isdigit s = true → String.eqb s "a" = false ∧ String.eqb s "s" = false.
Proof.
  intros Hd. split; apply String.eqb_neq; intros ->; by vm_compute in Hd.
Qed.

Lemma in_range_truthy v n :
  in_range (Py.int_value v) n = true → Py.truthy_val v = true.
Proof.
  unfold in_range, Py.truthy_val. intros [H1 _]%andb_prop.
  apply Z.leb_le in H1. apply negb_true_iff, Z.eqb_neq. lia.
Qed.

Section DriverFacts.
Variable w : world.

(** [main] up to its final dispatch. *)
Lemma main_reaches args st segments chapter_value input_path metadata :
  reaches_dispatch w args st segments chapter_value input_path metadata →
  main w args st
  = (print (MsgUsingTitle (Py.get metadata "title" "")
              (Py.get metadata "artist" ""));;
     dispatch w segments chapter_value input_path metadata (a_mp3 args)) st.
Proof.
  intros [(input_file & Hnorm & ->) Hin [model Hmodel] Hff
            (extract & emd & Hext & Hseg & ->) Hne].
  unfold main. mrun. rewrite Hnorm. cbn. rewrite Hin. cbn.
  rewrite Hmodel, Hff, Hext, Hseg. by destruct segments.
Qed.

(** The shared body of the direct branch and of the numeric selection
    leaves an existing target alone. *)
Lemma single_chapter_existing input_path metadata mp3 idx seg st :
  path_exists (fs st)
    (chapter_final w input_path mp3 seg.1 (Z.to_nat idx)) = true →
  single_chapter w input_path metadata mp3 idx seg st
  = (Ret false,
     mkState (fs st)
       (out st ++ [MsgOutputExists
                     (name (chapter_final w input_path mp3 seg.1
                              (Z.to_nat idx)))])).
Proof.
  destruct seg as [chapter_title text_content]. unfold chapter_final.
  intros Hex. unfold single_chapter. mrun. cbn in Hex. by rewrite Hex.
Qed.

Lemma split_one_existing input_path metadata mp3 i seg st :
  path_exists (fs st) (chapter_final w input_path mp3 seg.1 i) = true →
  split_one w input_path metadata mp3 i seg st
  = (Ret tt,
     mkState (fs st)
       (out st ++ [MsgSkippingChapter seg.1
                     (name (chapter_final w input_path mp3 seg.1 i))])).
Proof.
  destruct seg as [chapter_title text_content]. unfold chapter_final.
  intros Hex. unfold split_one. mrun. cbn in Hex. by rewrite Hex.
Qed.

(** C5 (as amended).  When the final output of the target about to be
    synthesized exists, nothing is written: in single-file mode the
    program exits with status 1; in direct chapter mode and after a
    numeric selection at the prompt it prints a warning and ends
    normally, with status 0; in split mode the chapter is skipped and
    the loop goes on with the remaining chapters. *)
Theorem existing_output_is_kept args st segments chapter_value input_path
    metadata :
  reaches_dispatch w args st segments chapter_value input_path metadata →
  (Py.truthy_val chapter_value = false →
   path_exists (fs st)
     (if a_mp3 args then with_suffix input_path ".mp3"
      else with_suffix input_path ".ogg") = true →
   ∃ st', run_main w args st = (1%Z, st') ∧ fs st' = fs st)
  ∧ (∀ seg,
       in_range (Py.int_value chapter_value) (length segments) = true →
       segment_at segments (Py.int_value chapter_value) = Some seg →
       path_exists (fs st)
         (chapter_final w input_path (a_mp3 args) seg.1
            (Z.to_nat (Py.int_value chapter_value))) = true →
       ∃ st', run_main w args st = (0%Z, st') ∧ fs st' = fs st)
  ∧ (∀ idx seg,
       Py.truthy_val chapter_value = true →
       in_range (Py.int_value chapter_value) (length segments) = false →
       Py.isdigit (Py.lower (Py.strip (w_isspace w) (w_input w))) = true →
       Py.int_of_str (w_isspace w)
         (Py.lower (Py.strip (w_isspace w) (w_input w))) = Some idx →
       in_range idx (length segments) = true →
       segment_at segments idx = Some seg →
       path_exists (fs st)
         (chapter_final w input_path (a_mp3 args) seg.1 (Z.to_nat idx)) = true →
       ∃ st', run_main w args st = (0%Z, st') ∧ fs st' = fs st)
  ∧ (∀ i seg rest st0,
       path_exists (fs st0)
         (chapter_final w input_path (a_mp3 args) seg.1 i) = true →
       split_all w input_path metadata (a_mp3 args) i (seg :: rest) st0
       = split_all w input_path metadata (a_mp3 args) (S i) rest
           (mkState (fs st0)
              (out st0 ++ [MsgSkippingChapter seg.1
                 (name (chapter_final w input_path (a_mp3 args) seg.1 i))]))).
Proof.
  intros Hreach. unfold run_main. rewrite (main_reaches _ _ _ _ _ _ Hreach).
  split_and!.
  - intros Hfalsy Hex. unfold dispatch, standard_mode. mrun.
    rewrite Hfalsy. mrun. rewrite Hex. eauto.
  - intros seg Hrange Hseg Hex. unfold dispatch, run_chapter_logic, direct_mode.
    rewrite (in_range_truthy _ _ Hrange).
    unfold Py.isinstance_int. destruct chapter_value; mrun;
      rewrite Hrange, Hseg; mrun;
      rewrite single_chapter_existing by exact Hex; cbn; eauto.
  - intros idx seg Htruthy Hrange Hdigit Hint Hrange' Hseg Hex.
    destruct (isdigit_not_a_or_s _ Hdigit) as [Ha Hs].
    unfold dispatch, run_chapter_logic, direct_mode, interactive_mode.
    rewrite Htruthy. unfold Py.isinstance_int.
    destruct chapter_value; mrun; rewrite Hrange; mrun;
      rewrite Ha, Hs, Hdigit, Hint, Hrange', Hseg; mrun;
      rewrite single_chapter_existing by exact Hex; cbn; eauto.
  - intros i seg rest st0 Hex. cbn [split_all]. mrun.
    by rewrite split_one_existing by exact Hex.
Qed.
End DriverFacts.

Section ConversionFacts.
Variable w : world.

Lemma path_exists_true (files : filesystem) p :
  path_exists files p = true ↔ is_Some (files !! p).
Proof. unfold path_exists. apply bool_decide_eq_true. Qed.

Lemma path_exists_false (files : filesystem) p :
  path_exists files p = false ↔ files !! p = None.
Proof.
  unfold path_exists. rewrite bool_decide_eq_false.
  by rewrite eq_None_not_Some.
Qed.

(** [convert_ogg_to_mp3] reports a failed conversion by [False] and
    leaves the OGG file alone; it removes the OGG file only after a
    successful conversion and only when asked to. *)
Lemma convert_ogg_to_mp3_cases ogg_path mp3_path delete_ogg st :
  ogg_path ≠ mp3_path →
  ∃ r st', convert_ogg_to_mp3 w ogg_path mp3_path delete_ogg st = (r, st')
    ∧ (∀ p, p ≠ ogg_path → p ≠ mp3_path → fs st' !! p = fs st !! p)
    ∧ match r with
      | Ret true =>
          (∃ mp3, w_ffmpeg w ogg_path mp3_path = FfOk mp3
                  ∧ fs st' !! mp3_path = Some mp3)
          ∧ is_Some (fs st !! ogg_path)
          ∧ fs st' !! ogg_path
            = (if delete_ogg then None else fs st !! ogg_path)
      | Ret false => fs st' !! ogg_path = fs st !! ogg_path
      | Raise _ =>
          w_ffmpeg w ogg_path mp3_path = FfOSError ∧ fs st' = fs st
      | SysExit _ => False
      end.
Proof.
  intros Hne. unfold convert_ogg_to_mp3, run_ffmpeg, os_remove. mrun.
  destruct (w_ffmpeg w ogg_path mp3_path) as [mp3|[partial|]| |] eqn:Hff;
    mrun.
  - destruct (path_exists (fs st) ogg_path) eqn:Hex; mrun.
    + destruct delete_ogg; mrun.
      * assert (path_exists (<[mp3_path:=mp3]> (fs st)) ogg_path = true)
          as ->.
        { apply path_exists_true. rewrite lookup_insert_ne by done.
          by apply path_exists_true. }
        mrun. eexists _, _. split; [done|]. cbn. split_and!.
        -- intros p H1 H2. by rewrite lookup_delete_ne, lookup_insert_ne.
        -- exists mp3. split; [done|].
           by rewrite lookup_delete_ne, lookup_insert_eq.
        -- by apply path_exists_true.
        -- apply lookup_delete_eq.
      * eexists _, _. split; [done|]. cbn. split_and!.
        -- intros p H1 H2. by rewrite lookup_insert_ne.
        -- exists mp3. split; [done|]. by rewrite lookup_insert_eq.
        -- by apply path_exists_true.
        -- by rewrite lookup_insert_ne.
    + eexists _, _. split; [done|]. cbn. split; done.
  - eexists _, _. split; [done|]. cbn. split.
    + intros p H1 H2. by rewrite lookup_insert_ne.
    + by rewrite lookup_insert_ne.
  - eexists _, _. split; [done|]. cbn. split; done.
  - eexists _, _. split; [done|]. cbn. split; done.
  - eexists _, _. split; [done|]. cbn. split; done.
Qed.

(** [text_to_ogg] either returns the recorded markers, having written
    the whole file (tagged when mutagen works), or raises: before
    anything is written when the voice does not load, or leaving a
    partial file when the engine breaks down.  No other path is
    touched. *)
Lemma text_to_ogg_cases segments output_file metadata st :
  ∃ r st', text_to_ogg w segments output_file metadata st = (r, st')
    ∧ (∀ p, p ≠ output_file → fs st' !! p = fs st !! p)
    ∧ match r with
      | Ret ms =>
          w_voice_loads w = true
          ∧ w_engine_fault w output_file = None
          ∧ ms = tl_markers (record_timeline_w w segments)
          ∧ fs st' !! output_file
            = Some (OggFile (tl_frames (record_timeline_w w segments))
                      (w_sample_rate w)
                      (if w_mutagen_ok w output_file
                       then write_ogg_tags (w_float_repr w) metadata
                              (tl_markers (record_timeline_w w segments)) ∅
                       else ∅))
      | Raise _ =>
          (w_voice_loads w = false ∧ fs st' = fs st)
          ∨ (∃ partial, w_engine_fault w output_file = Some partial
                        ∧ fs st' !! output_file = Some partial)
      | SysExit _ => False
      end.
Proof.
  unfold text_to_ogg, save_ogg_tags.
  destruct (w_voice_loads w) eqn:Hvoice; cbn [negb]; mrun.
  - destruct (w_engine_fault w output_file) as [partial|] eqn:Hfault; mrun.
    + eexists _, _. split; [done|]. cbn. split.
      * intros p Hp. by rewrite lookup_insert_ne.
      * right. exists partial. by rewrite lookup_insert_eq.
    + rewrite lookup_insert_eq.
      destruct (w_mutagen_ok w output_file) eqn:Hmut; mrun;
        eexists _, _; (split; [done|]); cbn; split_and!; try done.
      * intros p Hp. by rewrite !lookup_insert_ne.
      * by rewrite lookup_insert_eq.
      * intros p Hp. by rewrite !lookup_insert_ne.
      * by rewrite lookup_insert_eq.
  - eexists _, _. split; [done|]. cbn. split; [done|]. by left.
Qed.




End ConversionFacts.

Section ChapterSelectionFacts.
Variable w : world.

(** C8 (the code at the failing inputs).  A bare [-k], and a [-k]
    value that is no integer, are normalised to [True]; since
    [isinstance(True, int)] holds and [True == 1], [run_chapter_logic]
    takes its direct branch with chapter 1 and never reaches the
    interactive block.  The value 0 is falsy, so [-k 0] leaves chapter
    mode altogether and runs the single-file synthesis. *)
Theorem chapter_flag_resolution :
  (∀ files input_file,
     normalize_chapters w files KBare input_file
     = (Py.PyBool true, input_file))
  ∧ (∀ files raw input_file,
       (normalize_chapters w files (KValue raw) input_file).1
       = match Py.int_of_str (w_isspace w) raw with
         | Some n => Py.PyInt n
         | None => Py.PyBool true
         end)
  ∧ (∀ seg rest input_path metadata mp3 st,
       dispatch w (seg :: rest) (Py.PyBool true) input_path metadata mp3 st
       = (print (MsgDirectChapter 1 seg.1);;
          single_chapter w input_path metadata mp3 1 seg;;
          mret tt) st)
  ∧ (∀ segments input_path metadata mp3,
       dispatch w segments (Py.PyInt 0) input_path metadata mp3
       = standard_mode w segments metadata mp3
           (with_suffix input_path ".ogg") (with_suffix input_path ".mp3")).
Proof.
  split_and!.
  - done.
  - intros files raw input_file. unfold normalize_chapters.
    destruct (Py.int_of_str (w_isspace w) raw); [done|].
    by repeat case_match.
  - intros seg rest input_path metadata mp3 st.
    assert (in_range 1 (length (seg :: rest)) = true) as Hrange.
    { unfold in_range. cbn [length]. apply andb_true_intro.
      split; apply Z.leb_le; lia. }
    unfold dispatch, run_chapter_logic, direct_mode.
    cbn [Py.truthy_val Py.int_value Py.isinstance_int Z.eqb negb].
    rewrite Hrange. change (segment_at (seg :: rest) 1) with (Some seg).
    mrun.
    match goal with
    | |- context [single_chapter ?a ?b ?c ?d ?e ?f ?g] =>
        by destruct (single_chapter a b c d e f g) as [[| |] ?]
    end.
  - done.
Qed.
End ChapterSelectionFacts.

(** *** The driver on the test world *)

Lemma demo_reaches files chapters mp3 answer chapter_value :
  files !! Doubles.book = Some (OtherFile "text") →
  normalize_chapters (Doubles.demo_world answer) files chapters "book.txt"
    = (chapter_value, "book.txt") →
  reaches_dispatch (Doubles.demo_world answer)
    (mkArgs "book.txt" mp3 chapters) (Doubles.start files)
    Doubles.scenario chapter_value Doubles.book
    (book_metadata (Doubles.demo_world answer) ∅ Doubles.book).
Proof.
  intros Hbook Hnorm. split.
  - by exists "book.txt".
  - apply bool_decide_eq_true. cbn. rewrite Hbook. eauto.
  - cbn. eauto.
  - cbn. by destruct mp3.
  - by eexists _, ∅.
  - done.
Qed.

Lemma existing_output_is_kept_witness :
  ∃ st',
    run_main (Doubles.demo_world "") (mkArgs "book.txt" false (KValue "1"))
      (Doubles.start Doubles.fs_chapter_1) = (0%Z, st')
    ∧ fs st' = Doubles.fs_chapter_1.
Proof.
  refine (proj1 (proj2 (existing_output_is_kept (Doubles.demo_world "")
            (mkArgs "book.txt" false (KValue "1"))
            (Doubles.start Doubles.fs_chapter_1)
            Doubles.scenario (Py.PyInt 1) Doubles.book _ _))
          ("Intro", Doubles.filler 50) _ _ _).
  - by apply demo_reaches.
  - reflexivity.
  - reflexivity.
  - reflexivity.
Defined.

(** With its target in place, direct chapter mode ends with status 0. *)
Lemma direct_chapter_existing_exits_0 :
  path_exists Doubles.fs_chapter_1
    (chapter_final (Doubles.demo_world "") Doubles.book false "Intro" 1) = true
  ∧ (run_main (Doubles.demo_world "") (mkArgs "book.txt" false (KValue "1"))
       (Doubles.start Doubles.fs_chapter_1)).1 = 0%Z.
Proof. split; reflexivity. Qed.


(** * Further properties of the program *)

(** ** The markers of a synthesized file *)

Section FileRoundTrip.
Variable w : world.


End FileRoundTrip.


(** ** What the recorder writes *)

Section TimelineLayout.
Variable isspace : ascii → bool.
Variable synthesize : string → list nat.
Variable sample_rate : Z.

Lemma write_chunks_frames chunks : ∀ tl,
  tl_frames (fold_left (write_chunk sample_rate) chunks tl)
  = tl_frames tl ++ chunks.
Proof.
  induction chunks as [|len chunks IH]; intros tl; cbn [fold_left].
  - by rewrite app_nil_r.
  - rewrite IH. cbn. by rewrite <-app_assoc.
Qed.

Lemma write_paragraphs_frames paragraphs : ∀ tl,
  tl_frames (fold_left (write_paragraph synthesize sample_rate) paragraphs tl)
  = tl_frames tl ++ concat (synthesize <$> paragraphs).
Proof.
  induction paragraphs as [|para paragraphs IH]; intros tl; cbn [fold_left].
  - by rewrite app_nil_r.
  - rewrite IH. unfold write_paragraph. rewrite write_chunks_frames.
    rewrite fmap_cons. cbn [concat]. by rewrite <-app_assoc.
Qed.

(** The buffers the engine yields for a segment, in order. *)
Lemma record_segments_frames segments : ∀ tl,
  tl_frames (fold_left (record_segment isspace synthesize sample_rate)
               segments tl)
  = tl_frames tl
    ++ concat ((λ seg : Segment,
                  concat (synthesize <$> paragraphs_of isspace seg.2))
               <$> segments).
Proof.
  induction segments as [|[seg_title text_content] segments IH]; intros tl;
    cbn [fold_left].
  - by rewrite app_nil_r.
  - rewrite IH. unfold record_segment. rewrite write_paragraphs_frames.
    rewrite fmap_cons. cbn [concat tl_frames snd]. by rewrite <-app_assoc.
Qed.

Lemma record_timeline_frames (segments : list Segment) :
  tl_frames (record_timeline isspace synthesize sample_rate segments)
  = generate_silence_array SILENCE_PRE_SECONDS sample_rate
    :: concat ((λ seg : Segment,
                  concat (synthesize <$> paragraphs_of isspace seg.2))
               <$> segments)
    ++ [generate_silence_array SILENCE_POST_SECONDS sample_rate].
Proof.
  unfold record_timeline. cbn [tl_frames advance f_write].
  rewrite record_segments_frames. cbn [tl_frames advance f_write app].
  done.
Qed.

Lemma silence_pre_samples :
  generate_silence_array SILENCE_PRE_SECONDS sample_rate
  = Z.to_nat (sample_rate ÷ 2).
Proof.
  unfold generate_silence_array, py_int_of_float, SILENCE_PRE_SECONDS.
  cbn [Qnum Qden Qmult inject_Z]. f_equal.
  by rewrite Z.mul_1_l.
Qed.

Lemma silence_post_samples :
  generate_silence_array SILENCE_POST_SECONDS sample_rate
  = Z.to_nat (5 * sample_rate).
Proof.
  unfold generate_silence_array, py_int_of_float, SILENCE_POST_SECONDS.
  cbn [Qnum Qden Qmult inject_Z]. f_equal.
  change (Z.pos (1 * 1)) with 1%Z. by rewrite Z.quot_1_r.
Qed.

(** X3.  The file receives exactly one lead-in silence, then every buffer
    the engine yields, segment by segment and paragraph by paragraph,
    then exactly one lead-out silence; the silences hold half a second
    and five seconds of samples. *)
Theorem timeline_frames_layout (segments : list Segment) :
  tl_frames (record_timeline isspace synthesize sample_rate segments)
  = generate_silence_array SILENCE_PRE_SECONDS sample_rate
    :: concat ((λ seg : Segment,
                  concat (synthesize <$> paragraphs_of isspace seg.2))
               <$> segments)
    ++ [generate_silence_array SILENCE_POST_SECONDS sample_rate]
  ∧ generate_silence_array SILENCE_PRE_SECONDS sample_rate
    = Z.to_nat (sample_rate ÷ 2)
  ∧ generate_silence_array SILENCE_POST_SECONDS sample_rate
    = Z.to_nat (5 * sample_rate).
Proof.
  split_and!;
    [apply record_timeline_frames|apply silence_pre_samples
    |apply silence_post_samples].
Qed.
End TimelineLayout.

(** ** The chapters of the MP3 file *)

Lemma py_int_of_float_floor (x : Q) :
  (0 <= x)%Q → py_int_of_float x = Qfloor x.
Proof.
  destruct x as [n d]. unfold py_int_of_float, Qfloor, Qle. cbn.
  intros Hn. apply Z.quot_div_nonneg; lia.
Qed.

Lemma py_int_of_float_mono (x y : Q) :
  (0 <= x)%Q → (x <= y)%Q → (py_int_of_float x ≤ py_int_of_float y)%Z.
Proof.
  intros Hx Hxy. rewrite !py_int_of_float_floor by lra.
  by apply Qfloor_resp_le.
Qed.

(** X7.  The chapters tile the file: every chapter ends where the next one
    starts, the last one has the open end 0, and for markers with
    offsets that are not negative and never decrease the chapter starts
    never decrease either. *)
Theorem chapters_tile (markers : list Marker) (metadata : gmap string string) :
  let cs := chapters_of (mp3_chapter_tags markers metadata) in
  (∀ i c c', cs !! i = Some c → cs !! S i = Some c' →
     end_time c = start_time c')
  ∧ (∀ c, last cs = Some c → end_time c = 0%Z)
  ∧ (nondecreasing markers →
     Forall (λ m, 0 <= time_seconds m)%Q markers →
     ∀ i j ci cj, i < j → cs !! i = Some ci → cs !! j = Some cj →
       (start_time ci ≤ start_time cj)%Z).
Proof.
  cbv zeta. rewrite mp3_chapter_tags_chapters. split_and!.
  - intros i c c' Hc Hc'. rewrite list_lookup_imap in Hc, Hc'.
    destruct (markers !! i) as [m|]; [|done].
    destruct (markers !! S i) as [m'|] eqn:Hm'; [|done].
    cbn in Hc, Hc'. injection Hc as <-. injection Hc' as <-. cbn.
    by rewrite Hm'.
  - intros c Hc. rewrite last_lookup, length_imap, list_lookup_imap in Hc.
    destruct (markers !! pred (length markers)) as [m|] eqn:Hm; [|done].
    cbn in Hc. injection Hc as <-. cbn.
    apply lookup_lt_Some in Hm as Hlt.
    rewrite (lookup_ge_None_2 markers (S (pred (length markers)))) by lia.
    done.
  - intros Hmono Hpos i j ci cj Hij Hi Hj.
    rewrite list_lookup_imap in Hi, Hj.
    destruct (markers !! i) as [mi|] eqn:Hmi; [|done].
    destruct (markers !! j) as [mj|] eqn:Hmj; [|done].
    cbn in Hi, Hj. injection Hi as <-. injection Hj as <-. cbn.
    rewrite Forall_lookup in Hpos.
    pose proof (Hpos i mi Hmi). pose proof (Hmono i j mi mj Hij Hmi Hmj).
    apply py_int_of_float_mono; lra.
Qed.

Lemma chapters_tile_witness :
  ∃ ci cj,
    chapters_of (mp3_chapter_tags
      [mkMarker (1 # 2) "Intro"; mkMarker (16 # 5) "Body"] ∅) !! 0%nat
    = Some ci
    ∧ chapters_of (mp3_chapter_tags
        [mkMarker (1 # 2) "Intro"; mkMarker (16 # 5) "Body"] ∅) !! 1%nat
      = Some cj
    ∧ (start_time ci ≤ start_time cj)%Z.
Proof.
  eexists _, _. split; [vm_compute; reflexivity|].
  split; [vm_compute; reflexivity|].
  eapply (proj2 (proj2 (chapters_tile
            [mkMarker (1 # 2) "Intro"; mkMarker (16 # 5) "Body"] ∅))
            _ _ 0%nat 1%nat); [lia|vm_compute; reflexivity..].
  Unshelve.
  - intros [|[|i]] [|[|j]] mi mj Hij Hi Hj; cbn in Hi, Hj; simplify_eq;
      try lia; cbn; unfold Qle; cbn; lia.
  - repeat constructor; unfold Qle; cbn; lia.
Defined.

(** ** The comments of a tagged file *)

Section OggTags.
Variable float_repr : Q → string.

Lemma write_marker_fields_untouched markers : ∀ i (audio : comments) k,
  (∀ j, i ≤ j < i + length markers → k ≠ time_key j ∧ k ≠ title_key j) →
  write_marker_fields float_repr i markers audio !! k = audio !! k.
Proof.
  induction markers as [|m markers IH]; intros i audio k Hk; [done|].
  cbn [write_marker_fields length] in *.
  rewrite IH by (intros j Hj; apply Hk; lia).
  destruct (Hk i ltac:(lia)) as [H1 H2].
  by rewrite !lookup_insert_ne.
Qed.

Lemma not_chapter_key k j :
  Py.startswith "chapter_" k = false → k ≠ time_key j ∧ k ≠ title_key j.
Proof.
  intros Hk. split; intros ->.
  - by rewrite time_key_chapter in Hk.
  - by rewrite title_key_chapter in Hk.
Qed.

(** X8.  Tagging sets the title and the artist of the book, keeps every
    other comment that is no chapter field, and leaves as chapter fields
    exactly the start-time and title fields of the markers written: no
    field of an earlier, longer marker list survives. *)
Theorem write_ogg_tags_frame (metadata : gmap string string)
    (markers : list Marker) (audio : comments) :
  let audio' := write_ogg_tags float_repr metadata markers audio in
  audio' !! "title" = Some [Py.get metadata "title" "Unknown Title"]
  ∧ audio' !! "artist" = Some [Py.get metadata "artist" "Piper TTS"]
  ∧ (∀ k, Py.startswith "chapter_" k = false → k ≠ "title" → k ≠ "artist" →
       audio' !! k = audio !! k)
  ∧ (∀ k, Py.startswith "chapter_" k = true → is_Some (audio' !! k) →
       ∃ i, i < length markers ∧ (k = time_key i ∨ k = title_key i)).
Proof.
  cbv zeta. unfold write_ogg_tags. split_and!.
  - rewrite write_marker_fields_untouched
      by (intros j _; by apply not_chapter_key).
    rewrite lookup_clear_marker_fields. cbn [Py.startswith String.prefix].
    by rewrite lookup_insert_ne, lookup_insert_eq.
  - rewrite write_marker_fields_untouched
      by (intros j _; by apply not_chapter_key).
    rewrite lookup_clear_marker_fields. cbn [Py.startswith String.prefix].
    by rewrite lookup_insert_eq.
  - intros k Hk Ht Ha.
    rewrite write_marker_fields_untouched
      by (intros j _; by apply not_chapter_key).
    rewrite lookup_clear_marker_fields, Hk.
    by rewrite !lookup_insert_ne.
  - intros k Hk Hsome.
    destruct (decide (k ∈ (time_key <$> seq 0 (length markers))
                          ++ (title_key <$> seq 0 (length markers))))
      as [Hin|Hout].
    + apply elem_of_app in Hin as [Hin|Hin];
        apply list_elem_of_fmap in Hin as (i & -> & Hi);
        apply elem_of_seq in Hi; exists i; split; auto; lia.
    + rewrite write_marker_fields_untouched in Hsome.
      * rewrite lookup_clear_marker_fields, Hk in Hsome. by destruct Hsome.
      * intros j Hj. split; intros ->; apply Hout, elem_of_app;
          [left|right]; apply list_elem_of_fmap; exists j;
          (split; [done|]); apply elem_of_seq; lia.
Qed.
End OggTags.

(** ** Failures before synthesis *)

Section SetupFailures.
Variable w : world.

(** X9.  A run that does not get as far as the dispatch (the input file is
    missing, no voice model is found, ffmpeg is missing for an MP3 run,
    the extension is not supported, the extractor fails or finds no
    segment) leaves the file system as it was; it ends with status 1,
    or with status 0 when the document holds no segment. *)
Theorem setup_failure_touches_nothing args st :
  (∃ segments chapter_value input_path metadata,
     reaches_dispatch w args st segments chapter_value input_path metadata)
  ∨ ∃ st',
      fs st' = fs st
      ∧ (run_main w args st = (1%Z, st')
         ∨ run_main w args st = (0%Z, st')
           ∧ ∃ extract extracted_metadata input_path,
               extractor w (Py.lower (suffix input_path)) = Some extract
               ∧ extract input_path = Some ([], extracted_metadata)).
Proof.
  unfold run_main, main. mrun.
  destruct (normalize_chapters w (fs st) (a_chapters args) (a_input_file args))
    as [chapter_value input_file] eqn:Hnorm.
  destruct (path_exists (fs st) (w_Path w input_file)) eqn:Hin; cbn [negb];
    mrun; [|right; eexists; split; [|by left]; done].
  destruct (w_find_model_path w) as [model|] eqn:Hmodel;
    [|right; eexists; split; [|by left]; done].
  destruct (a_mp3 args && negb (w_check_ffmpeg_installed w)) eqn:Hff;
    [right; eexists; split; [|by left]; done|].
  destruct (extractor w (Py.lower (suffix (w_Path w input_file))))
    as [extract|] eqn:Hext; mrun;
    [|right; eexists; split; [|by left]; done].
  destruct (extract (w_Path w input_file)) as [[segments emd]|] eqn:Hseg;
    mrun; [|right; eexists; split; [|by left]; done].
  destruct segments as [|seg segments]; mrun.
  - right. eexists. split; [|right; split; [done|]].
    + done.
    + by exists extract, emd, (w_Path w input_file).
  - left. exists (seg :: segments), chapter_value, (w_Path w input_file),
      (book_metadata w emd (w_Path w input_file)).
    split; [by exists input_file|done|eauto|done|by exists extract, emd|done].
Qed.
End SetupFailures.

(** ** Chapter mode *)

Section ChapterMode.
Variable w : world.

(** X10.  An integer [-k n] with [1 <= n <= len(segments)] synthesizes
    chapter [n] and nothing else; any other integer but 0 prints the
    "not found" warning and opens the interactive prompt. *)
Theorem integer_flag_dispatch segments n input_path metadata mp3 st :
  n ≠ 0%Z →
  (in_range n (length segments) = true →
   ∃ seg, segment_at segments n = Some seg
     ∧ dispatch w segments (Py.PyInt n) input_path metadata mp3 st
       = (print (MsgDirectChapter n seg.1);;
          single_chapter w input_path metadata mp3 n seg;;
          mret tt) st)
  ∧ (in_range n (length segments) = false →
     dispatch w segments (Py.PyInt n) input_path metadata mp3 st
     = (print (MsgChapterNotFound n (length segments));;
        interactive_mode w segments input_path metadata mp3) st).
Proof.
  intros Hn.
  assert (Py.truthy_val (Py.PyInt n) = true) as Htruthy.
  { unfold Py.truthy_val. cbn. by apply negb_true_iff, Z.eqb_neq. }
  unfold dispatch, run_chapter_logic, direct_mode. rewrite Htruthy.
  cbn [Py.isinstance_int Py.int_value]. split; intros Hrange; rewrite Hrange.
  - assert (is_Some (segment_at segments n)) as [seg Hseg].
    { unfold in_range in Hrange. apply andb_prop in Hrange as [H1 H2].
      apply Z.leb_le in H1, H2. unfold segment_at.
      apply lookup_lt_is_Some_2. lia. }
    exists seg. split; [done|]. rewrite Hseg. mrun.
    match goal with
    | |- context [single_chapter ?a ?b ?c ?d ?e ?f ?g] =>
        by destruct (single_chapter a b c d e f g) as [[| |] ?]
    end.
  - by mrun.
Qed.

(** X11.  At the prompt, an answer that is neither [a], [s] nor a number,
    and a number of no chapter, have no effect on the file system: the
    program prints a message and ends normally. *)
Theorem rejected_selection_has_no_effect segments input_path metadata mp3 st :
  let selection := Py.lower (Py.strip (w_isspace w) (w_input w)) in
  selection ≠ "a" → selection ≠ "s" →
  (Py.isdigit selection = true →
   ∃ idx, Py.int_of_str (w_isspace w) selection = Some idx
          ∧ in_range idx (length segments) = false) →
  ∃ st',
    interactive_mode w segments input_path metadata mp3 st = (Ret tt, st')
    ∧ fs st' = fs st.
Proof.
  intros selection Ha Hs Hdigit. unfold interactive_mode. fold selection.
  apply String.eqb_neq in Ha, Hs. mrun. rewrite Ha, Hs.
  destruct (Py.isdigit selection) eqn:Hd; mrun; [|by eexists].
  destruct (Hdigit eq_refl) as (idx & -> & ->). mrun. by eexists.
Qed.

(** X12.  The "all chapters in one file" answer synthesizes into the
    combined OGG path without looking whether a file is there: whatever
    the path held is replaced by the new recording. *)
Theorem combine_replaces_existing_ogg segments input_path metadata st :
  Py.lower (Py.strip (w_isspace w) (w_input w)) = "a" →
  w_voice_loads w = true →
  w_engine_fault w (with_suffix input_path ".ogg") = None →
  ∃ st' tags,
    interactive_mode w segments input_path metadata false st = (Ret tt, st')
    ∧ fs st' !! with_suffix input_path ".ogg"
      = Some (OggFile (tl_frames (record_timeline_w w segments))
                (w_sample_rate w) tags).
Proof.
  intros Hsel Hvoice Hfault. unfold interactive_mode. rewrite Hsel.
  cbn [String.eqb Ascii.eqb Bool.eqb andb]. mrun.
  destruct (text_to_ogg_cases w segments (with_suffix input_path ".ogg")
              metadata
              (mkState (fs st)
                 ((out st ++ [MsgInteractiveStarted (length segments)])
                  ++ [MsgCombining])))
    as (r & st2 & Hrun & _ & Hcases).
  rewrite Hrun. destruct r as [ms|e|code]; [| |done].
  - destruct Hcases as (_ & _ & _ & Hfile). mrun. eexists _, _. split; [done|].
    cbn. exact Hfile.
  - destruct Hcases as [[Hv _]|(partial & Hf & _)]; congruence.
Qed.
End ChapterMode.

Lemma integer_flag_dispatch_witness :
  dispatch (Doubles.demo_world "") Doubles.scenario (Py.PyInt 7)
    Doubles.book ∅ false (Doubles.start Doubles.fs_input)
  = (print (MsgChapterNotFound 7 3);;
     interactive_mode (Doubles.demo_world "") Doubles.scenario Doubles.book
       ∅ false) (Doubles.start Doubles.fs_input).
Proof.
  apply (integer_flag_dispatch (Doubles.demo_world "") Doubles.scenario 7).
  - discriminate.
  - reflexivity.
Defined.

Lemma rejected_selection_has_no_effect_witness :
  ∃ st',
    interactive_mode (Doubles.demo_world "x") Doubles.scenario Doubles.book
      ∅ true (Doubles.start Doubles.fs_input) = (Ret tt, st')
    ∧ fs st' = Doubles.fs_input.
Proof.
  apply (rejected_selection_has_no_effect (Doubles.demo_world "x")).
  - discriminate.
  - discriminate.
  - discriminate.
Defined.

Lemma combine_replaces_existing_ogg_witness :
  ∃ st' tags,
    interactive_mode (Doubles.small_world "a") Doubles.scenario Doubles.book
      ∅ false (Doubles.start Doubles.fs_ogg) = (Ret tt, st')
    ∧ fs st' !! with_suffix Doubles.book ".ogg"
      = Some (OggFile
                (tl_frames (record_timeline_w (Doubles.small_world "a")
                              Doubles.scenario)) 10 tags).
Proof.
  apply (combine_replaces_existing_ogg (Doubles.small_world "a")).
  - reflexivity.
  - reflexivity.
  - reflexivity.
Defined.

(** ** One chapter per file *)

Section SeparateChapters.
Variable w : world.

(** The outcomes of [synthesize_separate_chapter]. *)
Lemma synthesize_separate_chapter_cases chapter_title text_content
    output_path metadata convert_to_mp3 st :
  let mp3_path := with_suffix output_path ".mp3" in
  output_path ≠ mp3_path →
  ∃ r st',
    synthesize_separate_chapter w chapter_title text_content output_path
      metadata convert_to_mp3 st = (r, st')
    ∧ (∀ p, p ≠ output_path → p ≠ mp3_path → fs st' !! p = fs st !! p)
    ∧ match r with
      | Ret _ =>
          w_voice_loads w = true
          ∧ w_engine_fault w output_path = None
          ∧ if convert_to_mp3 then
              match w_ffmpeg w output_path mp3_path with
              | FfOk mp3 =>
                  fs st' !! output_path = None
                  ∧ match mp3 with
                    | Mp3File frames _ =>
                        fs st' !! mp3_path
                        = Some (Mp3File frames
                                  (if w_mutagen_ok w mp3_path
                                   then [("TIT2", TIT2 chapter_title);
                                         ("TPE1", TPE1 (Py.get metadata "artist"
                                                          "Piper TTS"))]
                                   else match mp3 with
                                        | Mp3File _ old => old
                                        | _ => []
                                        end))
                    | _ => fs st' !! mp3_path = Some mp3
                    end
              | FfOSError => False
              | _ => is_Some (fs st' !! output_path)
              end
            else
              fs st' !! output_path
              = Some (OggFile
                        (tl_frames (record_timeline_w w
                                      [(chapter_title, text_content)]))
                        (w_sample_rate w)
                        (if w_mutagen_ok w output_path
                         then <["artist" := [Py.get metadata "artist" "Piper TTS"]]>
                                (<["title" := [chapter_title]]> ∅)
                         else ∅))
      | Raise _ =>
          (w_voice_loads w = false ∧ fs st' = fs st)
          ∨ (∃ partial, w_engine_fault w output_path = Some partial
                        ∧ fs st' !! output_path = Some partial)
          ∨ (convert_to_mp3 = true
             ∧ w_ffmpeg w output_path mp3_path = FfOSError
             ∧ is_Some (fs st' !! output_path))
      | SysExit _ => False
      end.
Proof.
  intros mp3_path Hne. unfold synthesize_separate_chapter, save_ogg_tags.
  fold mp3_path.
  destruct (w_voice_loads w) eqn:Hvoice; cbn [negb]; mrun;
    [|eexists _, _; split; [done|]; cbn; split; [done|]; by left].
  destruct (w_engine_fault w output_path) as [partial|] eqn:Hfault; mrun.
  { eexists _, _. split; [done|]. cbn. split.
    - intros p Hp _. by rewrite lookup_insert_ne.
    - right. left. exists partial. by rewrite lookup_insert_eq. }
  rewrite lookup_insert_eq.
  destruct (w_mutagen_ok w output_path) eqn:Hmut; mrun;
    rewrite ?insert_insert_eq;
    (destruct convert_to_mp3; mrun;
     [|eexists _, _; (split; [done|]); cbn; split_and!; try done;
       [intros p H1 H2; by rewrite lookup_insert_ne
       |by rewrite lookup_insert_eq]]).
  all: match goal with
       | |- context [convert_ogg_to_mp3 w ?a ?b ?c ?s] =>
           destruct (convert_ogg_to_mp3_cases w a b c s Hne)
             as (rc & st2 & Hconv & Hframe & Hcases);
           rewrite Hconv; cbn [fs] in *
       end.
  all: destruct rc as [[|]|e|code]; [| | |done].
  all: try (destruct Hcases as ((mp3 & Hff & Hmp3) & _ & Hgone);
            unfold save_mp3_tags; mrun; rewrite Hmp3, Hff;
            destruct mp3 as [|frames old|]; mrun;
            [eexists _, _; (split; [done|]); cbn; split_and!; try done;
             intros p H1 H2; by rewrite Hframe, lookup_insert_ne
            |destruct (w_mutagen_ok w mp3_path); mrun;
             eexists _, _; (split; [done|]); cbn; split_and!; try done;
             rewrite ?lookup_insert_eq; try done;
             try (by rewrite lookup_insert_ne);
             intros p H1 H2;
             by rewrite ?lookup_insert_ne, Hframe, lookup_insert_ne by done
            |eexists _, _; (split; [done|]); cbn; split_and!; try done;
             intros p H1 H2; by rewrite Hframe, lookup_insert_ne]).
  all: try (lazymatch type of Hcases with _ ∧ _ => idtac end;
            destruct Hcases as [Hff Hfs]; cbn in Hfs;
            eexists _, _; (split; [done|]); split;
            [intros p H1 H2; by rewrite Hfs, lookup_insert_ne
            |right; right; split_and!; [done..|];
             rewrite Hfs, lookup_insert_eq; eauto]).
  all: eexists _, _; (split; [done|]); cbn; split_and!; try done;
       [intros p H1 H2; by rewrite Hframe, lookup_insert_ne|].
  all: assert (is_Some (fs st2 !! output_path)) as Hsome
         by (rewrite Hcases, lookup_insert_eq; eauto).
  all: revert Hconv; unfold convert_ogg_to_mp3, run_ffmpeg, os_remove; mrun;
       destruct (w_ffmpeg w output_path mp3_path) as [mp3|[partial|]| |];
       try done.
  all: match goal with
       | |- context [path_exists ?f ?q] =>
           assert (path_exists f q = true) as ->
             by (apply path_exists_true; rewrite lookup_insert_eq; eauto)
       end; mrun.
  all: match goal with
       | |- context [path_exists ?f ?q] =>
           assert (path_exists f q = true) as ->
             by (apply path_exists_true;
                 rewrite lookup_insert_ne, lookup_insert_eq by done; eauto)
       end; by mrun.
Qed.

Lemma chapter_ogg_ne_mp3 input_path chapter_title idx :
  chapter_ogg w input_path chapter_title idx
  ≠ with_suffix (chapter_ogg w input_path chapter_title idx) ".mp3".
Proof. unfold chapter_ogg, chapter_path, with_suffix. cbn. congruence. Qed.

(** X13.  A chapter synthesized on its own is tagged with the chapter's
    title as the file's title; with MP3 conversion the OGG file is
    removed after ffmpeg succeeded and the MP3 file carries the chapter
    title and the artist, and no chapter frame. *)
Theorem separate_chapter_result chapter_title text_content input_path idx
    metadata convert_to_mp3 st st' :
  let out_ogg := chapter_ogg w input_path chapter_title idx in
  let out_mp3 := with_suffix out_ogg ".mp3" in
  synthesize_separate_chapter w chapter_title text_content out_ogg metadata
    convert_to_mp3 st = (Ret tt, st') →
  (convert_to_mp3 = false →
   w_mutagen_ok w out_ogg = true →
   ∃ frames tags,
     fs st' !! out_ogg = Some (OggFile frames (w_sample_rate w) tags)
     ∧ tags !! "title" = Some [chapter_title]
     ∧ tags !! "artist" = Some [Py.get metadata "artist" "Piper TTS"]
     ∧ ¬ has_index tags 0)
  ∧ (convert_to_mp3 = true →
     ∀ frames old,
       w_ffmpeg w out_ogg out_mp3 = FfOk (Mp3File frames old) →
       w_mutagen_ok w out_mp3 = true →
       fs st' !! out_ogg = None
       ∧ fs st' !! out_mp3
         = Some (Mp3File frames
                   [("TIT2", TIT2 chapter_title);
                    ("TPE1", TPE1 (Py.get metadata "artist" "Piper TTS"))])).
Proof.
  intros out_ogg out_mp3 Hrun.
  destruct (synthesize_separate_chapter_cases chapter_title text_content
              out_ogg metadata convert_to_mp3 st
              (chapter_ogg_ne_mp3 input_path chapter_title idx))
    as (r & st2 & Hrun' & _ & Hcases).
  rewrite Hrun in Hrun'. injection Hrun' as <- <-.
  destruct Hcases as (_ & _ & Hcases). split.
  - intros -> Hmut. rewrite Hmut in Hcases. eexists _, _. split; [done|].
    split_and!; [by rewrite lookup_insert_ne, lookup_insert_eq
                |by rewrite lookup_insert_eq|].
    intros [[v Hv] _]. rewrite !lookup_insert_ne in Hv by done.
    by rewrite lookup_empty in Hv.
  - intros -> frames old Hff Hmut. fold out_mp3 in Hcases.
    rewrite Hff, Hmut in Hcases. done.
Qed.

(** One round of the split loop always comes back. *)
Lemma split_one_returns input_path metadata mp3 i seg st :
  ∃ st', split_one w input_path metadata mp3 i seg st = (Ret tt, st')
    ∧ ((∃ e st1,
          synthesize_separate_chapter w seg.1 seg.2
            (chapter_ogg w input_path seg.1 i) metadata mp3 st = (Raise e, st1)) →
       path_exists (fs st) (chapter_final w input_path mp3 seg.1 i) = false →
       fs st' !! chapter_ogg w input_path seg.1 i = None
       ∧ fs st' !! with_suffix (chapter_ogg w input_path seg.1 i) ".mp3" = None).
Proof.
  destruct seg as [chapter_title text_content]. cbn [fst snd].
  unfold split_one, chapter_final.
  set (ogg := chapter_ogg w input_path chapter_title i).
  set (mp3_path := with_suffix ogg ".mp3").
  pose proof (chapter_ogg_ne_mp3 input_path chapter_title i) as Hne.
  fold ogg mp3_path in Hne.
  mrun.
  destruct (path_exists (fs st) (if mp3 then mp3_path else ogg)) eqn:Hfinal;
    mrun.
  { eexists. split; [done|]. intros _ ?. done. }
  destruct (synthesize_separate_chapter_cases chapter_title text_content
              ogg metadata mp3 st Hne) as (r & st2 & Hrun & _ & Hcases).
  fold mp3_path in Hcases. rewrite Hrun.
  destruct r as [[]|e|code]; [| |done].
  { eexists. split; [done|]. intros (e & st1 & [=]). }
  unfold os_remove. mrun.
  destruct (path_exists (fs st2) ogg) eqn:Hogg; mrun;
    rewrite ?Hogg; mrun.
  all: match goal with
       | |- context [path_exists ?f ?q] =>
           destruct (path_exists f q) eqn:Hmp3
       end; mrun; rewrite ?Hmp3; mrun;
       eexists; (split; [reflexivity|]); intros _ _; cbn;
       repeat match goal with
         | H : path_exists _ _ = false |- _ => apply path_exists_false in H
         end;
       rewrite ?lookup_delete_eq; rewrite ?lookup_delete_ne by done;
       rewrite ?lookup_delete_eq;
       repeat match goal with
         | H : delete _ _ !! _ = None |- _ =>
             rewrite lookup_delete_ne in H by done
         end;
       done.
Qed.

(** X14.  The split loop never raises and never exits, whatever fails
    inside a chapter; and a chapter whose synthesis raised leaves
    neither its OGG nor its MP3 file behind. *)
Theorem split_all_survives_failures input_path metadata mp3 :
  (∀ segments i st,
     ∃ st', split_all w input_path metadata mp3 i segments st = (Ret tt, st'))
  ∧ (∀ i seg st e st1,
       synthesize_separate_chapter w seg.1 seg.2
         (chapter_ogg w input_path seg.1 i) metadata mp3 st = (Raise e, st1) →
       path_exists (fs st) (chapter_final w input_path mp3 seg.1 i) = false →
       ∃ st', split_one w input_path metadata mp3 i seg st = (Ret tt, st')
         ∧ fs st' !! chapter_ogg w input_path seg.1 i = None
         ∧ fs st' !! with_suffix (chapter_ogg w input_path seg.1 i) ".mp3"
           = None).
Proof.
  split.
  - induction segments as [|seg segments IH]; intros i st; cbn [split_all].
    + by eexists.
    + destruct (split_one_returns input_path metadata mp3 i seg st)
        as (st1 & Hone & _).
      mrun. rewrite Hone. apply IH.
  - intros i seg st e st1 Hraise Hfinal.
    destruct (split_one_returns input_path metadata mp3 i seg st)
      as (st' & Hone & Hclean).
    exists st'. split; [done|]. apply Hclean; eauto.
Qed.
End SeparateChapters.

Lemma split_all_survives_failures_witness :
  ∃ st',
    split_one Doubles.broken_world Doubles.book ∅ false 1
      ("Intro", Doubles.filler 50) (Doubles.start Doubles.fs_input)
    = (Ret tt, st')
    ∧ fs st' !! chapter_ogg Doubles.broken_world Doubles.book "Intro" 1 = None
    ∧ fs st' !! with_suffix
                  (chapter_ogg Doubles.broken_world Doubles.book "Intro" 1)
                  ".mp3" = None.
Proof.
  eapply (proj2 (split_all_survives_failures Doubles.broken_world
                   Doubles.book ∅ false) 1 ("Intro", Doubles.filler 50)).
  - vm_compute. reflexivity.
  - reflexivity.
Defined.

Lemma separate_chapter_result_witness :
  ∃ st',
    synthesize_separate_chapter (Doubles.small_world "") "Intro"
      (Doubles.filler 50)
      (chapter_ogg (Doubles.small_world "") Doubles.book "Intro" 1) ∅ true
      (Doubles.start Doubles.fs_input) = (Ret tt, st')
    ∧ fs st' !! chapter_ogg (Doubles.small_world "") Doubles.book "Intro" 1
      = None.
Proof.
  eexists. split; [vm_compute; reflexivity|].
  eapply (proj2 (separate_chapter_result (Doubles.small_world "") "Intro"
                   (Doubles.filler 50) Doubles.book 1 ∅ true
                   (Doubles.start Doubles.fs_input) _ _) eq_refl [] []).
  - reflexivity.
  - reflexivity.
  Unshelve. vm_compute. reflexivity.
Defined.

(** ** The extractors *)

Lemma str_app_nil_r s : s +:+ "" = s.
Proof.
  induction s as [|c s IH]; [done|].
  change (String c s +:+ "") with (String c (s +:+ "")). by rewrite IH.
Qed.

Lemma str_app_assoc s1 s2 s3 : (s1 +:+ s2) +:+ s3 = s1 +:+ (s2 +:+ s3).
Proof.
  induction s1 as [|c s1 IH]; [done|].
  change ((String c s1 +:+ s2) +:+ s3) with (String c ((s1 +:+ s2) +:+ s3)).
  by rewrite IH.
Qed.

Lemma has_blank_line_tail c s :
  has_blank_line (String c s) = false → has_blank_line s = false.
Proof.
  simpl. destruct s as [|d s]; [done|]. by intros [_ ?]%orb_false_elim.
Qed.

(** A text without two line feeds in a row is one piece for [split]. *)
Lemma split_blank_go_whole s : ∀ cur,
  has_blank_line s = false → Py.split_blank_go cur s = [cur +:+ s].
Proof.
  induction s as [|c1 s1 IH]; intros cur Hs.
  - by rewrite str_app_nil_r.
  - destruct s1 as [|c2 s2]; [done|].
    assert (Ascii.eqb c1 Py.LF && Ascii.eqb c2 Py.LF = false) as Hc.
    { simpl in Hs. by apply orb_false_elim in Hs as [? _]. }
    change (Py.split_blank_go cur (String c1 (String c2 s2)))
      with (if Ascii.eqb c1 Py.LF && Ascii.eqb c2 Py.LF
            then cur :: Py.split_blank_go "" s2
            else Py.split_blank_go (cur +:+ String c1 "") (String c2 s2)).
    rewrite Hc, IH by (by eapply has_blank_line_tail).
    by rewrite str_app_assoc.
Qed.

Lemma split_blank_whole s :
  has_blank_line s = false → Py.split_blank s = [s].
Proof. apply (split_blank_go_whole s ""). Qed.

Lemma re_split_go_cons s : ∀ in_run,
  ∃ p ps, re_split_go in_run s = p :: ps.
Proof.
  induction s as [|c s IH]; intros in_run; simpl; [by eexists _, _|].
  destruct (IH false) as (p & ps & Hp). rewrite Hp.
  destruct (Ascii.eqb c Py.LF); [|by eexists _, _].
  destruct in_run; [apply IH|].
  destruct s as [|c' s']; [by eexists _, _|].
  destruct (Ascii.eqb c' Py.LF); by eexists _, _.
Qed.

(** The piece a scan starts with begins with the character the text
    begins with. *)
Lemma re_split_go_head c s :
  Ascii.eqb c Py.LF = false →
  ∃ p ps, re_split_go false (String c s) = String c p :: ps.
Proof.
  intros Hc. simpl. rewrite Hc.
  destruct (re_split_go_cons s false) as (p & ps & ->). by eexists _, _.
Qed.

Lemma has_blank_line_cons c p :
  has_blank_line p = false →
  (Ascii.eqb c Py.LF = false
   ∨ match p with String d _ => Ascii.eqb d Py.LF = false | _ => True end) →
  has_blank_line (String c p) = false.
Proof.
  intros Hp Hc. destruct p as [|d p]; [done|].
  change (has_blank_line (String c (String d p)))
    with ((Ascii.eqb c Py.LF && Ascii.eqb d Py.LF)
          || has_blank_line (String d p)).
  rewrite Hp, orb_false_r. destruct Hc as [->| ->]; [done|apply andb_false_r].
Qed.

(** No piece of [re.split(r'\n{2,}', s)] holds two line feeds in a
    row. *)
Lemma re_split_go_no_blank s : ∀ in_run,
  Forall (λ p, has_blank_line p = false) (re_split_go in_run s).
Proof.
  induction s as [|c s IH]; intros in_run; [by repeat constructor|].
  assert (Ascii.eqb c Py.LF = false
          ∨ match s with
            | String d _ => Ascii.eqb d Py.LF = false
            | _ => True
            end →
          Forall (λ p, has_blank_line p = false)
            (cons_head c (re_split_go false s))) as Hcons.
  { intros Hc. specialize (IH false).
    destruct s as [|d s'].
    - simpl. repeat constructor. 
    - destruct Hc as [Hc|Hd].
      + destruct (re_split_go_cons (String d s') false) as (p & ps & Hp).
        rewrite Hp in *. simpl. apply Forall_cons in IH as [Hh Ht].
        constructor; [|done]. apply has_blank_line_cons; auto.
      + destruct (re_split_go_head d s' Hd) as (p & ps & Hp).
        rewrite Hp in *. simpl. apply Forall_cons in IH as [Hh Ht].
        constructor; [|done]. apply has_blank_line_cons; auto. }
  simpl. destruct (Ascii.eqb c Py.LF) eqn:Hc; [|by apply Hcons; left].
  destruct in_run; [apply IH|].
  destruct s as [|c' s']; [by apply Hcons; right|].
  destruct (Ascii.eqb c' Py.LF) eqn:Hc'; [|by apply Hcons; right].
  constructor; [done|apply IH].
Qed.

Section StripFacts.
Variable isspace : ascii → bool.

Lemma lstrip_no_blank s :
  has_blank_line s = false → has_blank_line (Py.lstrip isspace s) = false.
Proof.
  induction s as [|c s IH]; [done|]. intros Hs. simpl.
  destruct (isspace c); [|done]. by eapply IH, has_blank_line_tail.
Qed.

Lemma rstrip_head c s d r :
  Py.rstrip isspace (String c s) = String d r → d = c.
Proof.
  simpl. destruct (Py.rstrip isspace s); [destruct (isspace c)|];
    congruence.
Qed.

Lemma rstrip_no_blank s :
  has_blank_line s = false → has_blank_line (Py.rstrip isspace s) = false.
Proof.
  induction s as [|c s IH]; [done|]. intros Hs.
  specialize (IH (has_blank_line_tail _ _ Hs)).
  change (Py.rstrip isspace (String c s))
    with (match Py.rstrip isspace s with
          | EmptyString =>
              if isspace c then EmptyString else String c EmptyString
          | r => String c r
          end).
  destruct (Py.rstrip isspace s) as [|d r] eqn:Hr;
    [by destruct (isspace c)|].
  apply has_blank_line_cons; [done|].
  destruct s as [|d' s']; [done|].
  apply rstrip_head in Hr as ->.
  simpl in Hs. apply orb_false_elim in Hs as [Hs _].
  apply andb_false_iff in Hs as [?|?]; auto.
Qed.

Lemma strip_no_blank s :
  has_blank_line s = false → has_blank_line (Py.strip isspace s) = false.
Proof. intros. by apply rstrip_no_blank, lstrip_no_blank. Qed.

Lemma rstrip_rstrip s :
  Py.rstrip isspace (Py.rstrip isspace s) = Py.rstrip isspace s.
Proof.
  induction s as [|c s IH]; [done|].
  change (Py.rstrip isspace (String c s))
    with (match Py.rstrip isspace s with
          | EmptyString =>
              if isspace c then EmptyString else String c EmptyString
          | r => String c r
          end).
  destruct (Py.rstrip isspace s) as [|d r] eqn:Hr.
  - destruct (isspace c) eqn:Hc; [done|]. simpl. by rewrite Hc.
  - change (Py.rstrip isspace (String c (String d r)))
      with (match Py.rstrip isspace (String d r) with
            | EmptyString =>
                if isspace c then EmptyString else String c EmptyString
            | r => String c r
            end).
    by rewrite IH.
Qed.

Lemma lstrip_head s :
  match Py.lstrip isspace s with
  | String c _ => isspace c = false
  | EmptyString => True
  end.
Proof.
  induction s as [|c s IH]; [done|]. simpl.
  by destruct (isspace c) eqn:Hc.
Qed.

Lemma lstrip_rstrip s :
  match s with String c _ => isspace c = false | EmptyString => True end →
  Py.lstrip isspace (Py.rstrip isspace s) = Py.rstrip isspace s.
Proof.
  destruct s as [|c s]; [done|]. intros Hc.
  change (Py.rstrip isspace (String c s))
    with (match Py.rstrip isspace s with
          | EmptyString =>
              if isspace c then EmptyString else String c EmptyString
          | r => String c r
          end).
  rewrite Hc. destruct (Py.rstrip isspace s); simpl; by rewrite Hc.
Qed.

(** [strip] of a stripped text changes nothing. *)
Lemma strip_strip s :
  Py.strip isspace (Py.strip isspace s) = Py.strip isspace s.
Proof.
  unfold Py.strip.
  rewrite (lstrip_rstrip (Py.lstrip isspace s)) by apply lstrip_head.
  apply rstrip_rstrip.
Qed.
End StripFacts.

Section ExtractorFacts.
Variable isspace : ascii → bool.
Variable is_heading : string → bool.

(** X15.  The segments of a text file: the k-th is titled "Segment k"; its
    text is not empty, is stripped, holds no blank line, and therefore
    goes to the speech engine as one paragraph. *)
Theorem txt_segments_are_single_paragraphs (text : string) (i : nat)
    (seg : Segment) :
  (extract_segments_from_txt isspace text).1 !! i = Some seg →
  seg.1 = "Segment " +:+ pretty (S i)
  ∧ seg.2 ≠ ""
  ∧ Py.strip isspace seg.2 = seg.2
  ∧ has_blank_line seg.2 = false
  ∧ paragraphs_of isspace seg.2 = [seg.2].
Proof.
  unfold extract_segments_from_txt. cbn [fst].
  rewrite list_lookup_imap. intros Hseg.
  apply fmap_Some in Hseg as (p & Hp & ->). cbn [fst snd].
  apply list_lookup_fmap_Some in Hp as (q & -> & Hq).
  apply list_elem_of_lookup_2, list_elem_of_filter in Hq as [Htruthy Hq].
  assert (has_blank_line (Py.strip isspace q) = false) as Hblank.
  { apply strip_no_blank.
    pose proof (re_split_go_no_blank text false) as Hall.
    rewrite Forall_forall in Hall. by apply Hall. }
  split_and!; [done| |apply strip_strip|done|].
  - intros Hempty. by rewrite Hempty in Htruthy.
  - by apply paragraphs_of_whole, split_blank_whole.
Qed.

Lemma texts_of_cons p l :
  texts_of isspace (p :: l)
  = if Py.truthy (Py.strip isspace (p_text p))
    then Py.strip isspace (p_text p) :: texts_of isspace l
    else texts_of isspace l.
Proof.
  unfold texts_of. rewrite fmap_cons. cbn [compose].
  destruct (Py.truthy (Py.strip isspace (p_text p))) eqn:Ht.
  - by rewrite filter_cons_True.
  - rewrite filter_cons_False; [done|]. by rewrite Ht.
Qed.

Lemma fold_body body : ∀ g,
  Forall (body_paragraph isspace is_heading) body →
  fold_left (group_step isspace is_heading) body g
  = mkGrouping (g_segments g) (current_title g)
      (current_text g ++ texts_of isspace body).
Proof.
  induction body as [|p body IH]; intros g Hbody.
  - simpl. rewrite app_nil_r. by destruct g.
  - apply Forall_cons in Hbody as [Hp Hbody].
    cbn [fold_left]. rewrite IH by done. rewrite texts_of_cons.
    unfold group_step.
    destruct (Py.truthy (Py.strip isspace (p_text p))) eqn:Ht; cbn [negb].
    + destruct Hp as [->|?]; [|congruence]. cbn. by rewrite <-app_assoc.
    + done.
Qed.

Lemma group_step_heading g h :
  heading_paragraph isspace is_heading h →
  group_step isspace is_heading g h
  = mkGrouping (flush isspace g) (Some (Py.strip isspace (p_text h))) [].
Proof. intros [Hh Ht]. unfold group_step. by rewrite Ht, Hh. Qed.

Lemma flush_after_heading segments h body :
  heading_paragraph isspace is_heading h →
  flush isspace
    (mkGrouping segments (Some (Py.strip isspace (p_text h)))
       (texts_of isspace body))
  = segments ++ omap (closed isspace) [(h, body)].
Proof.
  intros [Hh Ht]. unfold flush, title_set, text_set, closed.
  cbn [g_segments current_title current_text default omap list_omap fst snd].
  rewrite Ht.
  destruct (texts_of isspace body) as [|t ts]; cbn; [by rewrite app_nil_r|done].
Qed.

Lemma fold_sections file_stem sections : ∀ h body g,
  heading_paragraph isspace is_heading h →
  Forall (body_paragraph isspace is_heading) body →
  Forall (λ s, heading_paragraph isspace is_heading s.1
               ∧ Forall (body_paragraph isspace is_heading) s.2) sections →
  finish isspace file_stem
    (fold_left (group_step isspace is_heading)
       (flat_map (λ s, s.1 :: s.2) ((h, body) :: sections)) g)
  = flush isspace g ++ omap (closed isspace) ((h, body) :: sections).
Proof.
  induction sections as [|[h2 body2] sections IH];
    intros h body g Hh Hbody Hsections.
  - cbn [flat_map fst snd]. rewrite app_nil_r. cbn [fold_left].
    rewrite group_step_heading, (fold_body body) by done.
    cbn [g_segments current_title current_text app].
    rewrite <-(flush_after_heading _ h body Hh).
    set (g1 := mkGrouping (flush isspace g) _ _).
    unfold finish.
    destruct (title_set g1 && text_set g1) eqn:Hset; [done|].
    assert (flush isspace g1 = g_segments g1) as ->
      by (unfold flush; by rewrite Hset).
    assert (text_set g1 = false) as ->.
    { destruct Hh as [_ Ht]. unfold title_set in Hset.
      cbn [g1 current_title] in Hset. by rewrite Ht in Hset. }
    by destruct (g_segments g1).
  - apply Forall_cons in Hsections as [[Hh2 Hbody2] Hsections].
    change (flat_map (λ s, s.1 :: s.2) ((h, body) :: (h2, body2) :: sections))
      with ((h :: body)
            ++ flat_map (λ s : paragraph * list paragraph, s.1 :: s.2)
                 ((h2, body2) :: sections)).
    rewrite fold_left_app. cbn [fold_left].
    rewrite group_step_heading, (fold_body body) by done.
    cbn [g_segments current_title current_text app].
    rewrite (IH h2 body2) by done.
    rewrite (flush_after_heading _ h body Hh).
    cbn [omap list_omap]. destruct (closed isspace (h, body)); cbn.
    + by rewrite <-app_assoc.
    + by rewrite app_nil_r.
Qed.

(** X16.  The segments of a document follow its headings.  With at least
    one heading, every heading that has text under it gives one segment
    (its title the heading, its text the paragraphs under it joined by
    line feeds), a heading without text gives none, and what stands
    before the first heading is dropped.  Without any heading the whole
    text is one segment titled with the file's stem. *)
Theorem document_segments_follow_headings (file_stem : string)
    (preamble : list paragraph)
    (sections : list (paragraph * list paragraph)) :
  Forall (body_paragraph isspace is_heading) preamble →
  Forall (λ s, heading_paragraph isspace is_heading s.1
               ∧ Forall (body_paragraph isspace is_heading) s.2) sections →
  group_paragraphs isspace is_heading file_stem
    (preamble ++ flat_map (λ s, s.1 :: s.2) sections)
  = match sections with
    | [] =>
        match texts_of isspace preamble with
        | [] => []
        | ts => [(file_stem, Py.strip isspace (join_lines ts))]
        end
    | _ => omap (closed isspace) sections
    end.
Proof.
  intros Hpre Hsections. unfold group_paragraphs.
  rewrite fold_left_app, (fold_body preamble) by done.
  cbn [g_segments current_title current_text app].
  destruct sections as [|[h body] sections].
  - cbn [flat_map fold_left]. unfold finish, title_set, text_set. cbn.
    by destruct (texts_of isspace preamble).
  - apply Forall_cons in Hsections as [[Hh Hbody] Hsections].
    by rewrite (fold_sections file_stem sections h body).
Qed.

(** X17.  The author of a .docx or .odt document never reaches the tags:
    the extractor files it under "author", [main] looks for "artist",
    so the artist is always the default. *)
Theorem document_author_is_not_the_artist (w : world) (file_path : path)
    (paragraphs : list paragraph) (doc_title doc_author : option string)
    (segments : list Segment) (extracted_metadata : gmap string string)
    (input_path : path) :
  extract_segments_from_document isspace is_heading file_path paragraphs
    doc_title doc_author = Some (segments, extracted_metadata) →
  extracted_metadata !! "author" = Some (or_else doc_author "Unknown")
  ∧ extracted_metadata !! "artist" = None
  ∧ book_metadata w extracted_metadata input_path !! "artist"
    = Some "Piper TTS"
  ∧ book_metadata w extracted_metadata input_path !! "title"
    = Some (let t := or_else doc_title (stem file_path) in
            if Py.truthy t then t else w_get_title_from_path w input_path).
Proof.
  unfold extract_segments_from_document.
  destruct (_ || _); [|done]. intros [= <- <-].
  unfold document_metadata, book_metadata, get_or.
  split_and!.
  - by rewrite lookup_insert_eq.
  - by rewrite !lookup_insert_ne, lookup_empty.
  - rewrite lookup_insert_eq. by rewrite !lookup_insert_ne, lookup_empty.
  - rewrite lookup_insert_ne, lookup_insert_eq by done.
    by rewrite lookup_insert_ne, lookup_insert_eq.
Qed.

End ExtractorFacts.

(** X18.  [find_model_path] returns the explicit voice file whenever one
    is given and exists; in every other case it returns the first
    default that exists, in the order of the list, and gives up exactly
    when no default exists.  So it never hands out a path that does not
    exist. *)
Theorem find_model_path_exists (Path : string → path) (files : filesystem)
    (candidates : list path) (voice_arg : option string) :
  let explicit :=
    match voice_arg with
    | Some v => Py.truthy v && path_exists files (Path v)
    | None => false
    end in
  let result := find_model_path Path files candidates voice_arg in
  (explicit = true → ∃ v, voice_arg = Some v ∧ result = Some (Path v))
  ∧ (explicit = false →
     (∀ p, result = Some p
           ↔ ∃ i, candidates !! i = Some p
                  ∧ path_exists files p = true
                  ∧ ∀ j q, candidates !! j = Some q → j < i →
                           path_exists files q = false)
     ∧ (result = None
        ↔ Forall (λ p, path_exists files p = false) candidates))
  ∧ (∀ p, result = Some p → path_exists files p = true).
Proof.
  assert (∀ p,
            snd <$> list_find (λ p, path_exists files p = true) candidates
            = Some p
            ↔ ∃ i, candidates !! i = Some p
                   ∧ path_exists files p = true
                   ∧ ∀ j q, candidates !! j = Some q → j < i →
                            path_exists files q = false) as Hsome.
  { intros p. split.
    - intros Hfind. apply fmap_Some in Hfind as ([i q] & Hfind & ->).
      apply list_find_Some in Hfind as (Hi & Hp & Hbefore).
      exists i. split_and!; [done..|]. intros j q' Hj Hlt.
      by apply not_true_is_false, (Hbefore j q').
    - intros (i & Hi & Hp & Hbefore). apply fmap_Some. exists (i, p).
      split; [|done]. apply list_find_Some. split_and!; [done..|].
      intros j q Hj Hlt. rewrite (Hbefore j q Hj Hlt). done. }
  assert (snd <$> list_find (λ p, path_exists files p = true) candidates
          = None
          ↔ Forall (λ p, path_exists files p = false) candidates) as Hnone.
  { rewrite fmap_None, list_find_None. apply Forall_iff.
    intros p. by destruct (path_exists files p). }
  cbv zeta. unfold find_model_path.
  destruct voice_arg as [v|]; cbn [andb].
  - destruct (Py.truthy v); cbn [andb].
    + destruct (path_exists files (Path v)) eqn:Hexplicit.
      * split_and!; [by exists v|done|].
        by intros p [= <-].
      * split_and!; [done|done|].
        intros p Hp. apply Hsome in Hp as (_ & _ & ? & _). done.
    + split_and!; [done|done|].
      intros p Hp. apply Hsome in Hp as (_ & _ & ? & _). done.
  - split_and!; [done|done|].
    intros p Hp. apply Hsome in Hp as (_ & _ & ? & _). done.
Qed.

Lemma find_model_path_exists_witness :
  find_model_path Doubles.to_path
    {[ Doubles.to_path "v.onnx" := OtherFile "voice";
       Doubles.to_path "models/de.onnx" := OtherFile "default" ]}
    [Doubles.to_path "models/de.onnx"] (Some "v.onnx")
  = Some (Doubles.to_path "v.onnx").
Proof.
  destruct (proj1 (find_model_path_exists Doubles.to_path
              {[ Doubles.to_path "v.onnx" := OtherFile "voice";
                 Doubles.to_path "models/de.onnx" := OtherFile "default" ]}
              [Doubles.to_path "models/de.onnx"] (Some "v.onnx")))
    as (v & Hv & Hresult); [vm_compute; reflexivity|].
  injection Hv as <-. exact Hresult.
Defined.

(** ** The files of the chapters *)

Lemma pretty_N_char_decimal x : Py.is_decimal (pretty_N_char x) = true.
Proof. unfold pretty_N_char. by repeat case_match. Qed.

Lemma pretty_N_go_decimal x : ∀ s,
  Py.all_chars Py.is_decimal s = true →
  Py.all_chars Py.is_decimal (pretty_N_go x s) = true.
Proof.
  induction (N.lt_wf_0 x) as [x _ IH]; intros s Hs.
  destruct (decide (x = 0)%N) as [->|Hx]; [by rewrite pretty_N_go_0|].
  rewrite pretty_N_go_step by lia.
  apply IH; [apply N.div_lt; lia|].
  simpl. by rewrite pretty_N_char_decimal, Hs.
Qed.

(** A positive number is printed without a leading zero. *)
Lemma pretty_N_go_leading x : ∀ s,
  (0 < x)%N → ∃ c r, pretty_N_go x s = String c r ∧ c ≠ "0"%char.
Proof.
  induction (N.lt_wf_0 x) as [x _ IH]; intros s Hx.
  rewrite pretty_N_go_step by done.
  destruct (decide (x `div` 10 = 0)%N) as [Hdiv|Hdiv].
  - rewrite Hdiv, pretty_N_go_0. eexists _, _. split; [done|].
    intros Hc. apply N.div_small_iff in Hdiv; [|done].
    rewrite N.mod_small in Hc by done.
    apply (pretty_N_char_inj x 0) in Hc; lia.
  - apply IH; [apply N.div_lt; lia|by apply N.neq_0_lt_0].
Qed.

Lemma pretty_nat_decimal (n : nat) :
  Py.all_chars Py.is_decimal (pretty n) = true.
Proof.
  unfold pretty, pretty_nat, pretty, pretty_N.
  case_decide; [done|]. by apply pretty_N_go_decimal.
Qed.

Lemma pretty_nat_leading (n : nat) :
  0 < n → ∃ c r, pretty n = String c r ∧ c ≠ "0"%char.
Proof.
  intros Hn. unfold pretty, pretty_nat, pretty, pretty_N.
  case_decide; [lia|]. apply pretty_N_go_leading. lia.
Qed.

Lemma fmt_02d_decimal n : Py.all_chars Py.is_decimal (Py.fmt_02d n) = true.
Proof.
  unfold Py.fmt_02d. destruct (n <? 10); [|apply pretty_nat_decimal].
  change ("0" +:+ pretty n) with (String "0" (pretty n)).
  simpl. apply pretty_nat_decimal.
Qed.

Lemma fmt_02d_inj i j : Py.fmt_02d i = Py.fmt_02d j → i = j.
Proof.
  unfold Py.fmt_02d.
  destruct (i <? 10) eqn:Hi, (j <? 10) eqn:Hj;
    change ("0" +:+ pretty i) with (String "0" (pretty i));
    change ("0" +:+ pretty j) with (String "0" (pretty j)).
  - intros [= H]. by apply (inj pretty).
  - apply Nat.ltb_ge in Hj. intros H.
    destruct (pretty_nat_leading j) as (c & r & Hc & Hne); [lia|].
    rewrite Hc in H. by injection H as <- _.
  - apply Nat.ltb_ge in Hi. intros H.
    destruct (pretty_nat_leading i) as (c & r & Hc & Hne); [lia|].
    rewrite Hc in H. by injection H as -> _.
  - apply (inj pretty).
Qed.

(** Two runs of digits, each followed by an underscore, that start
    equal texts are equal. *)
Lemma decimal_prefix_inj d1 : ∀ d2 a b,
  Py.all_chars Py.is_decimal d1 = true →
  Py.all_chars Py.is_decimal d2 = true →
  d1 +:+ String "_" a = d2 +:+ String "_" b → d1 = d2.
Proof.
  induction d1 as [|c1 d1 IH]; intros [|c2 d2] a b H1 H2 Heq.
  - done.
  - change (String "_" a = String c2 (d2 +:+ String "_" b)) in Heq.
    injection Heq as <- _. done.
  - change (String c1 (d1 +:+ String "_" a) = String "_" b) in Heq.
    injection Heq as -> _. done.
  - change (String c1 (d1 +:+ String "_" a)
            = String c2 (d2 +:+ String "_" b)) in Heq.
    injection Heq as -> Heq.
    simpl in H1, H2.
    apply andb_prop in H1 as [_ H1]. apply andb_prop in H2 as [_ H2].
    f_equal. by eapply IH.
Qed.

(** The index can be read off a file name. *)
Lemma safe_filename_index isalnum isspace t1 t2 i j :
  safe_filename isalnum isspace t1 i = safe_filename isalnum isspace t2 j →
  i = j.
Proof.
  unfold safe_filename. intros Heq.
  apply fmt_02d_inj.
  eapply (decimal_prefix_inj _ _ (safe_name isalnum isspace t1)
            (safe_name isalnum isspace t2));
    [apply fmt_02d_decimal..|done].
Qed.

Section ChapterFiles.
Variable w : world.

Lemma chapter_ogg_index input_path t1 t2 i j :
  stem (chapter_ogg w input_path t1 i) = stem (chapter_ogg w input_path t2 j) →
  i = j.
Proof.
  unfold chapter_ogg, chapter_path. cbn [stem]. intros Heq.
  apply String.app_inj in Heq.
  change ("_" +:+ ?x) with (String "_" x) in Heq.
  injection Heq as Heq.
  by eapply safe_filename_index.
Qed.

(** X19.  Chapters with different indices never share a file, whatever
    their titles and whichever of the two formats each is written in. *)
Theorem chapter_files_never_collide (input_path : path) (t1 t2 : string)
    (i j : nat) (mp3 mp3' : bool) :
  i ≠ j →
  chapter_final w input_path mp3 t1 i ≠ chapter_final w input_path mp3' t2 j.
Proof.
  intros Hne Heq. apply Hne.
  apply (chapter_ogg_index input_path t1 t2).
  apply (f_equal stem) in Heq. unfold chapter_final in Heq.
  by destruct mp3, mp3'.
Qed.

(** One round of the split loop on a file that is not there, with an
    engine that works. *)
Lemma split_one_fresh input_path metadata i seg st :
  w_voice_loads w = true →
  w_engine_fault w (chapter_ogg w input_path seg.1 i) = None →
  fs st !! chapter_ogg w input_path seg.1 i = None →
  ∃ st',
    split_one w input_path metadata false i seg st = (Ret tt, st')
    ∧ fs st' !! chapter_ogg w input_path seg.1 i
      = Some (OggFile (tl_frames (record_timeline_w w [seg]))
                (w_sample_rate w)
                (if w_mutagen_ok w (chapter_ogg w input_path seg.1 i)
                 then <["artist" := [Py.get metadata "artist" "Piper TTS"]]>
                        (<["title" := [seg.1]]> ∅)
                 else ∅))
    ∧ ∀ p, stem p ≠ stem (chapter_ogg w input_path seg.1 i) →
           fs st' !! p = fs st !! p.
Proof.
  destruct seg as [chapter_title text_content]. cbn [fst snd].
  intros Hvoice Hfault Hfresh. unfold split_one.
  set (ogg := chapter_ogg w input_path chapter_title i) in *.
  mrun. unfold path_exists. rewrite Hfresh. cbn.
  destruct (synthesize_separate_chapter_cases w chapter_title text_content
              ogg metadata false st) as (r & st' & Hrun & Hframe & Hcases).
  { unfold ogg, chapter_ogg, chapter_path, with_suffix. cbn. congruence. }
  rewrite Hrun. destruct r as [[]|e|code]; [| |done].
  - exists st'. split; [done|]. destruct Hcases as (_ & _ & Hogg).
    split; [done|]. intros p Hp. apply Hframe; intros ->; by apply Hp.
  - destruct Hcases as [[? _]|[(partial & ? & _)|(? & _)]]; congruence.
Qed.

(** X20.  Splitting a book into chapter files, with a working engine and
    none of the files there yet: the loop returns, every chapter has its
    own OGG file holding the recording of just that chapter, and no
    other file is touched. *)
Theorem split_all_writes_every_chapter (input_path : path)
    (metadata : gmap string string) (segments : list Segment) (i : nat)
    (st : state) :
  w_voice_loads w = true →
  (∀ p, w_engine_fault w p = None) →
  (∀ k seg, segments !! k = Some seg →
            fs st !! chapter_ogg w input_path seg.1 (i + k) = None) →
  ∃ st',
    split_all w input_path metadata false i segments st = (Ret tt, st')
    ∧ (∀ k seg, segments !! k = Some seg →
         ∃ tags,
           fs st' !! chapter_ogg w input_path seg.1 (i + k)
           = Some (OggFile (tl_frames (record_timeline_w w [seg]))
                     (w_sample_rate w) tags))
    ∧ (∀ p, (∀ k seg, segments !! k = Some seg →
                      stem p ≠ stem (chapter_ogg w input_path seg.1 (i + k))) →
            fs st' !! p = fs st !! p).
Proof.
  intros Hvoice Hfault. revert i st.
  induction segments as [|seg segments IH]; intros i st Hfresh.
  - exists st. split; [done|]. split; [by intros k seg [=]|done].
  - cbn [split_all].
    destruct (split_one_fresh input_path metadata i seg st Hvoice
                (Hfault _)) as (st1 & Hone & Hogg & Hframe1).
    { specialize (Hfresh 0 seg eq_refl). by rewrite Nat.add_0_r in Hfresh. }
    destruct (IH (S i) st1) as (st' & Hall & Hfiles & Hframe).
    { intros k seg' Hk. rewrite Hframe1.
      - specialize (Hfresh (S k) seg' Hk).
        by rewrite Nat.add_succ_r in Hfresh.
      - intros Heq. apply chapter_ogg_index in Heq. lia. }
    exists st'. split; [mrun; by rewrite Hone|]. split.
    + intros [|k] seg' Hk.
      * injection Hk as <-. rewrite Nat.add_0_r. rewrite Hframe.
        -- by eexists.
        -- intros k seg' _ Heq. apply chapter_ogg_index in Heq. lia.
      * rewrite Nat.add_succ_r. by apply Hfiles.
    + intros p Hp. rewrite Hframe, Hframe1.
      * done.
      * specialize (Hp 0 seg eq_refl). by rewrite Nat.add_0_r in Hp.
      * intros k seg' Hk. specialize (Hp (S k) seg' Hk).
        by rewrite Nat.add_succ_r in Hp.
Qed.
End ChapterFiles.

Lemma txt_segments_are_single_paragraphs_witness :
  let seg := ("Segment 2", "two " +:+ Samples.NL +:+ "lines") in
  seg.1 = "Segment " +:+ pretty 2
  ∧ seg.2 ≠ ""
  ∧ Py.strip Doubles.isspace seg.2 = seg.2
  ∧ has_blank_line seg.2 = false
  ∧ paragraphs_of Doubles.isspace seg.2 = [seg.2].
Proof.
  apply (txt_segments_are_single_paragraphs Doubles.isspace Samples.text 1).
  vm_compute. reflexivity.
Defined.

Lemma document_segments_follow_headings_witness :
  group_paragraphs Doubles.isspace docx_is_heading "book" Samples.document
  = [("First", "a" +:+ Samples.NL +:+ "b");
     ("Empty", "Last" +:+ Samples.NL +:+ "z")].
Proof.
  unfold Samples.document.
  rewrite (document_segments_follow_headings Doubles.isspace docx_is_heading
             "book" Samples.preface Samples.chapters).
  - vm_compute. reflexivity.
  - repeat constructor.
  - repeat constructor; vm_compute; auto.
Defined.

Lemma document_author_is_not_the_artist_witness :
  book_metadata (Doubles.demo_world "")
    (document_metadata "book" (Some "A Title") (Some "An Author"))
    (mkPath "" "book" ".docx") !! "artist"
  = Some "Piper TTS".
Proof.
  refine (proj1 (proj2 (proj2
    (document_author_is_not_the_artist Doubles.isspace docx_is_heading
       (Doubles.demo_world "") (mkPath "" "book" ".docx") Samples.document
       (Some "A Title") (Some "An Author") _ _ (mkPath "" "book" ".docx")
       _)))).
  vm_compute. reflexivity.
Defined.

Lemma chapter_files_never_collide_witness :
  chapter_final (Doubles.demo_world "") Doubles.book false "Intro" 1
  ≠ chapter_final (Doubles.demo_world "") Doubles.book true "Intro" 2.
Proof.
  apply (chapter_files_never_collide (Doubles.demo_world "") Doubles.book
           "Intro" "Intro" 1 2 false true).
  lia.
Defined.

Lemma split_all_writes_every_chapter_witness :
  ∃ st',
    split_all (Doubles.small_world "") Doubles.book ∅ false 1
      [("Intro", Doubles.filler 5); ("Body", Doubles.filler 7)]
      (Doubles.start Doubles.fs_input) = (Ret tt, st')
    ∧ is_Some (fs st' !! mkPath "" "book_01_Intro" ".ogg")
    ∧ is_Some (fs st' !! mkPath "" "book_02_Body" ".ogg")
    ∧ fs st' !! Doubles.book = Some (OtherFile "text").
Proof.
  destruct (split_all_writes_every_chapter (Doubles.small_world "")
              Doubles.book ∅
              [("Intro", Doubles.filler 5); ("Body", Doubles.filler 7)] 1
              (Doubles.start Doubles.fs_input))
    as (st' & Hrun & Hfiles & Hframe).
  - reflexivity.
  - intros p. reflexivity.
  - intros [|[|k]] seg [= <-]; vm_compute; reflexivity.
  - exists st'. split; [exact Hrun|]. split_and!.
    + destruct (Hfiles 0 _ eq_refl) as [tags Htags].
      exists (OggFile
                (tl_frames (record_timeline_w (Doubles.small_world "")
                              [("Intro", Doubles.filler 5)]))
                10 tags).
      exact Htags.
    + destruct (Hfiles 1 _ eq_refl) as [tags Htags].
      exists (OggFile
                (tl_frames (record_timeline_w (Doubles.small_world "")
                              [("Body", Doubles.filler 7)]))
                10 tags).
      exact Htags.
    + rewrite Hframe; [vm_compute; reflexivity|].
      intros [|[|k]] seg [= <-]; vm_compute; discriminate.
Defined.


(** * The program's clock in binary64 *)




(** ** The recorder *)

Section TimelineBinary64.
Variable isspace : ascii → bool.
Variable synthesize : string → list nat.
Variable sample_rate : Z.

(** A segment of one paragraph that the engine returns in one buffer. *)
Lemma record_segment_one_buffer tl seg_title text_content n :
  Py.split_blank text_content = [text_content] →
  synthesize text_content = [n] →
  Float64.record_segment isspace synthesize sample_rate tl
    (seg_title, text_content)
  = Float64.mkTimeline (Float64.tl_frames tl ++ [n])
      (Float64.add (Float64.tl_time tl)
         (Float64.truediv (Z.of_nat n) sample_rate))
      (Float64.tl_markers tl
         ++ [Float64.mkMarker (Float64.tl_time tl) seg_title]).
Proof.
  intros Hwhole Hone. unfold Float64.record_segment.
  rewrite (paragraphs_of_whole isspace _ Hwhole). cbn [fold_left].
  unfold Float64.write_paragraph. rewrite Hone. done.
Qed.

(** C3 (as amended).  With an engine that returns the audio of each
    text in one buffer lasting a tenth of a second per character, three
    segments "Intro", "Body" and "Outro" of 50, 200 and 20 characters
    without a blank line get their markers at exactly 0.5 s, 5.5 s and
    25.5 s, and the total duration is exactly 32.5 s. *)
Theorem end_to_end_scenario (intro body outro : string) :
  String.length intro = 50%nat →
  String.length body = 200%nat →
  String.length outro = 20%nat →
  Py.split_blank intro = [intro] →
  Py.split_blank body = [body] →
  Py.split_blank outro = [outro] →
  Float64.one_second_per_ten_chars synthesize sample_rate intro →
  Float64.one_second_per_ten_chars synthesize sample_rate body →
  Float64.one_second_per_ten_chars synthesize sample_rate outro →
  let tl := Float64.record_timeline isspace synthesize sample_rate
              [("Intro", intro); ("Body", body); ("Outro", outro)] in
  Float64.tl_markers tl
  = [Float64.mkMarker (Float64.truediv 1 2) "Intro";
     Float64.mkMarker (Float64.truediv 11 2) "Body";
     Float64.mkMarker (Float64.truediv 51 2) "Outro"]
  ∧ Float64.tl_time tl = Float64.truediv 65 2.
Proof.
  intros Hli Hlb Hlo Hwi Hwb Hwo (n1 & Hs1 & Hd1) (n2 & Hs2 & Hd2)
    (n3 & Hs3 & Hd3).
  rewrite Hli in Hd1. rewrite Hlb in Hd2. rewrite Hlo in Hd3.
  cbv zeta. unfold Float64.record_timeline. cbn [fold_left].
  rewrite (record_segment_one_buffer _ _ _ n1 Hwi Hs1).
  rewrite (record_segment_one_buffer _ _ _ n2 Hwb Hs2).
  rewrite (record_segment_one_buffer _ _ _ n3 Hwo Hs3).
  cbn [Float64.advance Float64.f_write Float64.tl_time Float64.tl_markers
       Float64.tl_frames app].
  rewrite Hd1, Hd2, Hd3.
  split.
  - repeat f_equal; vm_compute; reflexivity.
  - vm_compute. reflexivity.
Qed.
End TimelineBinary64.

Lemma end_to_end_scenario_witness :
  let tl := Float64.record_timeline Doubles.isspace (Doubles.engine 1000)
              1000
              [("Intro", Doubles.filler 50); ("Body", Doubles.filler 200);
               ("Outro", Doubles.filler 20)] in
  Float64.tl_markers tl
  = [Float64.mkMarker (Float64.truediv 1 2) "Intro";
     Float64.mkMarker (Float64.truediv 11 2) "Body";
     Float64.mkMarker (Float64.truediv 51 2) "Outro"]
  ∧ Float64.tl_time tl = Float64.truediv 65 2.
Proof.
  refine (end_to_end_scenario Doubles.isspace (Doubles.engine 1000) 1000
            (Doubles.filler 50) (Doubles.filler 200) (Doubles.filler 20)
            eq_refl eq_refl eq_refl eq_refl eq_refl eq_refl _ _ _);
    (eexists; split; [reflexivity|vm_compute; reflexivity]).
Defined.

(** The total of the scenario, computed, is 32.5 s and not 47.5 s. *)
Lemma end_to_end_total_not_47_5 :
  Float64.tl_time
    (Float64.record_timeline Doubles.isspace (Doubles.engine 1000) 1000
       Doubles.scenario)
  = Float64.truediv 65 2
  ∧ Float64.truediv 65 2 ≠ Float64.truediv 95 2.
Proof. split; [vm_compute; reflexivity|vm_compute; discriminate]. Qed.

(** The same second per ten characters, delivered at 22050 Hz in one
    buffer of 2205 samples per character: every quotient is rounded, and
    the clock reads a little less than 5.5 s at the second marker. *)
Lemma clock_of_many_buffers :
  Float64.time_seconds
  <$> Float64.tl_markers
        (Float64.record_timeline Doubles.isspace
           (λ para, replicate (String.length para) 2205%nat) 22050
           [("Intro", Doubles.filler 50); ("Body", Doubles.filler 200)])
  = [Float64.truediv 1 2; S754_finite false 6192449487634428 (-50)]
  ∧ Float64.truediv 11 2 = S754_finite false 6192449487634432 (-50).
Proof. split; vm_compute; reflexivity. Qed.

(** ** The estimation *)

Lemma approximate_loop_running_sum tts_duration total segments : ∀ current,
  Float64.approximate_loop tts_duration total current segments
  = imap (λ i (seg : Segment),
            Float64.mkMarker
              (Float64.running_sum tts_duration total current
                 (take i segments))
              seg.1)
      segments.
Proof.
  induction segments as [|[seg_title text_content] segments IH];
    intros current; [done|].
  cbn [Float64.approximate_loop imap]. f_equal.
  rewrite IH. apply imap_ext. intros i seg _. done.
Qed.

Lemma positive_is_not_zero (x : Float64.float) :
  Float64.ltb Float64.zero x = true → Float64.eqb x Float64.zero = false.
Proof. destruct x as [[]|[]| |[] m e]; done. Qed.

(** C6 (as amended).  The estimation takes [max(0, D - 5.5)] as the
    speech duration; it returns no marker exactly when the texts hold no
    character or that duration is 0; otherwise it returns one marker per
    segment, in order, at the lead-in plus the running sum, from the
    left, of the speech duration times the share of each preceding
    segment.  For lengths 10, 30 and 60 the offsets are the lead-in,
    the lead-in plus a tenth of the duration, and that plus three tenths
    of it, every product and sum rounded. *)
Theorem approximate_markers_spec (segments : list Segment) (D : Float64.float) :
  let D' := Float64.sub D (Float64.add Float64.SILENCE_PRE_SECONDS
                             Float64.SILENCE_POST_SECONDS) in
  let tts_duration := Float64.max0 D' in
  let total := total_chars segments in
  let ms := Float64.approximate_markers segments D in
  (Float64.ltb Float64.zero D' = true → tts_duration = D')
  ∧ (Float64.ltb Float64.zero D' = false → tts_duration = Float64.zero)
  ∧ (ms = [] ↔ total = 0%nat ∨ Float64.eqb tts_duration Float64.zero = true)
  ∧ (total ≠ 0%nat → Float64.eqb tts_duration Float64.zero = false →
     ms = imap (λ i (seg : Segment),
                  Float64.mkMarker
                    (Float64.running_sum tts_duration total
                       Float64.SILENCE_PRE_SECONDS (take i segments))
                    seg.1)
            segments)
  ∧ (∀ ta tb tc a b c,
       segments = [(ta, a); (tb, b); (tc, c)] →
       String.length a = 10%nat → String.length b = 30%nat →
       String.length c = 60%nat →
       Float64.ltb Float64.zero D' = true →
       Float64.time_seconds <$> ms
       = [Float64.SILENCE_PRE_SECONDS;
          Float64.add Float64.SILENCE_PRE_SECONDS
            (Float64.mul D' (Float64.truediv 10 100));
          Float64.add
            (Float64.add Float64.SILENCE_PRE_SECONDS
               (Float64.mul D' (Float64.truediv 10 100)))
            (Float64.mul D' (Float64.truediv 30 100))]).
Proof.
  cbv zeta.
  set (D' := Float64.sub D _).
  assert (∀ ms, ms = Float64.approximate_markers segments D →
    (ms = [] ↔ total_chars segments = 0%nat
               ∨ Float64.eqb (Float64.max0 D') Float64.zero = true)
    ∧ (total_chars segments ≠ 0%nat →
       Float64.eqb (Float64.max0 D') Float64.zero = false →
       ms = imap (λ i (seg : Segment),
                    Float64.mkMarker
                      (Float64.running_sum (Float64.max0 D')
                         (total_chars segments)
                         Float64.SILENCE_PRE_SECONDS (take i segments))
                      seg.1)
              segments)) as Hgeneral.
  { intros ms ->. unfold Float64.approximate_markers. fold D'.
    destruct (total_chars segments =? 0)%nat eqn:Htotal.
    - apply Nat.eqb_eq in Htotal. cbn [orb]. split; [|done].
      split; [by left|done].
    - apply Nat.eqb_neq in Htotal. cbn [orb].
      destruct (Float64.eqb (Float64.max0 D') Float64.zero) eqn:Hzero.
      + split; [|done]. split; [by right|done].
      + rewrite approximate_loop_running_sum. split; [|done]. split.
        * intros Hnil. destruct segments; [by destruct Htotal|done].
        * intros [?|?]; done. }
  destruct (Hgeneral _ eq_refl) as [Hempty Hlist].
  split_and!; [| |exact Hempty|exact Hlist|].
  - intros Hpos. unfold Float64.max0. by rewrite Hpos.
  - intros Hpos. unfold Float64.max0. by rewrite Hpos.
  - intros ta tb tc a b c -> Ha Hb Hc Hpos.
    rewrite Hlist.
    + unfold Float64.max0. rewrite Hpos.
      unfold total_chars. cbn [map snd sum_list sum_list_with].
      rewrite Ha, Hb, Hc.
      cbn [imap fmap list_fmap take Float64.running_sum fold_left
           snd fst Float64.time_seconds compose].
      unfold Float64.share, id. cbn [snd]. rewrite Ha, Hb.
      reflexivity.
    + unfold total_chars. cbn [map snd sum_list sum_list_with].
      rewrite Ha. done.
    + apply positive_is_not_zero. unfold Float64.max0. by rewrite Hpos.
Qed.

Lemma approximate_markers_spec_witness :
  Float64.time_seconds
  <$> Float64.approximate_markers
        [("a", Doubles.filler 10); ("b", Doubles.filler 30);
         ("c", Doubles.filler 60)]
        (Float64.truediv 211 2)
  = [Float64.truediv 1 2; Float64.truediv 21 2; Float64.truediv 81 2].
Proof.
  rewrite (proj2 (proj2 (proj2 (proj2
             (approximate_markers_spec
                [("a", Doubles.filler 10); ("b", Doubles.filler 30);
                 ("c", Doubles.filler 60)]
                (Float64.truediv 211 2)))))
             "a" "b" "c" (Doubles.filler 10) (Doubles.filler 30)
             (Doubles.filler 60) eq_refl eq_refl eq_refl eq_refl eq_refl).
  vm_compute. reflexivity.
Defined.

(** For a file of 12.0 s the third offset is not the lead-in plus four
    tenths of the speech duration: the program adds two rounded shares
    and arrives one unit in the last place below 3.1 s. *)
Lemma third_offset_is_a_running_sum :
  let D' := Float64.sub (Float64.of_int 12)
              (Float64.add Float64.SILENCE_PRE_SECONDS
                 Float64.SILENCE_POST_SECONDS) in
  Float64.time_seconds
  <$> Float64.approximate_markers
        [("a", Doubles.filler 10); ("b", Doubles.filler 30);
         ("c", Doubles.filler 60)]
        (Float64.of_int 12)
  = [Float64.truediv 1 2; Float64.truediv 115 100;
     S754_finite false 6980579422424268 (-51)]
  ∧ Float64.add Float64.SILENCE_PRE_SECONDS
      (Float64.mul D' (Float64.truediv 40 100))
    = S754_finite false 6980579422424269 (-51)
  ∧ Float64.truediv 31 10 = S754_finite false 6980579422424269 (-51).
Proof. split_and!; vm_compute; reflexivity. Qed.

(** ** The projector *)













(** The offset 0.29 s: the product with 1000 is rounded to 290.0 before
    [int] cuts it, and the chapter starts at 290 ms. *)
Lemma start_time_of_rounded_product :
  Float64.milliseconds (Float64.truediv 29 100) = Some 290%Z.
Proof. vm_compute. reflexivity. Qed.

(** A marker at infinity: [int] raises and no tag is written. *)
Lemma no_tag_for_infinite_offset :
  Float64.mp3_chapter_tags
    [Float64.mkMarker (Float64.truediv 1 2) "Intro";
     Float64.mkMarker (S754_infinity false) "Body"] ∅ = None.
Proof. reflexivity. Qed.
